(** * AI debate tool: a shallow embedding of the debate pipeline's
      deterministic core and the properties its specification states.

    Python values are modelled as follows.
    - [int] is [Z] (Python integers are unbounded).
    - [str] is [string], one [ascii] per character.  Case mapping, white
      space and line separators are the ASCII ones: a character above
      127 is kept as it is, has no case and separates nothing.
    - a [dict] that the code updates or probes with [.get] is a [gmap];
      a constant class-level table is an association list in the order
      of the source.
    - an exception that may leave a function is a value of [exn] carried
      by [Raise]; a function that catches everything returns its result
      dictionary as a record. *)

From Stdlib Require Import ZArith List String Ascii Bool Lia Floats Uint63.
From stdpp Require Import base option list sorting gmap strings pretty.

Open Scope string_scope.
Open Scope Z_scope.

(** ** Exceptions and results *)

Inductive exn : Type :=
| ValueError (msg : string)
| SyntaxError (msg : string)
| KeyError (msg : string)
| TypeError (msg : string)
| MemoryError
| RecursionError
| OSError (msg : string).

Inductive res (A : Type) : Type :=
| Ok (a : A)
| Raise (e : exn).
Arguments Ok {A} a.
Arguments Raise {A} e.

Definition bind_res {A B} (r : res A) (k : A -> res B) : res B :=
  match r with
  | Ok a => k a
  | Raise e => Raise e
  end.

#[global] Instance res_ret : MRet res := fun A a => Ok a.
#[global] Instance res_bind : MBind res := fun A B k r => bind_res r k.

(** ** Python string operations (ASCII) *)

Module PyStr.

Definition lower_ascii (c : ascii) : ascii :=
  let n := nat_of_ascii c in
  if (Nat.leb 65 n && Nat.leb n 90)%bool then ascii_of_nat (n + 32) else c.

(** [s.lower()] *)
Fixpoint lower (s : string) : string :=
  match s with
  | EmptyString => EmptyString
  | String c r => String (lower_ascii c) (lower r)
  end.

(** [s.startswith(p)] *)
Fixpoint startswith (p s : string) : bool :=
  match p, s with
  | EmptyString, _ => true
  | String a p', String b s' => Ascii.eqb a b && startswith p' s'
  | String _ _, EmptyString => false
  end.

(** [sub in s] *)
Fixpoint contains (sub s : string) : bool :=
  startswith sub s ||
  match s with
  | EmptyString => false
  | String _ r => contains sub r
  end.

(** [key in table] and [table[key]] for a constant table. *)
Fixpoint table_get {V} (t : list (string * V)) (k : string) : option V :=
  match t with
  | [] => None
  | (k', v) :: r => if String.eqb k k' then Some v else table_get r k
  end.

(** [sum(1 for kw in kws if kw in s)] *)
Definition count_in (kws : list string) (s : string) : Z :=
  Z.of_nat (List.length (List.filter (fun kw => contains kw s) kws)).

(** [any(kw in s for kw in kws)] *)
Definition any_in (kws : list string) (s : string) : bool :=
  List.existsb (fun kw => contains kw s) kws.

(** White space of [str.strip()] within ASCII. *)
Definition is_space (c : ascii) : bool :=
  let n := nat_of_ascii c in
  (Nat.leb 9 n && Nat.leb n 13) || (Nat.leb 28 n && Nat.leb n 32).

Fixpoint lstrip (s : string) : string :=
  match s with
  | EmptyString => EmptyString
  | String c r => if is_space c then lstrip r else s
  end.

(** [s.rstrip()]: a character is dropped when it is white space and
    everything after it has been dropped. *)
Fixpoint rstrip (s : string) : string :=
  match s with
  | EmptyString => EmptyString
  | String c r =>
      match rstrip r with
      | EmptyString => if is_space c then EmptyString else String c EmptyString
      | r' => String c r'
      end
  end.

(** [s.strip()] *)
Definition strip (s : string) : string := rstrip (lstrip s).

(** [len(s)] *)
Definition len (s : string) : Z := Z.of_nat (String.length s).

(** [str(n)] for an integer. *)
Definition str_int (n : Z) : string := pretty n.

(** [s.endswith(p)] *)
Definition endswith (p s : string) : bool :=
  startswith (String.rev p) (String.rev s).

Definition is_digit (c : ascii) : bool :=
  let n := nat_of_ascii c in Nat.leb 48 n && Nat.leb n 57.

Definition digit_val (c : ascii) : Z := Z.of_nat (nat_of_ascii c) - 48.

(** The digits of an integer literal given to [int()]: decimal digits,
    single underscores allowed between two digits. *)
Fixpoint int_digits (s : string) (acc : Z) (after_digit : bool) : option Z :=
  match s with
  | EmptyString => if after_digit then Some acc else None
  | String c r =>
      if is_digit c then int_digits r (10 * acc + digit_val c) true
      else if Ascii.eqb c "_" && after_digit then int_digits r acc false
      else None
  end.

(** [int(s)]: [None] stands for ValueError. *)
Definition parse_int (s : string) : option Z :=
  match strip s with
  | String "-" r => Z.opp <$> int_digits r 0 false
  | String "+" r => int_digits r 0 false
  | t => int_digits t 0 false
  end.

(** [s.zfill(w)] for a string of digits. *)
Definition zfill (w : nat) (s : string) : string :=
  String.concat "" (List.repeat "0" (w - String.length s)) ++ s.

(** [f"{n:03d}"]: the sign counts in the width. *)
Definition format_03d (n : Z) : string :=
  if n <? 0 then "-" ++ zfill 2 (str_int (- n)) else zfill 3 (str_int n).

(** [sorted(names)]: a stable merge sort by code point order. *)
Definition str_le (a b : string) : Prop := String.leb a b = true.

#[global] Instance str_le_dec a b : Decision (str_le a b).
Proof. unfold str_le. apply _. Defined.

Definition sorted (l : list string) : list string := merge_sort str_le l.

End PyStr.

(** ** Priority scorer ([services/priority_scorer.py]) *)

Module PriorityScorer.

Definition SEVERITY_SCORES : list (string * Z) :=
  [("critical", 40); ("high", 30); ("medium", 20); ("low", 10)].

Definition IMPACT_SCORES : list (string * Z) :=
  [("high", 40); ("medium", 25); ("low", 10)].

Definition EFFORT_PENALTY : list (string * Z) :=
  [("low", 0); ("medium", -10); ("high", -20)].

Definition THRESHOLDS : list (string * Z) :=
  [("stop_ship", 85); ("high", 65); ("medium", 50); ("low", 0)].

(** [cls.THRESHOLDS[k]]; the four keys used by the code are present. *)
Definition threshold (k : string) : Z :=
  default 0 (PyStr.table_get THRESHOLDS k).

(** The four label strings of the source (UTF-8 bytes). *)
Definition LABEL_STOP_SHIP : string := "🔴 STOP-SHIP".
Definition LABEL_HIGH : string := "🟠 HIGH".
Definition LABEL_MEDIUM : string := "🟡 MEDIUM".
Definition LABEL_LOW : string := "⚪ LOW".

Definition score_issue (severity impact effort : string) : res (Z * string) :=
  let severity := PyStr.lower severity in
  let impact := PyStr.lower impact in
  let effort := PyStr.lower effort in
  match PyStr.table_get SEVERITY_SCORES severity with
  | None => Raise (ValueError ("Invalid severity: " ++ severity))
  | Some sev =>
    match PyStr.table_get IMPACT_SCORES impact with
    | None => Raise (ValueError ("Invalid impact: " ++ impact))
    | Some imp =>
      match PyStr.table_get EFFORT_PENALTY effort with
      | None => Raise (ValueError ("Invalid effort: " ++ effort))
      | Some pen =>
          let score := sev + imp + pen in
          let label :=
            if score >=? threshold "stop_ship" then LABEL_STOP_SHIP
            else if score >=? threshold "high" then LABEL_HIGH
            else if score >=? threshold "medium" then LABEL_MEDIUM
            else LABEL_LOW in
          Ok (score, label)
      end
    end
  end.

(** The specification's reading of the scorer: the three contributions
    are added, the sum is clamped to [0,100] and the label is read off
    the bands. *)
Definition clamp (lo hi x : Z) : Z := Z.max lo (Z.min hi x).

Definition spec_label (score : Z) : string :=
  if score >=? 85 then LABEL_STOP_SHIP
  else if score >=? 65 then LABEL_HIGH
  else if score >=? 50 then LABEL_MEDIUM
  else LABEL_LOW.

Definition spec_score_issue (sev imp pen : Z) : Z * string :=
  let score := clamp 0 100 (sev + imp + pen) in
  (score, spec_label score).

End PriorityScorer.

(** ** Configuration ([config.py]) *)

Module Config.

(** The fields of [DebateConfig] that the modelled functions read, as
    [load_config()] returns them.  [session_root] stands for
    [config.temp_dir / "ai_debates" / get_hashed_user()]. *)
Record DebateConfig : Type := {
  enabled : bool;
  complexity_threshold : Z;
  session_root : string
}.

End Config.

(** ** Enforcement gate, complexity heuristic ([enforcement_gate.py]) *)

Module Complexity.
Import Config.

Definition architectural_keywords : list string :=
  [ "refactor"; "redesign"; "migrate"; "architecture"; "authentication";
    "authorization"; "security"; "database"; "api"; "schema"; "jwt";
    "token"; "caching"; "cache"; "workflow"; "approval"; "integration";
    "service"; "infrastructure"; "deployment" ].

Definition scope_keywords : list string :=
  [ "system-wide"; "all"; "entire"; "multiple"; "cross-cutting";
    "implement"; "new feature"; "add new" ].

Definition simple_keywords : list string :=
  [ "typo"; "fix"; "comment"; "documentation"; "readme" ].

Definition _calculate_placeholder_complexity
    (request : string) (file_paths : list string) : Z :=
  let score := 0 in
  (* Factor 1: file count *)
  let file_count := Z.of_nat (List.length file_paths) in
  let score :=
    if file_count =? 0 then score + 5
    else if file_count =? 1 then score + 10
    else if file_count <=? 3 then score + 15
    else score + 20 in
  (* Factor 2: architectural keywords *)
  let request_lower := PyStr.lower request in
  let keyword_matches := PyStr.count_in architectural_keywords request_lower in
  let score := score + Z.min (keyword_matches * 12) 50 in
  (* Factor 3: scope indicators *)
  let scope_matches := PyStr.count_in scope_keywords request_lower in
  let score := score + Z.min (scope_matches * 12) 25 in
  (* Bonus: the loop adds 5 at the first architectural keyword and breaks *)
  let score :=
    if PyStr.contains "add " request_lower
    then (if PyStr.any_in architectural_keywords request_lower
          then score + 5 else score)
    else score in
  (* Factor 4: simple change indicators *)
  let simple_matches := PyStr.count_in simple_keywords request_lower in
  let score := if simple_matches >? 0 then Z.max 0 (score - 30) else score in
  Z.min score 100.

Record CheckResult : Type := {
  required : bool;
  complexity_score : Z;
  reason : string
}.

(** [check_debate_required]; [None] is the default of [file_paths]. *)
Definition check_debate_required (config : DebateConfig) (request : string)
    (file_paths : option (list string)) : CheckResult :=
  if negb (enabled config) then
    {| required := false; complexity_score := 0;
       reason := "AI debate system is disabled" |}
  else
    let complexity_score :=
      _calculate_placeholder_complexity request (default [] file_paths) in
    let required := complexity_score >=? complexity_threshold config in
    {| required := required; complexity_score := complexity_score;
       reason := "Complexity score " ++ PyStr.str_int complexity_score
                 ++ (if required then " >= threshold " else " < threshold ")
                 ++ PyStr.str_int (complexity_threshold config) |}.

(** The scoring rule in the specification's words, over the counts it
    names: the number of files, of architectural and of scope keyword
    hits, whether "add " co-occurs with an architectural keyword and
    whether a simple-change keyword appears. *)
Definition spec_file_points (files : Z) : Z :=
  if files =? 0 then 5 else if files =? 1 then 10
  else if files <=? 3 then 15 else 20.

Definition spec_complexity (files arch scope : Z) (add_bonus simple : bool) : Z :=
  PriorityScorer.clamp 0 100
    (spec_file_points files + Z.min (12 * arch) 50 + Z.min (12 * scope) 25
     + (if add_bonus then 5 else 0) - (if simple then 30 else 0)).

End Complexity.

(** ** Session store ([file_protocol.py])

    The file system under the session root is a map from a session
    directory's path to its content.  A session directory holds the text
    of [.sequence] when the file exists, its sub-directories (each a map
    from file name to text) and [session_metadata.json].  The directories
    [locks/] and [artifacts/], which come with every session directory
    and hold nothing the functions read, are not represented.  Advisory
    locks are taken and released without contention: the model is one
    process at a time, so a lock never times out. *)

Module FileProtocol.
Import Config.

(** A JSON value as [json.loads] returns it.  [JOther] stands for a
    float, list or object, with its truth value and its [str()]. *)
Inductive jval : Type :=
| JNull
| JBool (b : bool)
| JInt (z : Z)
| JStr (s : string)
| JOther (truthy : bool) (repr : string).

#[global] Instance jval_eq_dec : EqDecision jval.
Proof. solve_decision. Defined.

(** [bool(v)] *)
Definition truthy (v : jval) : bool :=
  match v with
  | JNull => false
  | JBool b => b
  | JInt z => negb (z =? 0)
  | JStr s => negb (String.eqb s "")
  | JOther t _ => t
  end.

(** [str(v)], as an f-string renders it. *)
Definition py_str (v : jval) : string :=
  match v with
  | JNull => "None"
  | JBool true => "True"
  | JBool false => "False"
  | JInt z => PyStr.str_int z
  | JStr s => s
  | JOther _ r => r
  end.

(** What [session_metadata.json] holds: an object, another JSON value,
    or text that [json.loads] rejects. *)
Inductive MetaFile : Type :=
| MetaObject (d : gmap string jval)
| MetaOther (v : jval)
| MetaInvalid.

Record SessionDir : Type := {
  seq_file : option string;
  subdirs : gmap string (gmap string string);
  metadata_file : option MetaFile
}.

Definition set_seq_file (t : string) (d : SessionDir) : SessionDir :=
  {| seq_file := Some t; subdirs := subdirs d; metadata_file := metadata_file d |}.

Definition set_subdir (name : string) (files : gmap string string)
    (d : SessionDir) : SessionDir :=
  {| seq_file := seq_file d; subdirs := <[name := files]> (subdirs d);
     metadata_file := metadata_file d |}.

Definition set_metadata_file (m : MetaFile) (d : SessionDir) : SessionDir :=
  {| seq_file := seq_file d; subdirs := subdirs d; metadata_file := Some m |}.

Abbreviation FS := (gmap string SessionDir).

Definition path_join (a b : string) : string := a ++ "/" ++ b.

(** [os.path.basename(p)]: what follows the last slash. *)
Fixpoint basename (p : string) : string :=
  match p with
  | EmptyString => EmptyString
  | String c r => if PyStr.contains "/" r then basename r
                  else if Ascii.eqb c "/" then r else p
  end.

Record CreateResult : Type := {
  c_success : bool;
  c_path : string;
  c_error : option string
}.

Definition participant_dirs : list string := ["claude"; "codex"; "moderator"].

(** [create_session_directory]; [now] is [datetime.now().isoformat()]. *)
Definition create_session_directory (cfg : DebateConfig) (now : string)
    (fs : FS) (session_id : string) : FS * CreateResult :=
  let session_id_clean := basename session_id in
  if PyStr.contains ".." session_id || negb (String.eqb session_id session_id_clean)
  then (fs, {| c_success := false; c_path := "";
               c_error := Some "Invalid session_id: directory traversal not allowed" |})
  else
    let session_dir := path_join (session_root cfg) session_id in
    let old := default {| seq_file := None; subdirs := ∅; metadata_file := None |}
                       (fs !! session_dir) in
    (* mkdir(exist_ok=True) keeps a directory that is already there *)
    let dirs := List.fold_left
                  (fun ds n => match ds !! n with
                               | Some _ => ds
                               | None => <[n := ∅]> ds
                               end)
                  participant_dirs (subdirs old) in
    let seq := match seq_file old with Some t => t | None => "0" end in
    let metadata : gmap string jval :=
      <["session_id" := JStr session_id]>
      (<["created_at" := JStr now]>
      (<["updated_at" := JStr now]>
      (<["state" := JStr "IDLE"]>
      (<["current_round" := JInt 0]> ∅)))) in
    (<[session_dir := {| seq_file := Some seq; subdirs := dirs;
                         metadata_file := Some (MetaObject metadata) |}]> fs,
     {| c_success := true; c_path := session_dir; c_error := None |}).

(** [get_next_sequence]: a missing or unparsable [.sequence] counts as 0.
    Without the session directory the lock file cannot be created. *)
Definition get_next_sequence (fs : FS) (session_dir : string) : FS * res Z :=
  match fs !! session_dir with
  | None => (fs, Raise (OSError "No such file or directory"))
  | Some d =>
      let current :=
        match seq_file d with
        | Some t => default 0 (PyStr.parse_int t)
        | None => 0
        end in
      let next_seq := current + 1 in
      (<[session_dir := set_seq_file (PyStr.str_int next_seq) d]> fs, Ok next_seq)
  end.

Record WriteResult : Type := {
  w_success : bool;
  w_file_path : string;
  w_sequence : Z;
  w_error : option string
}.

Definition valid_ai_name (ai_name : string) : bool :=
  String.eqb ai_name "claude" || String.eqb ai_name "codex".

Definition invalid_ai_name_error (ai_name : string) : string :=
  "Invalid ai_name: " ++ ai_name ++ ". Must be 'claude' or 'codex'".

Definition proposal_filename (round_num sequence : Z) : string :=
  "round_" ++ PyStr.str_int round_num ++ "_seq_" ++ PyStr.format_03d sequence ++ ".md".

Definition write_proposal (fs : FS) (session_dir ai_name : string)
    (round_num : Z) (content : string) : FS * WriteResult :=
  if negb (valid_ai_name ai_name) then
    (fs, {| w_success := false; w_file_path := ""; w_sequence := 0;
            w_error := Some (invalid_ai_name_error ai_name) |})
  else
    let '(fs1, r) := get_next_sequence fs session_dir in
    let failed msg :=
      {| w_success := false; w_file_path := ""; w_sequence := 0;
         w_error := Some ("Failed to write proposal: " ++ msg) |} in
    match r with
    | Raise _ => (fs1, failed "No such file or directory")
    | Ok sequence =>
        let filename := proposal_filename round_num sequence in
        let file_path := path_join (path_join session_dir ai_name) filename in
        match fs1 !! session_dir with
        | None => (fs1, failed "No such file or directory")
        | Some d =>
            match subdirs d !! ai_name with
            | None => (fs1, failed "No such file or directory")
            | Some files =>
                (<[session_dir := set_subdir ai_name (<[filename := content]> files) d]> fs1,
                 {| w_success := true; w_file_path := file_path;
                    w_sequence := sequence; w_error := None |})
            end
        end
    end.

Record ReadResult : Type := {
  r_success : bool;
  r_content : string;
  r_file_path : string;
  r_error : option string
}.

(** [fnmatch] of a file name against [prefix*suffix]. *)
Definition glob_match (prefix suffix name : string) : bool :=
  PyStr.startswith prefix name &&
  PyStr.endswith suffix
    (String.substring (String.length prefix)
       (String.length name - String.length prefix) name).

(** [read_proposal] for a round already rendered by the f-string.  The
    matching files are in one directory, so sorting the paths is sorting
    the names. *)
Definition read_proposal_fmt (fs : FS) (session_dir ai_name round_text : string)
    : ReadResult :=
  if negb (valid_ai_name ai_name) then
    {| r_success := false; r_content := ""; r_file_path := "";
       r_error := Some (invalid_ai_name_error ai_name) |}
  else
    let files : gmap string string :=
      default ∅ (d ← fs !! session_dir; subdirs d !! ai_name) in
    let matching_files :=
      PyStr.sorted
        (List.filter (glob_match ("round_" ++ round_text ++ "_seq_") ".md")
                     (fst <$> map_to_list files)) in
    match List.last (Some <$> matching_files) None with
    | None =>
        {| r_success := false; r_content := ""; r_file_path := "";
           r_error := Some ("No proposal found for " ++ ai_name ++ " round "
                            ++ round_text) |}
    | Some latest_file =>
        {| r_success := true;
           r_content := default "" (files !! latest_file);
           r_file_path := path_join (path_join session_dir ai_name) latest_file;
           r_error := None |}
    end.

Definition read_proposal (fs : FS) (session_dir ai_name : string) (round_num : Z)
    : ReadResult :=
  read_proposal_fmt fs session_dir ai_name (PyStr.str_int round_num).

Record MetaResult : Type := {
  m_success : bool;
  m_error : option string
}.

(** [write_metadata]: the dictionary gets a fresh [updated_at] and
    replaces the file. *)
Definition write_metadata (now : string) (fs : FS) (session_dir : string)
    (metadata : gmap string jval) : FS * MetaResult :=
  let metadata := <["updated_at" := JStr now]> metadata in
  match fs !! session_dir with
  | None => (fs, {| m_success := false;
                    m_error := Some "Failed to write metadata: No such file or directory" |})
  | Some d =>
      (<[session_dir := set_metadata_file (MetaObject metadata) d]> fs,
       {| m_success := true; m_error := None |})
  end.

(** [read_metadata]: the parsed file, or the error text. *)
Definition read_metadata (fs : FS) (session_dir : string) : string + MetaFile :=
  match d ← fs !! session_dir; metadata_file d with
  | None => inl "Metadata file not found"
  | Some MetaInvalid => inl "Failed to read metadata: Expecting value"
  | Some m => inr m
  end.

End FileProtocol.

(** ** Enforcement gate, execution gate ([enforcement_gate.py]) *)

Module EnforcementGate.
Import Config FileProtocol.

Inductive DecisionPack : Type :=
| NoPack
| EscalationPack (rounds consensus_score request : jval)
                 (claude_approach codex_approach : string)
| InProgressPack (summary : string) (current_round max_rounds : jval).

Record GateResult : Type := {
  can_execute : bool;
  consensus_score : jval;
  user_override : bool;
  decision_pack : DecisionPack;
  error : option string
}.

(** [metadata.get(k, dflt)] *)
Definition dict_get (metadata : gmap string jval) (k : string) (dflt : jval) : jval :=
  default dflt (metadata !! k).

Definition approach (p : ReadResult) : string :=
  if r_success p then r_content p else "Not available".

Definition _generate_decision_pack (fs : FS) (metadata : gmap string jval)
    (session_dir : string) : DecisionPack :=
  let round_text := py_str (dict_get metadata "current_round" (JInt 1)) in
  let claude_proposal := read_proposal_fmt fs session_dir "claude" round_text in
  let codex_proposal := read_proposal_fmt fs session_dir "codex" round_text in
  EscalationPack (dict_get metadata "current_round" (JInt 0))
                 (dict_get metadata "consensus_score" (JInt 0))
                 (dict_get metadata "request" (JStr ""))
                 (approach claude_proposal) (approach codex_proposal).

(** The directory the gate looks at: the one given, or the one derived
    from the session id. *)
Definition resolve_dir (cfg : DebateConfig) (session_id : string)
    (session_dir : option string) : string :=
  match session_dir with
  | Some p => p
  | None => path_join (session_root cfg) session_id
  end.

Definition blocked (err : string) : GateResult :=
  {| can_execute := false; consensus_score := JNull; user_override := false;
     decision_pack := NoPack; error := Some err |}.

Definition block_execution_until_consensus (cfg : DebateConfig) (fs : FS)
    (session_id : string) (session_dir : option string) : GateResult :=
  if negb (enabled cfg) then
    {| can_execute := true; consensus_score := JNull; user_override := false;
       decision_pack := NoPack; error := None |}
  else
    let session_dir := resolve_dir cfg session_id session_dir in
    match fs !! session_dir with
    | None => blocked ("Session not found: " ++ session_id)
    | Some _ =>
        match read_metadata fs session_dir with
        | inl err => blocked err
        | inr MetaInvalid => blocked "Failed to read metadata: Expecting value"
        | inr (MetaOther _) =>
            (* [metadata.get] on a value that is not a dict *)
            blocked "Failed to check consensus: object has no attribute 'get'"
        | inr (MetaObject metadata) =>
            let state := dict_get metadata "state" (JStr "IDLE") in
            let score := dict_get metadata "consensus_score" JNull in
            let override := dict_get metadata "user_override" (JBool false) in
            if decide (state = JStr "CONSENSUS") then
              {| can_execute := true; consensus_score := score;
                 user_override := false; decision_pack := NoPack; error := None |}
            else if bool_decide (state = JStr "ESCALATION") && truthy override then
              {| can_execute := true; consensus_score := score;
                 user_override := true; decision_pack := NoPack; error := None |}
            else if decide (state = JStr "ESCALATION") then
              {| can_execute := false; consensus_score := score;
                 user_override := false;
                 decision_pack := _generate_decision_pack fs metadata session_dir;
                 error := None |}
            else
              {| can_execute := false; consensus_score := score;
                 user_override := false;
                 decision_pack :=
                   InProgressPack
                     ("Debate in progress (state: " ++ py_str state ++ ")")
                     (dict_get metadata "current_round" (JInt 0))
                     (dict_get metadata "max_rounds" (JInt 5));
                 error := None |}
        end
    end.

(** [mark_user_override]; [now] is the time stamp [write_metadata] puts
    into [updated_at]. *)
Definition mark_user_override (cfg : DebateConfig) (now : string) (fs : FS)
    (session_id : string) (session_dir : option string) : FS * MetaResult :=
  let session_dir := resolve_dir cfg session_id session_dir in
  match read_metadata fs session_dir with
  | inl err => (fs, {| m_success := false; m_error := Some err |})
  | inr MetaInvalid =>
      (fs, {| m_success := false;
              m_error := Some "Failed to read metadata: Expecting value" |})
  | inr (MetaOther _) =>
      (* item assignment on a value that is not a dict *)
      (fs, {| m_success := false;
              m_error := Some "Failed to mark override: object does not support item assignment" |})
  | inr (MetaObject metadata) =>
      let metadata := <["user_override" := JBool true]> metadata in
      let metadata := <["outcome" := JStr "user_override"]> metadata in
      write_metadata now fs session_dir metadata
  end.

End EnforcementGate.

(** Test harness: a run of [write_proposal] calls for one participant and
    round, one per content, in order. *)
Module SessionRuns.
Import Config FileProtocol.

Fixpoint write_all (fs : FS) (session_dir ai_name : string) (round_num : Z)
    (contents : list string) : FS * list WriteResult :=
  match contents with
  | [] => (fs, [])
  | c :: r =>
      let '(fs1, w) := write_proposal fs session_dir ai_name round_num c in
      let '(fs2, ws) := write_all fs1 session_dir ai_name round_num r in
      (fs2, w :: ws)
  end.

(** The defaults of [DebateConfig], for some user. *)
Definition demo_config : DebateConfig :=
  {| enabled := true; complexity_threshold := 40;
     session_root := "/tmp/ai_debates/0a1b2c3d" |}.

Definition demo_dir : string := path_join (session_root demo_config) "S".

(** The file system after [create_session_directory("S")] on an empty
    session root. *)
Definition fresh_session : FS :=
  fst (create_session_directory demo_config "2026-01-01T00:00:00" ∅ "S").

(** 998 writes of a filler text, then "A", then "B". *)
Definition thousand_contents : list string :=
  (List.repeat "draft" 998 ++ ["A"; "B"])%list.

End SessionRuns.

(** ** Fast moderator ([services/fast_moderator.py]) *)

Module FastModerator.

Definition STRONG_AGREEMENT_THRESHOLD : Z := 10.
Definition MODERATE_AGREEMENT_THRESHOLD : Z := 20.
Definition PROCEED_CONFIDENTLY : Z := 85.
Definition PROCEED_WITH_CAUTION : Z := 70.
Definition DISCUSS_FIRST : Z := 50.

Definition DISAGREEMENT_KEYWORDS : list string :=
  [ "disagree"; "disagrees"; "disagreement";
    "concern"; "concerns"; "concerned";
    "risk"; "risks"; "risky";
    "issue"; "issues"; "problem"; "problems";
    "wrong"; "incorrect"; "mistake";
    "missing"; "lacks"; "incomplete";
    "alternative"; "instead"; "better approach" ].

Definition agreement_keywords : list string :=
  [ "agree"; "agrees"; "correct"; "good"; "excellent";
    "well-designed"; "appropriate"; "smart"; "effective" ].

(** One participant's analysis: the two keys the moderator reads, each
    possibly absent. *)
Record Analysis : Type := {
  score : option Z;
  response : option string
}.

(** A pattern issue, of which only [priority_score] is read. *)
Record PatternIssue : Type := {
  priority_score : option Z
}.

Record Disagreement : Type := {
  source : string;
  text : string
}.

(** The moderator's result; [analysis_time], a wall-clock measurement, is
    left out. *)
Record Consensus : Type := {
  consensus_score : Z;
  interpretation : string;
  recommendation : string;
  score_difference : Z;
  disagreements : list Disagreement;
  agreements : list string
}.

Definition _determine_agreement_level (score_difference : Z) : string :=
  if score_difference <=? STRONG_AGREEMENT_THRESHOLD then "Strong Agreement"
  else if score_difference <=? MODERATE_AGREEMENT_THRESHOLD then "Moderate Agreement"
  else "Significant Disagreements".

Definition _generate_recommendation (consensus_score score_difference : Z)
    (pattern_issues : option (list PatternIssue)) : string :=
  let stop_ship :=
    List.filter (fun i => default 0 (priority_score i) >=? 85)
                (default [] pattern_issues) in
  if negb (Nat.eqb (List.length stop_ship) 0) then
    "[STOP-SHIP] Critical issues found"
  else if consensus_score >=? PROCEED_CONFIDENTLY then
    if score_difference <=? STRONG_AGREEMENT_THRESHOLD
    then "[PROCEED CONFIDENTLY] Strong consensus"
    else "[PROCEED] Good consensus with minor concerns"
  else if consensus_score >=? PROCEED_WITH_CAUTION then
    "[CAUTION] Address key concerns first"
  else if consensus_score >=? DISCUSS_FIRST then
    "[DISCUSS FIRST] Resolve disagreements before proceeding"
  else
    "[RECONSIDER] Fundamental disagreements require rethinking".

Definition is_sentence_end (c : ascii) : bool :=
  Ascii.eqb c "." || Ascii.eqb c "!" || Ascii.eqb c "?".

(** [re.split(r'[.!?]+', text)]: the pieces between maximal runs of
    sentence-ending characters, empty pieces at the ends included. *)
Fixpoint re_split (s cur : string) (in_run : bool) : list string :=
  match s with
  | EmptyString => [cur]
  | String c r =>
      if is_sentence_end c then
        if in_run then re_split r "" true else cur :: re_split r "" true
      else re_split r (cur ++ String c "") false
  end.

Definition _split_sentences (text : string) : list string :=
  PyStr.strip <$>
    List.filter (fun s => negb (String.eqb (PyStr.strip s) ""))
                (re_split text "" false).

Definition _contains_disagreement_keyword (sentence : string) : bool :=
  PyStr.any_in DISAGREEMENT_KEYWORDS (PyStr.lower sentence).

Definition _extract_disagreements (claude_text codex_text : string)
    : list Disagreement :=
  let pick src sentences :=
    (fun s => {| source := src; text := PyStr.strip s |}) <$>
      List.filter _contains_disagreement_keyword sentences in
  List.firstn 5
    (pick "Claude" (_split_sentences claude_text)
     ++ pick "Codex" (_split_sentences codex_text))%list.

(** The second loop of [_extract_agreements]: a Codex sentence is added
    unless the list already holds it. *)
Fixpoint add_new (agreements sentences : list string) : list string :=
  match sentences with
  | [] => agreements
  | s :: r =>
      if PyStr.any_in agreement_keywords (PyStr.lower s) then
        if bool_decide (PyStr.strip s ∈ agreements) then add_new agreements r
        else add_new (agreements ++ [PyStr.strip s])%list r
      else add_new agreements r
  end.

Definition _extract_agreements (claude_text codex_text : string) : list string :=
  let from_claude :=
    PyStr.strip <$>
      List.filter (fun s => PyStr.any_in agreement_keywords (PyStr.lower s))
                  (_split_sentences claude_text) in
  List.firstn 5 (add_new from_claude (_split_sentences codex_text)).

Definition analyze (claude_result codex_result : Analysis)
    (pattern_issues : option (list PatternIssue)) : Consensus :=
  let claude_score := default 70 (score claude_result) in
  let codex_score := default 70 (score codex_result) in
  let consensus_score := (claude_score + codex_score) `div` 2 in
  let score_difference := Z.abs (claude_score - codex_score) in
  {| consensus_score := consensus_score;
     interpretation := _determine_agreement_level score_difference;
     recommendation :=
       _generate_recommendation consensus_score score_difference pattern_issues;
     score_difference := score_difference;
     disagreements :=
       _extract_disagreements (default "" (response claude_result))
                              (default "" (response codex_result));
     agreements :=
       _extract_agreements (default "" (response claude_result))
                           (default "" (response codex_result)) |}.

End FastModerator.

(** ** Smart recommender, severity ladder ([services/smart_recommender.py]) *)

Module SmartRecommender.

(** [severity_levels] of [_adjust_recommendation_severity], low to high. *)
Definition severity_levels : list string :=
  [ "[PROCEED CONFIDENTLY]"; "[PROCEED]"; "[CAUTION]"; "[DISCUSS FIRST]";
    "[RECONSIDER]"; "[STOP-SHIP]" ].

(** The loop that finds the level of a recommendation: the index of the
    first level whose tag the recommendation contains, 2 if there is
    none. *)
Fixpoint find_level (levels : list string) (i : nat)
    (original_recommendation : string) : nat :=
  match levels with
  | [] => 2%nat
  | level :: r =>
      if PyStr.contains level original_recommendation then i
      else find_level r (S i) original_recommendation
  end.

Definition current_level (original_recommendation : string) : nat :=
  find_level severity_levels 0 original_recommendation.

(** The tag of a recommendation's level. *)
Definition level_tag (recommendation : string) : string :=
  List.nth (current_level recommendation) severity_levels "".

End SmartRecommender.

(** ** Iterative debate engine ([services/iterative_debate_engine.py])

    The debates, the plan reviser and the file system are outside the
    engine: what they return in iteration [k] is given by an environment.
    Wall-clock times and the delta-debate bookkeeping, which the engine
    only passes on, are left out. *)

Module IterativeDebateEngine.

(** A debate result: its consensus score and a tag telling results
    apart. *)
Record DebateResult : Type := {
  dr_consensus : Z;
  dr_tag : nat
}.

Inductive DebateType : Type := full_debate | delta_debate.

Record IterData : Type := {
  it_iteration : Z;
  it_type : DebateType;
  it_consensus_score : Z;
  it_is_best : bool
}.

Definition set_is_best (b : bool) (d : IterData) : IterData :=
  {| it_iteration := it_iteration d; it_type := it_type d;
     it_consensus_score := it_consensus_score d; it_is_best := b |}.

(** The engine's tracking attributes. *)
Record Engine : Type := {
  iteration_history : list IterData;
  best_result : option DebateResult;
  best_consensus : Z;
  best_iteration : Z
}.

Record EngineConfig : Type := {
  target_consensus : Z;
  max_rounds : Z;
  min_improvement_threshold : Z;
  max_regression_tolerance : Z
}.

(** What the collaborators do in one iteration of the loop. *)
Inductive IterEvent : Type :=
| RevisionFailed (err : string)
| WriteFailed (err : string)
| Debated (use_delta : bool) (result : DebateResult).

Definition _track_iteration (e : Engine) (d : IterData) : Engine :=
  {| iteration_history := (iteration_history e ++ [d])%list;
     best_result := best_result e;
     best_consensus := best_consensus e;
     best_iteration := best_iteration e |}.

(** [self.iteration_history[-1]['is_best'] = True] *)
Definition mark_last_best (h : list IterData) : list IterData :=
  match List.rev h with
  | [] => []
  | d :: r => List.rev (set_is_best true d :: r)
  end.

Definition _update_best_result (e : Engine) (current_result : DebateResult)
    (consensus iteration : Z) : Engine * bool :=
  if consensus >? best_consensus e then
    ({| iteration_history :=
          mark_last_best (set_is_best false <$> iteration_history e);
        best_result := Some current_result;
        best_consensus := consensus;
        best_iteration := iteration |}, true)
  else (e, false).

Definition _check_stopping_criteria (iteration consensus target_consensus
    max_iterations : Z) : bool * string :=
  if consensus >=? target_consensus then (true, "")
  else if iteration >? max_iterations then
    (true, "Max iterations (" ++ PyStr.str_int max_iterations ++ ") reached")
  else (false, "").

(** The local variables of [run_iterative_debate] that live across loop
    iterations, with the engine. *)
Record LoopState : Type := {
  engine : Engine;
  debate_result : DebateResult;
  consensus : Z;
  warnings : list string;
  no_improvement_count : Z;
  previous_consensus : Z;
  total_revisions : Z
}.

(** Iteration 1: a full debate, which becomes the best result. *)
Definition first_iteration (first : DebateResult) : LoopState :=
  let e0 := {| iteration_history := []; best_result := None;
               best_consensus := 0; best_iteration := 0 |} in
  let consensus := dr_consensus first in
  let e1 := _track_iteration e0
              {| it_iteration := 1; it_type := full_debate;
                 it_consensus_score := consensus; it_is_best := true |} in
  {| engine := {| iteration_history := iteration_history e1;
                  best_result := Some first;
                  best_consensus := consensus;
                  best_iteration := 1 |};
     debate_result := first;
     consensus := consensus;
     warnings := [];
     no_improvement_count := 0;
     previous_consensus := consensus;
     total_revisions := 0 |}.

Definition add_warning (w : string) (s : LoopState) : LoopState :=
  {| engine := engine s; debate_result := debate_result s;
     consensus := consensus s; warnings := (warnings s ++ [w])%list;
     no_improvement_count := no_improvement_count s;
     previous_consensus := previous_consensus s;
     total_revisions := total_revisions s |}.

(** One pass through the body of the [for] loop.  The flag tells whether
    the loop goes on ([true]) or was left by [break] ([false]). *)
Definition loop_body (cfg : EngineConfig) (target max_iterations : Z)
    (iteration : Z) (ev : IterEvent) (s : LoopState) : LoopState * bool :=
  let '(should_stop, stop_reason) :=
    _check_stopping_criteria iteration (consensus s) target max_iterations in
  if should_stop then
    ((if String.eqb stop_reason "" then s else add_warning stop_reason s), false)
  else
    match ev with
    | RevisionFailed err =>
        (add_warning ("Iteration " ++ PyStr.str_int iteration
                      ++ ": Revision failed - " ++ err) s, true)
    | WriteFailed err =>
        (add_warning ("Iteration " ++ PyStr.str_int iteration
                      ++ ": File write failed - " ++ err) s, true)
    | Debated use_delta result =>
        let total_revisions := total_revisions s + 1 in
        let debate_type := if use_delta then delta_debate else full_debate in
        let consensus := dr_consensus result in
        let '(e, is_best) :=
          _update_best_result (engine s) result consensus iteration in
        let e := _track_iteration e
                   {| it_iteration := iteration; it_type := debate_type;
                      it_consensus_score := consensus; it_is_best := is_best |} in
        if consensus >=? target then
          ({| engine := e; debate_result := result; consensus := consensus;
              warnings := warnings s;
              no_improvement_count := no_improvement_count s;
              previous_consensus := previous_consensus s;
              total_revisions := total_revisions |}, false)
        else
          let improvement := consensus - previous_consensus s in
          let stalled : string :=
            "No significant improvement in 2 consecutive iterations (iterations "
            ++ PyStr.str_int (iteration - 1) ++ "-"
            ++ PyStr.str_int iteration ++ ")" in
          let regressed : string :=
            "Iteration " ++ PyStr.str_int iteration ++ ": Regression detected ("
            ++ PyStr.str_int (previous_consensus s) ++ " → "
            ++ PyStr.str_int consensus ++ ", -"
            ++ PyStr.str_int (previous_consensus s - consensus) ++ " points)" in
          let '(count, ws) :=
            if improvement <? min_improvement_threshold cfg then
              let c := no_improvement_count s + 1 in
              (c, if c >=? 2 then (warnings s ++ [stalled])%list else warnings s)
            else (0, warnings s) in
          let ws :=
            if consensus <? previous_consensus s - max_regression_tolerance cfg
            then (ws ++ [regressed])%list
            else ws in
          ({| engine := e; debate_result := result; consensus := consensus;
              warnings := ws; no_improvement_count := count;
              previous_consensus := consensus;
              total_revisions := total_revisions |}, true)
    end.

(** The [for] loop over the iteration numbers still to run, recording the
    state after each pass. *)
Fixpoint loop_trace (cfg : EngineConfig) (target max_iterations : Z)
    (env : Z -> IterEvent) (iterations : list Z) (s : LoopState)
    : list LoopState :=
  match iterations with
  | [] => []
  | i :: rest =>
      let '(s', go_on) := loop_body cfg target max_iterations i (env i) s in
      s' :: (if go_on then loop_trace cfg target max_iterations env rest s' else [])
  end.

(** [range(2, max_iterations + 1)] *)
Definition py_range (lo hi : Z) : list Z :=
  (fun k => lo + Z.of_nat k) <$> List.seq 0 (Z.to_nat (hi - lo)).

(** [x or dflt] for an optional integer argument. *)
Definition or_default (x : option Z) (dflt : Z) : Z :=
  match x with
  | Some v => if v =? 0 then dflt else v
  | None => dflt
  end.

(** The engine states of a run: after iteration 1, then after each pass
    of the loop. *)
Definition run_trace (cfg : EngineConfig) (target_arg max_arg : option Z)
    (first : DebateResult) (env : Z -> IterEvent) : list LoopState :=
  let target := or_default target_arg (target_consensus cfg) in
  let max_iterations := or_default max_arg (max_rounds cfg) in
  let s1 := first_iteration first in
  if consensus s1 >=? target then [s1]
  else s1 :: loop_trace cfg target max_iterations env
                        (py_range 2 (max_iterations + 1)) s1.

Record IterativeResult : Type := {
  res_best_result : option DebateResult;
  res_best_consensus : Z;
  res_best_iteration : Z;
  res_final_consensus : Z;
  res_total_iterations : Z;
  res_iterations : list IterData;
  res_target_consensus : Z;
  res_target_reached : bool;
  res_warnings : list string;
  res_total_revisions : Z
}.

Definition final_consensus_of (e : Engine) : Z :=
  match List.rev (iteration_history e) with
  | [] => 0
  | d :: _ => it_consensus_score d
  end.

Definition _format_result (e : Engine) (target total_revisions : Z)
    (warnings : list string) : IterativeResult :=
  let final_consensus := final_consensus_of e in
  {| res_best_result := best_result e;
     res_best_consensus := best_consensus e;
     res_best_iteration := best_iteration e;
     res_final_consensus := final_consensus;
     res_total_iterations := Z.of_nat (List.length (iteration_history e));
     res_iterations := iteration_history e;
     res_target_consensus := target;
     res_target_reached := final_consensus >=? target;
     res_warnings := warnings;
     res_total_revisions := total_revisions |}.

Definition run_iterative_debate (cfg : EngineConfig) (target_arg max_arg : option Z)
    (first : DebateResult) (env : Z -> IterEvent) : IterativeResult :=
  let target := or_default target_arg (target_consensus cfg) in
  let s1 := first_iteration first in
  if consensus s1 >=? target then
    _format_result (engine s1) target (total_revisions s1) (warnings s1)
  else
    let s := List.last (run_trace cfg target_arg max_arg first env) s1 in
    let final_consensus := final_consensus_of (engine s) in
    let not_reached : string :=
      "Target consensus " ++ PyStr.str_int target ++ " not reached after "
      ++ PyStr.str_int (Z.of_nat (List.length (iteration_history (engine s))))
      ++ " iteration(s) (best: " ++ PyStr.str_int (best_consensus (engine s))
      ++ ")" in
    let ws :=
      if final_consensus <? target then (warnings s ++ [not_reached])%list
      else warnings s in
    _format_result (engine s) target (total_revisions s) ws.

(** What the properties below observe of a state. *)
Definition best_of (s : LoopState) : Z := best_consensus (engine s).

Definition same_best (a b : Engine) : Prop :=
  best_result a = best_result b /\
  best_consensus a = best_consensus b /\
  best_iteration a = best_iteration b.

End IterativeDebateEngine.

(** Test harness: a run with target 85 and at most 3 iterations whose
    debates score 70, then 60, then 88. *)
Module EngineRuns.
Import IterativeDebateEngine.

Definition demo_engine_config : EngineConfig :=
  {| target_consensus := 90; max_rounds := 5;
     min_improvement_threshold := 5; max_regression_tolerance := 10 |}.

Definition demo_first : DebateResult := {| dr_consensus := 70; dr_tag := 1 |}.

Definition demo_env (iteration : Z) : IterEvent :=
  Debated false {| dr_consensus := (if iteration =? 2 then 60 else 88);
                   dr_tag := Z.to_nat iteration |}.

Definition demo_trace : list LoopState :=
  run_trace demo_engine_config (Some 85) (Some 3) demo_first demo_env.

End EngineRuns.

(** ** Decision learner, condition evaluator ([services/decision_learner.py])

    [ast.parse] is Python's own parser.  Its outcome on the condition
    string, a syntax tree or an exception, is the evaluator's input here.
    The tree type has the node classes the evaluator tells apart and one
    constructor for every other expression node. *)

Module DecisionLearner.

Inductive cmpop : Type :=
| Eq | NotEq | Lt | LtE | Gt | GtE | Is | IsNot | In | NotIn.

Inductive boolop : Type := And | Or.

(** The value of an [ast.Constant]. *)
Inductive constant : Type :=
| CInt (z : Z)
| CBool (b : bool)
| CFloat (repr : string)
| CComplex (repr : string)
| CStr (s : string)
| CBytes (s : string)
| CNone
| CEllipsis.

#[local] Set Warnings "-register-all".

Inductive expr : Type :=
| Compare (left_ : expr) (ops : list cmpop) (comparators : list expr)
| BoolOp (op : boolop) (values : list expr)
| Constant (value : constant)
| Name (id : string)
| OtherNode (class_name : string) (children : list expr).

(** [SAFE_COMPARE_OPS]: the operator a comparison node maps to, if any. *)
Definition SAFE_COMPARE_OPS (op : cmpop) : option (Z -> Z -> bool) :=
  match op with
  | Lt => Some Z.ltb
  | LtE => Some Z.leb
  | Gt => Some Z.gtb
  | GtE => Some Z.geb
  | Eq => Some Z.eqb
  | NotEq => Some (fun a b => negb (Z.eqb a b))
  | Is | IsNot | In | NotIn => None
  end.

(** [SAFE_BOOL_OPS]: [all] for [and], [any] for [or]. *)
Definition SAFE_BOOL_OPS (op : boolop) : list bool -> bool :=
  match op with
  | And => forallb id
  | Or => existsb id
  end.

(** [isinstance(value, int)] and the integer the comparison then sees:
    [bool] is a subclass of [int], with [True == 1] and [False == 0]. *)
Definition int_instance (v : constant) : option Z :=
  match v with
  | CInt z => Some z
  | CBool b => Some (if b then 1 else 0)
  | _ => None
  end.

Definition class_name_of (node : expr) : string :=
  match node with
  | Compare _ _ _ => "Compare"
  | BoolOp _ _ => "BoolOp"
  | Constant _ => "Constant"
  | Name _ => "Name"
  | OtherNode n _ => n
  end.

Definition _get_value (node : expr) (consensus : Z) : res Z :=
  match node with
  | Constant v =>
      match int_instance v with
      | Some z => Ok z
      | None => Raise (ValueError "Only integer constants allowed")
      end
  | Name id =>
      if String.eqb id "consensus" then Ok consensus
      else Raise (ValueError ("Unknown variable: " ++ id))
  | _ => Raise (ValueError ("Unsupported value: " ++ class_name_of node))
  end.

(** The loop over [zip(node.ops, node.comparators)]. *)
Fixpoint compare_chain (left_ : Z) (ops : list cmpop) (comparators : list expr)
    (consensus : Z) : res bool :=
  match ops, comparators with
  | op :: ops', comparator :: comparators' =>
      match SAFE_COMPARE_OPS op with
      | None => Raise (ValueError "Unsupported operator")
      | Some f =>
          right_ ← _get_value comparator consensus;
          if negb (f left_ right_) then Ok false
          else compare_chain right_ ops' comparators' consensus
      end
  | _, _ => Ok true
  end.

Fixpoint _eval_node (node : expr) (consensus : Z) : res bool :=
  match node with
  | Compare left_ ops comparators =>
      left_ ← _get_value left_ consensus;
      compare_chain left_ ops comparators consensus
  | BoolOp op values =>
      results ← (fix each (vs : list expr) : res (list bool) :=
                   match vs with
                   | [] => Ok []
                   | v :: r =>
                       b ← _eval_node v consensus;
                       bs ← each r;
                       Ok (b :: bs)
                   end) values;
      Ok (SAFE_BOOL_OPS op results)
  | _ => Raise (ValueError ("Unsupported node: " ++ class_name_of node))
  end.

(** The exception classes of the [except] clause. *)
Definition caught (e : exn) : bool :=
  match e with
  | SyntaxError _ | ValueError _ | KeyError _ | TypeError _ => true
  | MemoryError | RecursionError | OSError _ => false
  end.

(** [safe_evaluate_condition], given what [ast.parse(condition,
    mode='eval')] did: [Ok tree] with [tree] the body of the parsed
    expression, or the exception it raised. *)
Definition safe_evaluate_condition (parsed : res expr) (consensus : Z) : res bool :=
  match tree ← parsed; _eval_node tree consensus with
  | Ok b => Ok b
  | Raise e => if caught e then Ok false else Raise e
  end.

(** The whitelist of the specification: comparisons chained by the six
    operators over integer literals and the variable [consensus], joined
    by [and] and [or]. *)
Definition whitelisted_value (node : expr) : bool :=
  match node with
  | Constant (CInt _) => true
  | Name id => String.eqb id "consensus"
  | _ => false
  end.

Definition whitelisted_op (op : cmpop) : bool :=
  match op with
  | Lt | LtE | Gt | GtE | Eq | NotEq => true
  | _ => false
  end.

Fixpoint whitelisted (node : expr) : bool :=
  match node with
  | Compare left_ ops comparators =>
      whitelisted_value left_ && forallb whitelisted_op ops
      && forallb whitelisted_value comparators
  | BoolOp _ values => forallb whitelisted values
  | _ => false
  end.

(** [ast.parse("consensus >= False", mode='eval').body] *)
Definition consensus_ge_False : expr :=
  Compare (Name "consensus") [GtE] [Constant (CBool false)].

(** [ast.parse("consensus < 0 < evil() or consensus >= 0", mode='eval').body] *)
Definition call_behind_false_comparison : expr :=
  BoolOp Or
    [ Compare (Name "consensus") [Lt; Lt]
              [Constant (CInt 0); OtherNode "Call" [Name "evil"]];
      Compare (Name "consensus") [GtE] [Constant (CInt 0)] ].

(** Structural induction with the hypothesis for every operand of a
    boolean node. *)
Fixpoint expr_induction (P : expr -> Prop)
    (HCompare : forall l ops cs, P (Compare l ops cs))
    (HBoolOp : forall op vs, Forall P vs -> P (BoolOp op vs))
    (HConstant : forall v, P (Constant v))
    (HName : forall id, P (Name id))
    (HOther : forall n ch, P (OtherNode n ch))
    (e : expr) : P e :=
  match e with
  | Compare l ops cs => HCompare l ops cs
  | BoolOp op vs =>
      HBoolOp op vs
        ((fix each (l : list expr) : Forall P l :=
            match l with
            | [] => List.Forall_nil P
            | v :: r =>
                List.Forall_cons P v r
                  (expr_induction P HCompare HBoolOp HConstant HName HOther v)
                  (each r)
            end) vs)
  | Constant v => HConstant v
  | Name id => HName id
  | OtherNode n ch => HOther n ch
  end.

Definition only_ValueError {A} (r : res A) : Prop :=
  match r with
  | Ok _ => True
  | Raise e => exists msg, e = ValueError msg
  end.

End DecisionLearner.

(** ** MD5 (RFC 1321), as [hashlib.md5(data).hexdigest()] computes it *)

Module MD5.

Definition mask32 (x : Z) : Z := Z.land x 0xffffffff.

Definition add32 (x y : Z) : Z := mask32 (x + y).

Definition not32 (x : Z) : Z := Z.lxor x 0xffffffff.

Definition rotl32 (x : Z) (n : Z) : Z :=
  mask32 (Z.lor (Z.shiftl x n) (Z.shiftr x (32 - n))).

(** The per-round shift amounts. *)
Definition shifts : list Z :=
  [ 7; 12; 17; 22; 7; 12; 17; 22; 7; 12; 17; 22; 7; 12; 17; 22;
    5; 9; 14; 20; 5; 9; 14; 20; 5; 9; 14; 20; 5; 9; 14; 20;
    4; 11; 16; 23; 4; 11; 16; 23; 4; 11; 16; 23; 4; 11; 16; 23;
    6; 10; 15; 21; 6; 10; 15; 21; 6; 10; 15; 21; 6; 10; 15; 21 ].

(** [floor(2^32 * abs(sin(i + 1)))] for i = 0..63. *)
Definition sines : list Z :=
  [
    0xd76aa478; 0xe8c7b756; 0x242070db; 0xc1bdceee;
    0xf57c0faf; 0x4787c62a; 0xa8304613; 0xfd469501;
    0x698098d8; 0x8b44f7af; 0xffff5bb1; 0x895cd7be;
    0x6b901122; 0xfd987193; 0xa679438e; 0x49b40821;
    0xf61e2562; 0xc040b340; 0x265e5a51; 0xe9b6c7aa;
    0xd62f105d; 0x02441453; 0xd8a1e681; 0xe7d3fbc8;
    0x21e1cde6; 0xc33707d6; 0xf4d50d87; 0x455a14ed;
    0xa9e3e905; 0xfcefa3f8; 0x676f02d9; 0x8d2a4c8a;
    0xfffa3942; 0x8771f681; 0x6d9d6122; 0xfde5380c;
    0xa4beea44; 0x4bdecfa9; 0xf6bb4b60; 0xbebfbc70;
    0x289b7ec6; 0xeaa127fa; 0xd4ef3085; 0x04881d05;
    0xd9d4d039; 0xe6db99e5; 0x1fa27cf8; 0xc4ac5665;
    0xf4292244; 0x432aff97; 0xab9423a7; 0xfc93a039;
    0x655b59c3; 0x8f0ccc92; 0xffeff47d; 0x85845dd1;
    0x6fa87e4f; 0xfe2ce6e0; 0xa3014314; 0x4e0811a1;
    0xf7537e82; 0xbd3af235; 0x2ad7d2bb; 0xeb86d391 ].

Definition bytes_of (s : string) : list Z :=
  (fun c => Z.of_nat (nat_of_ascii c)) <$> list_ascii_of_string s.

(** [n] as [k] little-endian bytes. *)
Fixpoint le_bytes (k : nat) (n : Z) : list Z :=
  match k with
  | O => []
  | S k' => Z.land n 0xff :: le_bytes k' (Z.shiftr n 8)
  end.

Fixpoint le_word (bs : list Z) : Z :=
  match bs with
  | [] => 0
  | b :: r => b + 256 * le_word r
  end.

(** The message, a one bit, zero bits up to 56 modulo 64 bytes, and the
    bit length in 64 bits. *)
Definition pad (msg : list Z) : list Z :=
  let len := Z.of_nat (List.length msg) in
  let zeros := Z.to_nat ((55 - len) `mod` 64) in
  (msg ++ [0x80] ++ List.repeat 0 zeros
       ++ le_bytes 8 (Z.land (len * 8) 0xffffffffffffffff))%list.

(** The sixteen words of a 64-byte block. *)
Fixpoint words (n : nat) (block : list Z) : list Z :=
  match n with
  | O => []
  | S n' => le_word (List.firstn 4 block) :: words n' (List.skipn 4 block)
  end.

Definition nthZ (l : list Z) (i : Z) : Z := List.nth (Z.to_nat i) l 0.

Definition step (m : list Z) (st : Z * Z * Z * Z) (i : Z) : Z * Z * Z * Z :=
  let '(a, b, c, d) := st in
  let '(f, g) :=
    if i <? 16 then (Z.lor (Z.land b c) (Z.land (not32 b) d), i)
    else if i <? 32 then
      (Z.lor (Z.land d b) (Z.land (not32 d) c), (5 * i + 1) `mod` 16)
    else if i <? 48 then (Z.lxor b (Z.lxor c d), (3 * i + 5) `mod` 16)
    else (Z.lxor c (Z.lor b (not32 d)), (7 * i) `mod` 16) in
  let f := add32 (add32 (add32 f a) (nthZ sines i)) (nthZ m g) in
  (d, add32 b (rotl32 f (nthZ shifts i)), b, c).

Definition rounds : list Z := Z.of_nat <$> List.seq 0 64.

Definition process_block (st : Z * Z * Z * Z) (block : list Z) : Z * Z * Z * Z :=
  let m := words 16 block in
  let '(a, b, c, d) := st in
  let '(a', b', c', d') := List.fold_left (step m) rounds st in
  (add32 a a', add32 b b', add32 c c', add32 d d').

Fixpoint process (n : nat) (st : Z * Z * Z * Z) (data : list Z) : Z * Z * Z * Z :=
  match n with
  | O => st
  | S n' => process n' (process_block st (List.firstn 64 data)) (List.skipn 64 data)
  end.

Definition digest (msg : list Z) : list Z :=
  let data := pad msg in
  let '(a, b, c, d) :=
    process (Nat.div (List.length data) 64)
            (0x67452301, 0xefcdab89, 0x98badcfe, 0x10325476) data in
  (le_bytes 4 a ++ le_bytes 4 b ++ le_bytes 4 c ++ le_bytes 4 d)%list.

Definition hex_digit (n : Z) : ascii :=
  ascii_of_nat (Z.to_nat (if n <? 10 then 48 + n else 87 + n)).

Fixpoint hex (bs : list Z) : string :=
  match bs with
  | [] => EmptyString
  | b :: r => String (hex_digit (b / 16)) (String (hex_digit (b `mod` 16)) (hex r))
  end.

(** [hashlib.md5(s.encode('utf-8')).hexdigest()] *)
Definition hexdigest (s : string) : string := hex (digest (bytes_of s)).

End MD5.

(** ** Debate cache ([services/debate_cache.py])

    The cache directory maps a file name to the file's modification time
    and its JSON content.  Times are integers in one unit (microseconds);
    [now] is the clock at the call, and a file written at [now] has that
    modification time.  A response is a value of any type [R]. *)

Module DebateCache.

(** What a cache file holds once [json.load] has read it: an object, of
    which [file_hash] and [response] are read with [.get], or something
    that makes the [try] block fail. *)
Inductive CacheData (R : Type) : Type :=
| CacheObject (cached_at : Z) (file_hash : option string) (response : option R)
| CacheCorrupt.
Arguments CacheObject {R} cached_at file_hash response.
Arguments CacheCorrupt {R}.

Record CacheFile (R : Type) : Type := {
  st_mtime : Z;
  data : CacheData R
}.
Arguments st_mtime {R} c.
Arguments data {R} c.

Record Cache (R : Type) : Type := {
  cache_dir : gmap string (CacheFile R);
  ttl : Z
}.
Arguments cache_dir {R} c.
Arguments ttl {R} c.

Definition with_dir {R} (c : Cache R) (d : gmap string (CacheFile R)) : Cache R :=
  {| cache_dir := d; ttl := ttl c |}.

(** Truth value of an optional string: [None] and "" are false. *)
Definition hash_given (file_hash : option string) : bool :=
  match file_hash with
  | Some h => negb (String.eqb h "")
  | None => false
  end.

Definition _generate_cache_key (prompt : string) (file_hash : option string)
    : string :=
  let key_input :=
    if hash_given file_hash then prompt ++ "|" ++ default "" file_hash
    else prompt in
  String.substring 0 16 (MD5.hexdigest key_input).

Definition cache_file_name (prompt : string) (file_hash : option string) : string :=
  _generate_cache_key prompt file_hash ++ ".json".

(** [get]: the cache afterwards and the response, [None] for a miss. *)
Definition get {R} (now : Z) (c : Cache R) (prompt : string)
    (file_hash : option string) : Cache R * option R :=
  let cache_file := cache_file_name prompt file_hash in
  match cache_dir c !! cache_file with
  | None => (c, None)
  | Some f =>
      if now - st_mtime f >? ttl c then
        (with_dir c (delete cache_file (cache_dir c)), None)
      else
        match data f with
        | CacheObject _ stored response =>
            if hash_given file_hash && negb (bool_decide (stored = file_hash))
            then (with_dir c (delete cache_file (cache_dir c)), None)
            else (c, response)
        | CacheCorrupt =>
            (with_dir c (delete cache_file (cache_dir c)), None)
        end
  end.

(** [set]; [io_ok] tells whether the file could be written. *)
Definition set {R} (now : Z) (io_ok : bool) (c : Cache R) (prompt : string)
    (response : R) (file_hash : option string) : Cache R * bool :=
  let cache_file := cache_file_name prompt file_hash in
  if io_ok then
    (with_dir c (<[cache_file :=
                     {| st_mtime := now;
                        data := CacheObject now file_hash (Some response) |}]>
                   (cache_dir c)), true)
  else (c, false).

(** [DebateCache(cache_dir, ttl_minutes)] on an empty directory. *)
Definition empty_cache (R : Type) (ttl_minutes : Z) : Cache R :=
  {| cache_dir := ∅; ttl := ttl_minutes * 60 * 1000000 |}.

End DebateCache.

(** ** [difflib.SequenceMatcher(None, a, b).ratio()] over lists of lines

    The matcher of Python's standard library with no junk predicate and
    the automatic junk heuristic on, as the plan reviser calls it. *)

Module Difflib.

(** [b2j]: for each line of [b] the ascending list of its positions. *)
Fixpoint chain_b (b : list string) (i : nat) (b2j : gmap string (list nat))
    : gmap string (list nat) :=
  match b with
  | [] => b2j
  | elt :: r =>
      chain_b r (S i) (<[elt := (default [] (b2j !! elt) ++ [i])%list]> b2j)
  end.

(** With 200 lines or more, a line that occurs more than [n // 100 + 1]
    times is "popular" and dropped from [b2j]. *)
Definition purge_popular (n : nat) (b2j : gmap string (list nat))
    : gmap string (list nat) :=
  if Nat.leb 200 n then
    let ntest := (Nat.div n 100 + 1)%nat in
    filter (fun kv => negb (Nat.ltb ntest (List.length (snd kv)))) b2j
  else b2j.

Definition make_b2j (b : list string) : gmap string (list nat) :=
  purge_popular (List.length b) (chain_b b 0 ∅).

Definition line_at (l : list string) (i : nat) : string := List.nth i l "".

Record Match : Type := { m_a : nat; m_b : nat; m_size : nat }.

(** The inner loop of [find_longest_match] over the positions [j] of
    [a[i]] in [b]: skip those before [blo], stop at the first one from
    [bhi] on. *)
Fixpoint scan_js (i blo bhi : nat) (j2len : gmap nat nat) (js : list nat)
    (newj2len : gmap nat nat) (best : Match) : gmap nat nat * Match :=
  match js with
  | [] => (newj2len, best)
  | j :: r =>
      if Nat.ltb j blo then scan_js i blo bhi j2len r newj2len best
      else if Nat.leb bhi j then (newj2len, best)
      else
        let prev := match j with
                    | O => O
                    | S j' => default O (j2len !! j')
                    end in
        let k := S prev in
        let best' := if Nat.ltb (m_size best) k
                     then {| m_a := i + 1 - k; m_b := j + 1 - k; m_size := k |}
                     else best in
        scan_js i blo bhi j2len r (<[j := k]> newj2len) best'
  end.

(** The loop over [i] in [range(alo, ahi)]. *)
Fixpoint scan_is (a : list string) (b2j : gmap string (list nat))
    (blo bhi : nat) (is_ : list nat) (j2len : gmap nat nat) (best : Match)
    : Match :=
  match is_ with
  | [] => best
  | i :: r =>
      let '(newj2len, best') :=
        scan_js i blo bhi j2len (default [] (b2j !! line_at a i)) ∅ best in
      scan_is a b2j blo bhi r newj2len best'
  end.

(** The first [while] loop: extend the block to the left while the lines
    before it agree. *)
Fixpoint extend_left (a b : list string) (alo blo : nat) (fuel : nat)
    (best : Match) : Match :=
  match fuel with
  | O => best
  | S fuel' =>
      if Nat.ltb alo (m_a best) && Nat.ltb blo (m_b best)
         && String.eqb (line_at a (m_a best - 1)) (line_at b (m_b best - 1))
      then extend_left a b alo blo fuel'
             {| m_a := m_a best - 1; m_b := m_b best - 1;
                m_size := S (m_size best) |}
      else best
  end.

(** The second [while] loop: extend the block to the right. *)
Fixpoint extend_right (a b : list string) (ahi bhi : nat) (fuel : nat)
    (best : Match) : Match :=
  match fuel with
  | O => best
  | S fuel' =>
      if Nat.ltb (m_a best + m_size best) ahi
         && Nat.ltb (m_b best + m_size best) bhi
         && String.eqb (line_at a (m_a best + m_size best))
                       (line_at b (m_b best + m_size best))
      then extend_right a b ahi bhi fuel'
             {| m_a := m_a best; m_b := m_b best; m_size := S (m_size best) |}
      else best
  end.

(** [find_longest_match(alo, ahi, blo, bhi)].  There is no junk, so the
    two junk-absorbing loops at the end of the source do nothing. *)
Definition find_longest_match (a b : list string) (b2j : gmap string (list nat))
    (alo ahi blo bhi : nat) : Match :=
  let best := scan_is a b2j blo bhi (List.seq alo (ahi - alo)) ∅
                {| m_a := alo; m_b := blo; m_size := 0 |} in
  let best := extend_left a b alo blo (m_a best) best in
  extend_right a b ahi bhi ahi best.

(** The sum of the sizes of [get_matching_blocks()]: the longest block of
    a range, then the ranges to its left and to its right.  Each level
    takes at least one line of [a] out of the range, so [length a + 1]
    levels are enough. *)
Fixpoint matches_in (fuel : nat) (a b : list string) (b2j : gmap string (list nat))
    (alo ahi blo bhi : nat) : nat :=
  match fuel with
  | O => O
  | S fuel' =>
      let x := find_longest_match a b b2j alo ahi blo bhi in
      let '(i, j, k) := (m_a x, m_b x, m_size x) in
      if Nat.eqb k 0 then O
      else
        (k
         + (if Nat.ltb alo i && Nat.ltb blo j
            then matches_in fuel' a b b2j alo i blo j else O)
         + (if Nat.ltb (i + k) ahi && Nat.ltb (j + k) bhi
            then matches_in fuel' a b b2j (i + k) ahi (j + k) bhi else O))%nat
  end.

Definition matches (a b : list string) : nat :=
  matches_in (S (List.length a)) a b (make_b2j b)
             0 (List.length a) 0 (List.length b).

Definition float_of_nat (n : nat) : float :=
  PrimFloat.of_uint63 (Uint63.of_Z (Z.of_nat n)).

(** [_calculate_ratio(matches, length)] *)
Definition _calculate_ratio (matches length : nat) : float :=
  if Nat.eqb length 0 then 1.0%float
  else PrimFloat.div (PrimFloat.mul 2.0%float (float_of_nat matches))
                     (float_of_nat length).

Definition ratio (a b : list string) : float :=
  _calculate_ratio (matches a b) (List.length a + List.length b).

(** A block lies in the range of [a] it was searched in. *)
Definition in_rows (alo ahi : nat) (x : Match) : Prop :=
  (alo <= m_a x /\ m_a x + m_size x <= ahi)%nat.

Definition bounded (m : gmap nat nat) (n : nat) : Prop :=
  forall j v, m !! j = Some v -> (v <= n)%nat.

End Difflib.

(** ** Plan reviser ([services/plan_reviser.py]) *)

Module PlanReviser.

(** Line boundaries of [str.splitlines()] within ASCII. *)
Definition is_linebreak (c : ascii) : bool :=
  let n := nat_of_ascii c in
  (Nat.leb 10 n && Nat.leb n 13) || (Nat.leb 28 n && Nat.leb n 30).

(** [s.splitlines()]: a carriage return followed by a line feed is one
    boundary, and a final boundary opens no further line. *)
Fixpoint splitlines_from (s cur : string) : list string :=
  match s with
  | EmptyString => if String.eqb cur "" then [] else [cur]
  | String c r =>
      if is_linebreak c then
        match c, r with
        | "013"%char, String "010"%char r' => cur :: splitlines_from r' ""
        | _, _ => cur :: splitlines_from r ""
        end
      else splitlines_from r (cur ++ String c "")
  end.

Definition splitlines (s : string) : list string := splitlines_from s "".

(** A message with a number formatted by [:.1f] in it. *)
Inductive message : Type :=
| Text (s : string)
| WithPercent (before : string) (pct : float) (after : string).

Definition _calculate_change_percentage (original revised : string) : float :=
  let original_lines := splitlines original in
  let revised_lines := splitlines revised in
  let similarity_ratio := Difflib.ratio original_lines revised_lines in
  PrimFloat.mul (PrimFloat.sub 1.0%float similarity_ratio) 100.0%float.

Definition _validate_revision (original revised : string) : bool * message :=
  if String.eqb revised "" || (PyStr.len revised <? 100) then
    (false, Text "Revision too short or empty")
  else if String.eqb revised original then
    (false, Text "No changes made by reviser")
  else
    let change_pct := _calculate_change_percentage original revised in
    if PrimFloat.ltb change_pct 1.0%float then
      (false, WithPercent "Changes too minimal (" change_pct "%)")
    else if PrimFloat.ltb 50.0%float change_pct then
      (false, WithPercent "Plan appears to be rewritten (" change_pct
                          "% changed), not revised")
    else (true, Text "").

(** A scored issue, with the keys the reviser's control flow reads. *)
Record Issue : Type := {
  priority_score : option Z;
  title : string
}.

Definition issue_score (i : Issue) : Z := default 0 (priority_score i).

Definition score_ge (x y : Issue) : Prop := issue_score y <= issue_score x.

#[global] Instance score_ge_dec x y : Decision (score_ge x y).
Proof. unfold score_ge. apply _. Defined.

(** The issues scoring 65 or more, by descending score, at most five. *)
Definition _prioritize_issues (scored_issues : list Issue) : list Issue :=
  List.firstn 5
    (merge_sort score_ge
       (List.filter (fun i => issue_score i >=? 65) scored_issues)).

(** What the LLM adapter returned for the revision prompt. *)
Record CodexResult : Type := {
  codex_success : bool;
  codex_response : string;
  codex_error : option string
}.

Record RevisionResult : Type := {
  success : bool;
  revised_content : string;
  issues_addressed : list Issue;
  error : option (string * message)
}.

(** [revise_plan], given the plan file's content ([None] when the file
    does not exist), the scored issues of the debate and the adapter's
    answer to the revision prompt.  [error] is the text before the
    validation message and that message.  The revision summary, which
    nothing depends on, is left out. *)
Definition revise_plan (plan_file : option string) (scored_issues : list Issue)
    (codex_result : CodexResult) : RevisionResult :=
  match plan_file with
  | None =>
      {| success := false; revised_content := ""; issues_addressed := [];
         error := Some ("Plan file not found", Text "") |}
  | Some original_content =>
      let prioritized_issues := _prioritize_issues scored_issues in
      match prioritized_issues with
      | [] =>
          {| success := false; revised_content := original_content;
             issues_addressed := [];
             error := Some ("No issues to address", Text "") |}
      | _ =>
          if negb (codex_success codex_result) then
            {| success := false; revised_content := original_content;
               issues_addressed := prioritized_issues;
               error := Some ("Codex invocation failed: "
                              ++ default "Unknown error" (codex_error codex_result),
                              Text "") |}
          else
            let revised_content := PyStr.strip (codex_response codex_result) in
            let '(is_valid, validation_error) :=
              _validate_revision original_content revised_content in
            if negb is_valid then
              {| success := false; revised_content := original_content;
                 issues_addressed := prioritized_issues;
                 error := Some ("Revision validation failed: ", validation_error) |}
            else
              {| success := true; revised_content := revised_content;
                 issues_addressed := prioritized_issues; error := None |}
      end
  end.

End PlanReviser.

(** Test harness: two plans at the ends of the accepted range, and the
    exhaustive check of the float arithmetic for a given size. *)
Module ReviserRuns.
Import PlanReviser.

Definition newline : string := String "010"%char "".

(** "step 1", ..., "step n", one per line. *)
Definition numbered_plan (n : nat) : list string :=
  (fun k => "step " ++ PyStr.str_int (Z.of_nat k)) <$> List.seq 1 n.

(** A plan of 100 lines, and the same plan with its last line changed. *)
Definition plan_100 : string := String.concat newline (numbered_plan 100).

Definition plan_100_revised : string :=
  String.concat newline (numbered_plan 99 ++ ["step one hundred"])%list.

(** A plan of two lines of 60 characters, and the same plan with its
    second line changed. *)
Definition line_of (c : ascii) : string :=
  string_of_list_ascii (List.repeat c 60).

Definition plan_2 : string := line_of "A" ++ newline ++ line_of "B".

Definition plan_2_revised : string := line_of "A" ++ newline ++ line_of "C".

#[local] Set Warnings "-inexact-float".

(** The ratio for [m] matches out of [n] lines, the counts being given
    in binary. *)
Definition ratio_of (m n : Z) : float :=
  if n =? 0 then 1.0%float
  else PrimFloat.div (PrimFloat.mul 2.0%float (PrimFloat.of_uint63 (Uint63.of_Z m)))
                     (PrimFloat.of_uint63 (Uint63.of_Z n)).

Definition change_of (r : float) : float :=
  PrimFloat.mul (PrimFloat.sub 1.0%float r) 100.0%float.

(** The two tests of [_validate_revision] on the change percentage. *)
Definition in_range (c : float) : bool :=
  negb (PrimFloat.ltb c 1.0%float) && negb (PrimFloat.ltb 50.0%float c).

(** The bounds of the amended claim, in the comparisons of the floats:
    0.5 <= r <= 0.99 and 1 <= c <= 50. *)
Definition bounds (r : float) : bool :=
  PrimFloat.leb 0.5%float r && PrimFloat.leb r 0.99%float
  && PrimFloat.leb 1.0%float (change_of r)
  && PrimFloat.leb (change_of r) 50.0%float.

Definition pair_ok (m n : Z) : bool :=
  let r := ratio_of m n in
  implb (in_range (change_of r)) (bounds r).

(** [f z && f (z+1) && ...], [fuel] values from [z] on. *)
Fixpoint all_from (f : Z -> bool) (fuel : nat) (z : Z) : bool :=
  match fuel with
  | O => true
  | S k => f z && all_from f k (z + 1)
  end.

(** Every pair [0 <= m, n <= size] passes [pair_ok]. *)
Definition check_pairs (size : nat) : bool :=
  all_from (fun n => all_from (fun m => pair_ok m n) (S size) 0) (S size) 0.

(** The total number of lines the exhaustive check covers. *)
Definition checked_lines : nat := 3000.

End ReviserRuns.

(** ** Predicates on strings used by the properties *)

Module PyStrFacts.

(** Every character of [s] passes [p]. *)
Fixpoint all_chars (p : ascii -> bool) (s : string) : bool :=
  match s with
  | EmptyString => true
  | String c r => p c && all_chars p r
  end.

Definition not_space (c : ascii) : bool := negb (PyStr.is_space c).

(** The characters [str()] of an integer is made of. *)
Definition int_char (c : ascii) : bool := PyStr.is_digit c || Ascii.eqb c "-".

End PyStrFacts.

(** ** Session store: the state the protocol keeps *)

Module SessionInvariant.
Import Config FileProtocol.

(** A file name that [write_proposal] gave out while the counter went
    from 0 to [n]. *)
Definition proposal_file (n : Z) (name : string) : Prop :=
  exists round_num sequence,
    name = proposal_filename round_num sequence /\ 1 <= sequence <= n.

(** The session directory [session_dir] as [create_session_directory] and
    [write_proposal] leave it: the counter file holds [n], claude and
    codex have their directories, and the directories hold proposal files
    with sequence numbers up to [n] and nothing else. *)
Definition session_ok (fs : FS) (session_dir : string) (n : Z) : Prop :=
  exists d, fs !! session_dir = Some d /\
            seq_file d = Some (PyStr.str_int n) /\ 0 <= n /\
            (forall ai_name, valid_ai_name ai_name = true ->
                             is_Some (subdirs d !! ai_name)) /\
            forall ai_name files name,
              subdirs d !! ai_name = Some files -> is_Some (files !! name) ->
              proposal_file n name.

(** What [int(seq_file.read_text().strip())] with its [except] gives. *)
Definition current_sequence (d : SessionDir) : Z :=
  match seq_file d with
  | Some t => default 0 (PyStr.parse_int t)
  | None => 0
  end.

(** Names with the sequence numbers [z], [z+1], ... are in ascending
    order, [fuel] neighbours checked. *)
Definition names_ascend (fuel : nat) (z : Z) : bool :=
  ReviserRuns.all_from
    (fun s => String.leb (PyStr.format_03d s ++ ".md")
                         (PyStr.format_03d (s + 1) ++ ".md"))
    fuel z.

End SessionInvariant.

(** ** Priority scorer, lists of issues ([services/priority_scorer.py]) *)

Module ScoredIssues.
Import PriorityScorer FileProtocol.

(** An issue is a dict with JSON values. *)
Abbreviation Issue := (gmap string jval).

(** What [score_issues] raises: [issue[key]] on a missing key,
    [.lower()] on a value that is not a string, and what [score_issue]
    raises. *)
Inductive failure : Type :=
| IssueKeyError (key : string)
| IssueAttributeError (key : string)
| IssueRaise (e : exn).

(** The body of the loop of [score_issues]: the three subscripts are
    evaluated first, then [score_issue] lowers its arguments in order
    and validates them; the copy of the issue gets the two new keys. *)
Definition score_one (issue : Issue) : failure + Issue :=
  match issue !! "severity" with
  | None => inl (IssueKeyError "severity")
  | Some severity =>
  match issue !! "impact" with
  | None => inl (IssueKeyError "impact")
  | Some impact =>
  match issue !! "effort" with
  | None => inl (IssueKeyError "effort")
  | Some effort =>
  match severity with
  | JStr severity =>
    match impact with
    | JStr impact =>
      match effort with
      | JStr effort =>
          match score_issue severity impact effort with
          | Ok (score, label) =>
              inr (<["priority_label" := JStr label]>
                   (<["priority_score" := JInt score]> issue))
          | Raise e => inl (IssueRaise e)
          end
      | _ => inl (IssueAttributeError "effort")
      end
    | _ => inl (IssueAttributeError "impact")
    end
  | _ => inl (IssueAttributeError "severity")
  end end end end.

(** The loop: the first issue that fails ends it. *)
Fixpoint score_all (issues : list Issue) : failure + list Issue :=
  match issues with
  | [] => inr []
  | issue :: r =>
      match score_one issue with
      | inl e => inl e
      | inr scored_issue =>
          match score_all r with
          | inl e => inl e
          | inr scored_issues => inr (scored_issue :: scored_issues)
          end
      end
  end.

(** [x['priority_score']] of a scored issue; [issue.get('priority_score', 0)]
    of an issue whose score, if it has one, is an int. *)
Definition priority_of (x : Issue) : Z :=
  match x !! "priority_score" with
  | Some (JInt z) => z
  | _ => 0
  end.

(** [list.sort(key=..., reverse=True)]: descending and stable, so an
    element goes in front of the first one whose key is smaller. *)
Fixpoint insert_desc {T} (key : T -> Z) (x : T) (l : list T) : list T :=
  match l with
  | [] => [x]
  | y :: r => if key y <? key x then x :: y :: r else y :: insert_desc key x r
  end.

(** Descending order of the key. *)
Definition desc {T} (key : T -> Z) (a b : T) : Prop := key b <= key a.

Definition sort_desc {T} (key : T -> Z) (l : list T) : list T :=
  List.fold_left (fun sorted x => insert_desc key x sorted) l [].

Definition score_issues (issues : list Issue) : failure + list Issue :=
  match score_all issues with
  | inl e => inl e
  | inr scored_issues => inr (sort_desc priority_of scored_issues)
  end.

Record Grouped (T : Type) : Type := {
  stop_ship : list T;
  high : list T;
  medium : list T;
  low : list T
}.
Arguments stop_ship {T} g.
Arguments high {T} g.
Arguments medium {T} g.
Arguments low {T} g.

(** [get_issues_by_severity]; [score] is [issue.get('priority_score', 0)],
    an int.  Every issue is appended to the list of its band. *)
Definition get_issues_by_severity {T} (score : T -> Z) (issues : list T)
    : Grouped T :=
  List.fold_left
    (fun grouped issue =>
       if score issue >=? threshold "stop_ship" then
         {| stop_ship := stop_ship grouped ++ [issue]; high := high grouped;
            medium := medium grouped; low := low grouped |}
       else if score issue >=? threshold "high" then
         {| stop_ship := stop_ship grouped; high := high grouped ++ [issue];
            medium := medium grouped; low := low grouped |}
       else if score issue >=? threshold "medium" then
         {| stop_ship := stop_ship grouped; high := high grouped;
            medium := medium grouped ++ [issue]; low := low grouped |}
       else
         {| stop_ship := stop_ship grouped; high := high grouped;
            medium := medium grouped; low := low grouped ++ [issue] |})
    issues
    {| stop_ship := []; high := []; medium := []; low := [] |}.

(** A scored issue as the moderator reads it. *)
Definition pattern_issue (x : Issue) : FastModerator.PatternIssue :=
  {| FastModerator.priority_score :=
       match x !! "priority_score" with
       | Some (JInt z) => Some z
       | _ => None
       end |}.

End ScoredIssues.

(** ** Fast moderator: what an extracted sentence looks like *)

Module Sentences.
Import FastModerator.

(** No sentence-ending character. *)
Definition inner_char (c : ascii) : bool := negb (is_sentence_end c).

(** A sentence as [_split_sentences] returns it: not empty, stripped,
    without a sentence-ending character. *)
Definition sentence (s : string) : Prop :=
  s <> "" /\ PyStr.strip s = s /\ PyStrFacts.all_chars inner_char s = true.

End Sentences.

(** ** Smart recommender, severity adjustment ([services/smart_recommender.py]) *)

Module RecommendationSeverity.
Import SmartRecommender.

(** [s.replace(old, new)] for a non-empty [old]: the occurrences are
    taken from the left and do not overlap.  [skip] counts the
    characters of an occurrence still to be passed over. *)
Fixpoint replace_from (old new s : string) (skip : nat) : string :=
  match s with
  | EmptyString => EmptyString
  | String c r =>
      match skip with
      | S k => replace_from old new r k
      | O =>
          if PyStr.startswith old s
          then new ++ replace_from old new r (String.length old - 1)
          else String c (replace_from old new r 0)
      end
  end.

Definition replace (old new s : string) : string := replace_from old new s 0.

(** The message part: every level tag is taken out in turn, and the
    rest is stripped each time. *)
Definition message_of (original_recommendation : string) : string :=
  List.fold_left (fun message level => PyStr.strip (replace level "" message))
                 severity_levels original_recommendation.

Definition new_level (original_recommendation : string) (severity_change : Z) : Z :=
  Z.max 0 (Z.min (Z.of_nat (current_level original_recommendation) + severity_change)
                 (Z.of_nat (List.length severity_levels) - 1)).

Definition _adjust_recommendation_severity
    (original_recommendation : string) (severity_change : Z) : string :=
  PyStr.strip
    (List.nth (Z.to_nat (new_level original_recommendation severity_change))
              severity_levels ""
     ++ " " ++ message_of original_recommendation).

(** The recommendation [enhance_debate_result] stores: adjusted when the
    learned severity change is positive. *)
Definition enhanced_recommendation (recommendation : string) (severity_change : Z)
    : string :=
  if severity_change >? 0
  then _adjust_recommendation_severity recommendation severity_change
  else recommendation.

End RecommendationSeverity.

(** ** Debate cache, maintenance ([services/debate_cache.py]) *)

Module CacheMaintenance.
Import DebateCache.

(** [cache_dir.glob("*.json")]: the files of the directory whose name
    ends in [.json], with what [stat] and [json.load] give for them. *)
Definition glob_json {R} (dir : gmap string (CacheFile R))
    : list (string * CacheFile R) :=
  List.filter (fun entry => PyStr.endswith ".json" (fst entry)) (map_to_list dir).

(** [now - mtime > self.ttl] *)
Definition expired {R} (now : Z) (c : Cache R) (f : CacheFile R) : bool :=
  now - st_mtime f >? ttl c.

(** The loop of [clear_expired] and of [clear_all]: every listed file
    that [doomed] selects is unlinked and counted. *)
Definition unlink_each {R} (doomed : CacheFile R -> bool)
    (files : list (string * CacheFile R)) (dir : gmap string (CacheFile R))
    : gmap string (CacheFile R) * Z :=
  List.fold_left
    (fun '(dir, cleared) '(name, f) =>
       if doomed f then (delete name dir, cleared + 1) else (dir, cleared))
    files (dir, 0).

Definition clear_expired {R} (now : Z) (c : Cache R) : Cache R * Z :=
  let '(dir, cleared) :=
    unlink_each (expired now c) (glob_json (cache_dir c)) (cache_dir c) in
  (with_dir c dir, cleared).

Definition clear_all {R} (c : Cache R) : Cache R * Z :=
  let '(dir, cleared) :=
    unlink_each (fun _ => true) (glob_json (cache_dir c)) (cache_dir c) in
  (with_dir c dir, cleared).

(** The counters of [get_stats]; the directory name and the TTL, which
    it also reports, are left out. *)
Record Stats : Type := {
  total_entries : Z;
  valid_entries : Z;
  expired_entries : Z
}.

Definition get_stats {R} (now : Z) (c : Cache R) : Stats :=
  List.fold_left
    (fun stats '(_, f) =>
       if expired now c f then
         {| total_entries := total_entries stats + 1;
            valid_entries := valid_entries stats;
            expired_entries := expired_entries stats + 1 |}
       else
         {| total_entries := total_entries stats + 1;
            valid_entries := valid_entries stats + 1;
            expired_entries := expired_entries stats |})
    (glob_json (cache_dir c))
    {| total_entries := 0; valid_entries := 0; expired_entries := 0 |}.

(** A digit or one of the letters a to f. *)
Definition is_hex (c : ascii) : bool :=
  let n := nat_of_ascii c in
  (Nat.leb 48 n && Nat.leb n 57) || (Nat.leb 97 n && Nat.leb n 102).

End CacheMaintenance.

(** ** Iterative debate engine: what holds of every state of a run *)

Module EngineInvariant.
Import IterativeDebateEngine.

(** The iteration number and the score of a history entry. *)
Definition entry (d : IterData) : Z * Z := (it_iteration d, it_consensus_score d).

(** The state after some iteration of a run towards [target]: the
    history is not empty; the best consensus is the greatest score of
    the history, reached in the iteration recorded as the best, and the
    score of the stored best result; the current consensus is the last
    score of the history; every score before the last is below the
    target; and every iteration after the first was a revision. *)
Definition run_ok (target : Z) (s : LoopState) : Prop :=
  let e := engine s in
  let scores := it_consensus_score <$> iteration_history e in
  Forall (fun c => c <= best_consensus e) scores /\
  (best_iteration e, best_consensus e) ∈ (entry <$> iteration_history e) /\
  (exists b, best_result e = Some b /\ dr_consensus b = best_consensus e) /\
  last scores = Some (consensus s) /\
  Forall (fun c => c < target) (List.removelast scores) /\
  total_revisions s = Z.of_nat (List.length scores) - 1.

End EngineInvariant.

(** ** Decision learner, consensus ranges ([services/decision_learner.py]) *)

Module LearnedThresholds.
Import DecisionLearner.

(** [ranges] of [_learn_consensus_thresholds]. *)
Definition ranges : list (Z * Z * string) :=
  [ (0, 50, "very_low"); (50, 70, "low"); (70, 85, "medium"); (85, 100, "high") ].

(** The test of the list comprehension that groups the debates:
    [min_score <= d['consensus_score'] < max_score]. *)
Definition in_range (min_score max_score consensus_score : Z) : bool :=
  (min_score <=? consensus_score) && (consensus_score <? max_score).

(** The condition a rule gets, [f'{min_score} <= consensus < {max_score}'],
    as [ast.parse(..., mode='eval').body] reads it for bounds that are
    not negative. *)
Definition range_condition (min_score max_score : Z) : expr :=
  Compare (Constant (CInt min_score)) [LtE; Lt]
          [Name "consensus"; Constant (CInt max_score)].

(** The ranges a consensus score falls in. *)
Definition ranges_of (consensus_score : Z) : list (Z * Z * string) :=
  List.filter (fun '(min_score, max_score, _) =>
                 in_range min_score max_score consensus_score) ranges.

End LearnedThresholds.

(** ** Delta debate, change detection ([services/delta_debate.py]) *)

Module DeltaDebate.

(** [s.split('\n')]: the pieces between line feeds; the empty string
    gives one empty piece. *)
Fixpoint split_from (s cur : string) : list string :=
  match s with
  | EmptyString => [cur]
  | String c r =>
      if Ascii.eqb c "010" then cur :: split_from r ""
      else split_from r (cur ++ String c "")
  end.

Definition split_newline (s : string) : list string := split_from s "".

Record Section : Type := {
  start_line : Z;
  end_line : Z;
  content : string
}.

(** [curr_lines[i] != prev_lines[i]], or no such previous line. *)
Definition line_changed (prev_lines : list string) (line : string) : bool :=
  match prev_lines with
  | [] => true
  | previous :: _ => negb (String.eqb line previous)
  end.

(** The section the inner loop has collected when it ends at index [i]. *)
Definition close_section (collected : option (Z * list string)) (i : Z)
    : list Section :=
  match collected with
  | None => []
  | Some (start, changed_lines) =>
      [ {| start_line := start; end_line := i;
           content := String.concat (String "010" "") changed_lines |} ]
  end.

(** The two nested loops as one pass over the current lines from index
    [i] on, with the previous lines from the same index.  [collected]
    holds the start line and the lines of the section the inner loop is
    collecting, if it is running. *)
Fixpoint scan (prev_lines curr_lines : list string) (i : Z)
    (collected : option (Z * list string)) : list Section :=
  match curr_lines with
  | [] => close_section collected i
  | line :: rest =>
      if line_changed prev_lines line then
        scan (List.tl prev_lines) rest (i + 1)
             (Some match collected with
                   | None => (i + 1, [line])
                   | Some (start, changed_lines) =>
                       (start, (changed_lines ++ [line])%list)
                   end)
      else
        (close_section collected i
         ++ scan (List.tl prev_lines) rest (i + 1) None)%list
  end.

Definition _detect_changed_sections (previous_content current_content : string)
    : list Section :=
  scan (split_newline previous_content) (split_newline current_content) 0 None.

(** Line [j] (counted from 1) of the current lines is new or differs
    from the previous line in its place. *)
Definition changed_at (prev_lines curr_lines : list string) (j : Z) : bool :=
  match curr_lines !! Z.to_nat (j - 1) with
  | Some line => (1 <=? j) && line_changed (List.skipn (Z.to_nat (j - 1)) prev_lines) line
  | None => false
  end.

(** Some section spans line [j]. *)
Definition covered (sections : list Section) (j : Z) : Prop :=
  Exists (fun s => start_line s <= j <= end_line s) sections.

(** What [detect_changes] knows of the previous debate: its content
    hash and its content, with [.get]. *)
Record PreviousDebate : Type := {
  content_hash : option string;
  previous_content : option string
}.

Record ChangeInfo : Type := {
  has_changes : bool;
  changed_sections : list Section;
  previous_content_hash : option string;
  current_content_hash : string;
  previous_debate : option PreviousDebate
}.

Definition _hash_content (content : string) : string :=
  String.substring 0 16 (MD5.hexdigest content).

(** [detect_changes], given the content of the file and the previous
    debate that was found, if any.  The change summary is left out. *)
Definition detect_changes (current_content : string)
    (previous_debate : option PreviousDebate) : ChangeInfo :=
  let current_hash := _hash_content current_content in
  match previous_debate with
  | None =>
      {| has_changes := true; changed_sections := [];
         previous_content_hash := None; current_content_hash := current_hash;
         previous_debate := None |}
  | Some previous =>
      let previous_hash := content_hash previous in
      if bool_decide (Some current_hash = previous_hash) then
        {| has_changes := false; changed_sections := [];
           previous_content_hash := previous_hash;
           current_content_hash := current_hash;
           previous_debate := Some previous |}
      else
        {| has_changes := true;
           changed_sections :=
             _detect_changed_sections (default "" (previous_content previous))
                                      current_content;
           previous_content_hash := previous_hash;
           current_content_hash := current_hash;
           previous_debate := Some previous |}
  end.

(** [sum(section['end_line'] - section['start_line'] + 1 ...)] *)
Definition total_lines_changed (sections : list Section) : Z :=
  List.fold_right (fun s total => end_line s - start_line s + 1 + total) 0 sections.

Definition float_of_Z (z : Z) : float := PrimFloat.of_uint63 (Uint63.of_Z z).

(** [should_use_delta_mode], for line counts below 2^53. *)
Definition should_use_delta_mode (change_info : ChangeInfo) : bool :=
  if negb (has_changes change_info) then false
  else
    match previous_debate change_info with
    | None => false
    | Some previous =>
        match changed_sections change_info with
        | [] => true
        | sections =>
            let previous_lines :=
              Z.of_nat (List.length
                          (split_newline (default "" (previous_content previous)))) in
            if previous_lines =? 0 then false
            else
              let change_percentage :=
                PrimFloat.mul
                  (PrimFloat.div (float_of_Z (total_lines_changed sections))
                                 (float_of_Z previous_lines))
                  100.0%float in
              PrimFloat.ltb change_percentage 30.0%float
        end
    end.

End DeltaDebate.

(** * Properties *)

Module PriorityScorerProps.
Import PriorityScorer.

Lemma table_get_severity k v :
  PyStr.table_get SEVERITY_SCORES k = Some v -> v = 40 \/ v = 30 \/ v = 20 \/ v = 10.
Proof.
  unfold SEVERITY_SCORES; simpl.
  repeat (destruct (String.eqb k _); [intros [= <-]; tauto|]).
  discriminate.
Qed.

Lemma table_get_impact k v :
  PyStr.table_get IMPACT_SCORES k = Some v -> v = 40 \/ v = 25 \/ v = 10.
Proof.
  unfold IMPACT_SCORES; simpl.
  repeat (destruct (String.eqb k _); [intros [= <-]; tauto|]).
  discriminate.
Qed.

Lemma table_get_effort k v :
  PyStr.table_get EFFORT_PENALTY k = Some v -> v = 0 \/ v = -10 \/ v = -20.
Proof.
  unfold EFFORT_PENALTY; simpl.
  repeat (destruct (String.eqb k _); [intros [= <-]; tauto|]).
  discriminate.
Qed.



End PriorityScorerProps.

Module ComplexityProps.
Import Complexity.

Lemma count_in_nonneg kws s : 0 <= PyStr.count_in kws s.
Proof. unfold PyStr.count_in. lia. Qed.

Lemma any_in_count_in kws s :
  PyStr.any_in kws s = (PyStr.count_in kws s >? 0).
Proof.
  unfold PyStr.any_in, PyStr.count_in.
  induction kws as [|kw kws IH]; simpl; [reflexivity|].
  destruct (PyStr.contains kw s); simpl.
  - symmetry. apply Z.gtb_lt. lia.
  - exact IH.
Qed.



(** The first two end-to-end scenarios of the specification. *)
Example scenario_fix_typo :
  let r := check_debate_required SessionRuns.demo_config "Fix typo in README"
             (Some ["README.md"]) in
  required r = false /\ complexity_score r = 0.
Proof. vm_compute. split; reflexivity. Qed.

Example scenario_refactor_authentication :
  let r := check_debate_required SessionRuns.demo_config
             "Refactor authentication to use OAuth2 with multiple providers"
             (Some ["auth/views.py"; "auth/models.py"; "auth/oauth.py"; "settings.py"]) in
  required r = true /\ complexity_score r = 56.
Proof. vm_compute. split; reflexivity. Qed.

End ComplexityProps.

Module FileProtocolProps.
Import Config FileProtocol SessionRuns.

(** C10: a participant label other than claude and codex makes
    [write_proposal] return a failure with sequence 0 and leave the file
    system, and with it the sequence counter, as it was: the next
    [get_next_sequence] returns what it would have returned anyway. *)
Theorem write_proposal_invalid_participant
    (fs : FS) (session_dir ai_name : string) (round_num : Z) (content : string) :
  ai_name <> "claude" -> ai_name <> "codex" ->
  let '(fs', w) := write_proposal fs session_dir ai_name round_num content in
  w_success w = false /\ w_sequence w = 0 /\ is_Some (w_error w) /\
  fs' = fs /\
  get_next_sequence fs' session_dir = get_next_sequence fs session_dir.
Proof.
  intros Hc Hx. unfold write_proposal, valid_ai_name.
  destruct (String.eqb_spec ai_name "claude") as [?|_]; [contradiction|].
  destruct (String.eqb_spec ai_name "codex") as [?|_]; [contradiction|].
  simpl. repeat split; eauto.
Qed.

(** [write_proposal_invalid_participant] for the label "gemini" in a fresh
    session. *)
Lemma write_proposal_invalid_participant_witness :
  let '(fs', w) := write_proposal fresh_session demo_dir "gemini" 1 "text" in
  w_success w = false /\ w_sequence w = 0 /\ is_Some (w_error w) /\
  fs' = fresh_session /\
  get_next_sequence fs' demo_dir = get_next_sequence fresh_session demo_dir.
Proof.
  apply (write_proposal_invalid_participant fresh_session demo_dir "gemini" 1 "text");
    discriminate.
Defined.

(** C4 at a failing input: after 1000 successful writes for (claude, 1)
    in a fresh session, the last of which stored "B" under sequence 1000,
    [read_proposal] returns "A", the content stored under sequence 999. *)
Theorem read_proposal_after_1000_writes :
  let '(fs, ws) := write_all fresh_session demo_dir "claude" 1 thousand_contents in
  let r := read_proposal fs demo_dir "claude" 1 in
  forallb w_success ws = true /\
  (w_sequence <$> ws) !! 998%nat = Some 999 /\
  (w_sequence <$> ws) !! 999%nat = Some 1000 /\
  thousand_contents !! 999%nat = Some "B" /\
  r_success r = true /\
  r_content r = "A" /\
  r_file_path r = path_join (path_join demo_dir "claude") "round_1_seq_999.md".
Proof. vm_compute. repeat split; reflexivity. Qed.

(** The fifth end-to-end scenario of the specification: two writes for
    (claude, 1) get the sequence numbers 1 and 2, and the read returns the
    second content. *)
Example scenario_session_flow :
  let '(fs, ws) := write_all fresh_session demo_dir "claude" 1 ["A"; "B"] in
  w_sequence <$> ws = [1; 2] /\
  r_content (read_proposal fs demo_dir "claude" 1) = "B".
Proof. vm_compute. split; reflexivity. Qed.

End FileProtocolProps.

Module EnforcementGateProps.
Import Config FileProtocol EnforcementGate SessionRuns.

Lemma read_metadata_object fs session_dir metadata :
  read_metadata fs session_dir = inr (MetaObject metadata) ->
  exists d, fs !! session_dir = Some d /\
            metadata_file d = Some (MetaObject metadata).
Proof.
  unfold read_metadata.
  destruct (fs !! session_dir) as [d|] eqn:Hd; simpl; [|discriminate].
  destruct (metadata_file d) as [[m|v|]|] eqn:Hm; try discriminate.
  intros [= ->]. eauto.
Qed.

(** What a successful [mark_user_override] leaves behind: the metadata
    object of before with [user_override], [outcome] and [updated_at]
    set, and nothing else of the file system changed. *)
Lemma mark_user_override_success cfg now fs session_id session_dir fs' r :
  mark_user_override cfg now fs session_id session_dir = (fs', r) ->
  m_success r = true ->
  let dir := resolve_dir cfg session_id session_dir in
  exists d metadata,
    fs !! dir = Some d /\
    metadata_file d = Some (MetaObject metadata) /\
    fs' = <[dir := set_metadata_file
                     (MetaObject (<["updated_at" := JStr now]>
                                  (<["outcome" := JStr "user_override"]>
                                   (<["user_override" := JBool true]> metadata)))) d]> fs.
Proof.
  intros H Hs dir. unfold mark_user_override in H. fold dir in H.
  destruct (read_metadata fs dir) as [err|[metadata|v|]] eqn:Hr;
    try (injection H as <- <-; discriminate).
  apply read_metadata_object in Hr as (d & Hd & Hm).
  unfold write_metadata in H. rewrite Hd in H.
  injection H as <- <-. eauto.
Qed.

(** C3, as stated, fails: a session that is still IDLE (here: just
    created) stays blocked after a successful [mark_user_override]. *)
Lemma override_of_idle_session_still_blocked :
  let fs := fst (mark_user_override demo_config "2026-01-01T00:00:01"
                   fresh_session "S" None) in
  m_success (snd (mark_user_override demo_config "2026-01-01T00:00:01"
                    fresh_session "S" None)) = true /\
  can_execute (block_execution_until_consensus demo_config fs "S" None) = false.
Proof. vm_compute. split; reflexivity. Qed.

(** C3 (amended): after a successful [mark_user_override], the gate, which
    only reads the session, returns [can_execute = true] exactly when the
    debate system is disabled or the session's state is CONSENSUS or
    ESCALATION, whatever the consensus score; in every other state (IDLE,
    a round in progress) it returns [can_execute = false].  The override
    leaves the state itself as it was. *)
Theorem override_gate cfg now fs session_id session_dir fs' r :
  mark_user_override cfg now fs session_id session_dir = (fs', r) ->
  m_success r = true ->
  exists before after,
    read_metadata fs (resolve_dir cfg session_id session_dir)
      = inr (MetaObject before) /\
    read_metadata fs' (resolve_dir cfg session_id session_dir)
      = inr (MetaObject after) /\
    after !! "user_override" = Some (JBool true) /\
    after !! "state" = before !! "state" /\
    after !! "consensus_score" = before !! "consensus_score" /\
    let state := dict_get after "state" (JStr "IDLE") in
    can_execute (block_execution_until_consensus cfg fs' session_id session_dir)
    = negb (enabled cfg)
      || bool_decide (state = JStr "CONSENSUS")
      || bool_decide (state = JStr "ESCALATION").
Proof.
  intros H Hs.
  destruct (mark_user_override_success _ _ _ _ _ _ _ H Hs) as (d & metadata & Hd & Hm & ->).
  set (dir := resolve_dir cfg session_id session_dir) in *.
  set (after := <["updated_at" := JStr now]> _).
  exists metadata, after.
  assert (Hafter : read_metadata (<[dir := set_metadata_file (MetaObject after) d]> fs) dir
                   = inr (MetaObject after)).
  { unfold read_metadata. rewrite lookup_insert_eq. reflexivity. }
  assert (Hov : after !! "user_override" = Some (JBool true)).
  { subst after. rewrite lookup_insert_ne by discriminate.
    rewrite lookup_insert_ne by discriminate. apply lookup_insert_eq. }
  split; [unfold read_metadata; rewrite Hd; simpl; rewrite Hm; reflexivity|].
  split; [exact Hafter|]. split; [exact Hov|].
  split; [subst after; rewrite !lookup_insert_ne by discriminate; reflexivity|].
  split; [subst after; rewrite !lookup_insert_ne by discriminate; reflexivity|].
  intros state. unfold block_execution_until_consensus.
  destruct (enabled cfg); simpl; [|reflexivity].
  fold dir. rewrite lookup_insert_eq, Hafter.
  fold state. unfold dict_get at 2. rewrite Hov. simpl.
  destruct (decide (state = JStr "CONSENSUS")) as [Hc|Hc].
  - rewrite (bool_decide_eq_true_2 _ Hc). reflexivity.
  - rewrite (bool_decide_eq_false_2 _ Hc). simpl.
    destruct (bool_decide (state = JStr "ESCALATION")) eqn:He; simpl; [reflexivity|].
    apply bool_decide_eq_false in He.
    destruct (decide (state = JStr "ESCALATION")); [contradiction|reflexivity].
Qed.

(** [override_gate] for a session that has just been created. *)
Lemma override_gate_witness :
  exists before after,
    read_metadata fresh_session (resolve_dir demo_config "S" None)
      = inr (MetaObject before) /\
    read_metadata (fst (mark_user_override demo_config "t1" fresh_session "S" None))
                  (resolve_dir demo_config "S" None)
      = inr (MetaObject after) /\
    after !! "user_override" = Some (JBool true) /\
    after !! "state" = before !! "state" /\
    after !! "consensus_score" = before !! "consensus_score" /\
    let state := dict_get after "state" (JStr "IDLE") in
    can_execute (block_execution_until_consensus demo_config
                   (fst (mark_user_override demo_config "t1" fresh_session "S" None))
                   "S" None)
    = negb (enabled demo_config)
      || bool_decide (state = JStr "CONSENSUS")
      || bool_decide (state = JStr "ESCALATION").
Proof.
  apply (override_gate demo_config "t1" fresh_session "S" None
           (fst (mark_user_override demo_config "t1" fresh_session "S" None))
           (snd (mark_user_override demo_config "t1" fresh_session "S" None))).
  - destruct (mark_user_override demo_config "t1" fresh_session "S" None); reflexivity.
  - vm_compute. reflexivity.
Defined.

End EnforcementGateProps.

Module FastModeratorProps.
Import FastModerator.


(** Boundary: two scores of 100. *)
Example analyze_full_agreement :
  let r := analyze {| score := Some 100; response := None |}
                   {| score := Some 100; response := None |} None in
  consensus_score r = 100 /\ interpretation r = "Strong Agreement" /\
  recommendation r = "[PROCEED CONFIDENTLY] Strong consensus".
Proof. vm_compute. repeat split. Qed.

End FastModeratorProps.

Module IterativeDebateEngineProps.
Import IterativeDebateEngine EngineRuns.

Lemma update_best_not_better e result c it :
  c <= best_consensus e -> _update_best_result e result c it = (e, false).
Proof.
  intros H. unfold _update_best_result.
  destruct (Z.gtb_spec c (best_consensus e)); [lia|reflexivity].
Qed.

Lemma update_best_grows e result c it :
  best_consensus e <= best_consensus (fst (_update_best_result e result c it)).
Proof.
  unfold _update_best_result.
  destruct (Z.gtb_spec c (best_consensus e)); simpl; lia.
Qed.

(** A pass of the loop never lowers the best consensus. *)
Lemma loop_body_best cfg target max_it it ev s :
  best_of s <= best_of (fst (loop_body cfg target max_it it ev s)).
Proof.
  unfold loop_body, best_of.
  destruct (_check_stopping_criteria _ _ _ _) as [[] reason].
  { destruct (String.eqb reason ""); simpl; lia. }
  destruct ev as [err|err|use_delta result]; simpl; try lia.
  pose proof (update_best_grows (engine s) result (dr_consensus result) it) as Hg.
  destruct (_update_best_result _ _ _ _) as [e is_best]. simpl in Hg.
  destruct (_ >=? _); simpl; [exact Hg|].
  destruct (_ <? min_improvement_threshold cfg); simpl; exact Hg.
Qed.

(** A debate that does not beat the best leaves the three best-of
    attributes as they were. *)
Lemma loop_body_keeps_best cfg target max_it it use_delta result s :
  dr_consensus result <= best_of s ->
  same_best (engine (fst (loop_body cfg target max_it it
                            (Debated use_delta result) s)))
            (engine s).
Proof.
  intros H. unfold loop_body, best_of in *.
  destruct (_check_stopping_criteria _ _ _ _) as [[] reason].
  { destruct (String.eqb reason ""); simpl; repeat split. }
  rewrite (update_best_not_better _ _ _ _ H).
  destruct (_ >=? _); simpl; [repeat split|].
  destruct (_ <? min_improvement_threshold cfg); simpl; repeat split.
Qed.

Lemma loop_trace_ge cfg target max_it env iterations :
  forall s s', In s' (loop_trace cfg target max_it env iterations s) ->
               best_of s <= best_of s'.
Proof.
  induction iterations as [|i rest IH]; intros s s'; simpl; [tauto|].
  pose proof (loop_body_best cfg target max_it i (env i) s) as Hb.
  destruct (loop_body _ _ _ _ _ _) as [s1 go_on]. simpl in Hb.
  intros [<-|Hin]; [exact Hb|].
  destruct go_on; [|destruct Hin].
  apply IH in Hin. lia.
Qed.

Lemma loop_trace_sorted cfg target max_it env iterations :
  forall s, StronglySorted (fun a b => best_of a <= best_of b)
                           (loop_trace cfg target max_it env iterations s).
Proof.
  induction iterations as [|i rest IH]; intros s; simpl; [constructor|].
  destruct (loop_body _ _ _ _ _ _) as [s1 go_on].
  constructor.
  - destruct go_on; [apply IH|constructor].
  - destruct go_on; [|constructor].
    apply Forall_forall. intros x Hx. apply list_elem_of_In in Hx.
    eapply loop_trace_ge; eauto.
Qed.

Lemma run_trace_sorted cfg target_arg max_arg first env :
  StronglySorted (fun a b => best_of a <= best_of b)
                 (run_trace cfg target_arg max_arg first env).
Proof.
  unfold run_trace.
  destruct (_ >=? _).
  - repeat constructor.
  - constructor; [apply loop_trace_sorted|].
    apply Forall_forall. intros x Hx. apply list_elem_of_In in Hx.
    eapply loop_trace_ge; eauto.
Qed.

Lemma strongly_sorted_lookup {A} (R : A -> A -> Prop) (l : list A) :
  StronglySorted R l ->
  forall i j a b, (i < j)%nat -> l !! i = Some a -> l !! j = Some b -> R a b.
Proof.
  induction 1 as [|x l Hs IH Hall]; intros i j a b Hij Ha Hb.
  - rewrite lookup_nil in Ha. discriminate.
  - destruct j as [|j]; [lia|]. simpl in Hb.
    destruct i as [|i]; simpl in Ha.
    + injection Ha as <-. rewrite Forall_forall in Hall.
      apply Hall. eapply list_elem_of_lookup_2; eauto.
    + apply (IH i j a b); [lia|exact Ha|exact Hb].
Qed.

(** C8: along a run of [run_iterative_debate] the best consensus recorded
    after iteration [i] is at most the one recorded after any later
    iteration [j]; [_update_best_result] given a consensus that is lower
    than or equal to the current best changes nothing, and a pass of the
    loop whose debate scores no better leaves the stored best result,
    best consensus and best iteration as they were. *)
Theorem best_ever_monotone cfg target_arg max_arg first env
    (i j : nat) si sj e result c it target max_it use_delta s :
  (i < j)%nat ->
  run_trace cfg target_arg max_arg first env !! i = Some si ->
  run_trace cfg target_arg max_arg first env !! j = Some sj ->
  c <= best_consensus e ->
  dr_consensus result <= best_consensus (engine s) ->
  best_consensus (engine si) <= best_consensus (engine sj) /\
  _update_best_result e result c it = (e, false) /\
  same_best (engine (fst (loop_body cfg target max_it it
                            (Debated use_delta result) s)))
            (engine s).
Proof.
  intros Hij Hi Hj Hc Hr. split; [|split].
  - exact (strongly_sorted_lookup _ _
             (run_trace_sorted cfg target_arg max_arg first env)
             i j si sj Hij Hi Hj).
  - apply update_best_not_better, Hc.
  - apply loop_body_keeps_best, Hr.
Qed.

(** [best_ever_monotone] for the first two iterations of the harness run,
    which score 70 and 60. *)
Lemma best_ever_monotone_witness :
  let s1 := first_iteration demo_first in
  let s2 := fst (loop_body demo_engine_config 85 3 2 (demo_env 2) s1) in
  best_consensus (engine s1) <= best_consensus (engine s2) /\
  _update_best_result (engine s1) (debate_result s2) 60 2 = (engine s1, false) /\
  same_best (engine (fst (loop_body demo_engine_config 85 3 2
                            (Debated false (debate_result s2)) s1)))
            (engine s1).
Proof.
  intros s1 s2.
  apply (best_ever_monotone demo_engine_config (Some 85) (Some 3) demo_first
           demo_env 0 1 s1 s2 (engine s1) (debate_result s2) 60 2 85 3 false s1).
  - lia.
  - reflexivity.
  - reflexivity.
  - vm_compute. discriminate.
  - vm_compute. discriminate.
Defined.

(** The sixth end-to-end scenario of the specification: consensus 70 in
    iteration 1 and 88 in iteration 2, target 85, at most 3 iterations. *)
Example scenario_target_reached_in_second_iteration :
  let r := run_iterative_debate demo_engine_config (Some 85) (Some 3) demo_first
             (fun _ => Debated false {| dr_consensus := 88; dr_tag := 2 |}) in
  res_target_reached r = true /\ res_total_iterations r = 2 /\
  res_best_consensus r = 88 /\ res_warnings r = [].
Proof. vm_compute. repeat split; reflexivity. Qed.

End IterativeDebateEngineProps.

Module DecisionLearnerProps.
Import DecisionLearner.

Lemma get_value_only_ValueError node consensus :
  only_ValueError (_get_value node consensus).
Proof.
  destruct node as [l ops cs|op vs|v|id|n ch]; simpl; eauto.
  - destruct (int_instance v); simpl; eauto.
  - destruct (String.eqb id "consensus"); simpl; eauto.
Qed.

Lemma compare_chain_only_ValueError ops consensus :
  forall left_ comparators,
    only_ValueError (compare_chain left_ ops comparators consensus).
Proof.
  induction ops as [|op ops IH]; intros left_ [|c cs]; simpl; try exact I.
  destruct (SAFE_COMPARE_OPS op) as [f|]; simpl; eauto.
  pose proof (get_value_only_ValueError c consensus) as Hc.
  destruct (_get_value c consensus) as [right_|e]; simpl; [|exact Hc].
  destruct (negb (f left_ right_)); [exact I|apply IH].
Qed.

(** Whatever the tree, the evaluation of its nodes raises nothing but
    ValueError. *)
Lemma eval_node_only_ValueError consensus node :
  only_ValueError (_eval_node node consensus).
Proof.
  induction node as [l ops cs|op vs IH|v|id|n ch] using expr_induction;
    simpl; eauto.
  - pose proof (get_value_only_ValueError l consensus) as Hl.
    destruct (_get_value l consensus) as [left_|e]; simpl; [|exact Hl].
    apply compare_chain_only_ValueError.
  - set (each := fix each (vs : list expr) : res (list bool) :=
                   match vs with
                   | [] => Ok []
                   | v :: r =>
                       b ← _eval_node v consensus;
                       bs ← each r;
                       Ok (b :: bs)
                   end).
    assert (He : only_ValueError (each vs)).
    { induction IH as [|v vs Hv _ IHvs]; simpl; [exact I|].
      destruct (_eval_node v consensus) as [b|e]; simpl; [|exact Hv].
      destruct (each vs) as [bs|e]; simpl in *; [exact I|exact IHvs]. }
    destruct (each vs) as [bs|e]; simpl in *; [exact I|exact He].
Qed.

(** Once the parser has produced a tree, the evaluator returns a boolean:
    every exception of the evaluation is caught. *)
Lemma safe_evaluate_condition_total tree consensus :
  exists b, safe_evaluate_condition (Ok tree) consensus = Ok b.
Proof.
  unfold safe_evaluate_condition. simpl.
  pose proof (eval_node_only_ValueError consensus tree) as H.
  destruct (_eval_node tree consensus) as [b|e]; [eauto|].
  destruct H as [msg ->]. simpl. eauto.
Qed.

(** C5 at failing inputs.  The condition "consensus >= False" compares
    with the keyword constant [False], which is no integer literal, and
    yet evaluates to true for a consensus of 50.  The condition
    "consensus < 0 < evil() or consensus >= 0" contains a function call
    and evaluates to true as well: the first comparison of the chain is
    false, so the chain returns before it reaches the call.  A
    MemoryError of the parser, which a deeply nested condition provokes,
    is not caught and leaves the evaluator. *)
Theorem safe_evaluate_condition_outside_whitelist :
  whitelisted consensus_ge_False = false /\
  safe_evaluate_condition (Ok consensus_ge_False) 50 = Ok true /\
  whitelisted call_behind_false_comparison = false /\
  safe_evaluate_condition (Ok call_behind_false_comparison) 50 = Ok true /\
  safe_evaluate_condition (Raise MemoryError) 50 = Raise MemoryError.
Proof. repeat split. Qed.

End DecisionLearnerProps.

Module DebateCacheProps.
Import DebateCache.

(** C2, as stated, fails: with the default TTL of five minutes, a response
    is stored for a prompt under file hash "aaaa" and looked up one second
    later under file hash "bbbb".  The lookup is a miss, but the stored
    entry is still in the cache directory when [get] returns. *)
Lemma get_with_other_hash_keeps_entry :
  let c0 := empty_cache string 5 in
  let c1 := fst (set 0 true c0 "review the plan" "looks fine" (Some "aaaa")) in
  let '(c2, r) := get 1000000 c1 "review the plan" (Some "bbbb") in
  snd (set 0 true c0 "review the plan" "looks fine" (Some "aaaa")) = true /\
  r = None /\
  is_Some (cache_dir c2 !! cache_file_name "review the plan" (Some "aaaa")) /\
  c2 = c1.
Proof. vm_compute. repeat split. eauto. Qed.

(** C2 (amended): after a successful [set(p, response, h1)] at time [t0],
    [get(p, h2)] at time [t1] behaves as follows.  With [h1 = h2] it
    returns the stored response when [t1 - t0] is within the TTL and
    leaves the cache as it is; when the TTL has elapsed it misses and the
    entry is removed.  With [h1 <> h2] and different cache keys the
    stored entry stays in the cache directory.  With [h1 <> h2] and the
    same cache key the entry is removed, and the lookup misses, when the
    TTL has elapsed or [h2] is a non-empty hash; otherwise (an empty or
    absent [h2]) the stored response is returned. *)
Theorem get_after_set {R} (c : Cache R) (prompt : string) (response : R)
    (h1 h2 : option string) (t0 t1 : Z) :
  let c1 := fst (set t0 true c prompt response h1) in
  let f1 := cache_file_name prompt h1 in
  let f2 := cache_file_name prompt h2 in
  let stored := {| st_mtime := t0; data := CacheObject t0 h1 (Some response) |} in
  let c2 := fst (get t1 c1 prompt h2) in
  let r := snd (get t1 c1 prompt h2) in
  snd (set t0 true c prompt response h1) = true /\
  cache_dir c1 !! f1 = Some stored /\
  match decide (h1 = h2), decide (f1 = f2) with
  | left _, _ =>
      if t1 - t0 >? ttl c
      then r = None /\ cache_dir c2 !! f1 = None
      else r = Some response /\ c2 = c1
  | right _, left _ =>
      if (t1 - t0 >? ttl c) || hash_given h2
      then r = None /\ cache_dir c2 !! f1 = None
      else r = Some response /\ c2 = c1
  | right _, right _ =>
      cache_dir c2 !! f1 = Some stored
  end.
Proof.
  intros c1 f1 f2 stored c2 r.
  assert (H1 : cache_dir c1 !! f1 = Some stored).
  { subst c1 f1 stored. simpl. apply lookup_insert_eq. }
  split; [reflexivity|]. split; [exact H1|].
  assert (Hsame : f1 = f2 ->
            if (t1 - t0 >? ttl c) || (hash_given h2 && negb (bool_decide (h1 = h2)))
            then r = None /\ cache_dir c2 !! f1 = None
            else r = Some response /\ c2 = c1).
  { intros Hf. subst c2 r. unfold get. fold f2. rewrite <- Hf, H1. simpl.
    change (ttl c1) with (ttl c).
    destruct (t1 - t0 >? ttl c); simpl.
    - split; [reflexivity|]. apply lookup_delete_eq.
    - destruct (hash_given h2 && negb (bool_decide (h1 = h2))); simpl.
      + split; [reflexivity|]. apply lookup_delete_eq.
      + split; reflexivity. }
  destruct (decide (h1 = h2)) as [Hh|Hh].
  - assert (Hf : f1 = f2) by (subst f1 f2; rewrite Hh; reflexivity).
    specialize (Hsame Hf). rewrite (bool_decide_eq_true_2 _ Hh) in Hsame.
    simpl in Hsame. rewrite andb_false_r, orb_false_r in Hsame. exact Hsame.
  - destruct (decide (f1 = f2)) as [Hf|Hf].
    + specialize (Hsame Hf). rewrite (bool_decide_eq_false_2 _ Hh) in Hsame.
      simpl in Hsame. rewrite andb_true_r in Hsame. exact Hsame.
    + subst c2. unfold get. fold f2.
      destruct (cache_dir c1 !! f2) as [f|]; [|exact H1].
      destruct (t1 - st_mtime f >? ttl c1); simpl.
      { rewrite lookup_delete_ne by congruence. exact H1. }
      destruct (data f) as [at_ stored_hash resp|]; simpl.
      * destruct (hash_given h2 && negb (bool_decide (stored_hash = h2))); simpl;
          [rewrite lookup_delete_ne by congruence|]; exact H1.
      * rewrite lookup_delete_ne by congruence. exact H1.
Qed.

End DebateCacheProps.

Module DifflibProps.
Import Difflib.
#[local] Open Scope nat_scope.

Lemma scan_js_rows alo ahi i blo bhi j2len js :
  alo <= i -> i < ahi -> bounded j2len (i - alo) ->
  forall newj2len best,
    bounded newj2len (S (i - alo)) -> in_rows alo ahi best ->
    bounded (fst (scan_js i blo bhi j2len js newj2len best)) (S (i - alo)) /\
    in_rows alo ahi (snd (scan_js i blo bhi j2len js newj2len best)).
Proof.
  intros Hlo Hhi Hj. induction js as [|j r IH]; intros newj2len best Hn Hb;
    simpl; [tauto|].
  destruct (Nat.ltb j blo); [apply IH; assumption|].
  destruct (Nat.leb bhi j); [simpl; tauto|].
  set (prev := match j with O => O | S j' => default O (j2len !! j') end).
  assert (Hprev : prev <= i - alo).
  { subst prev. destruct j as [|j']; [lia|].
    destruct (j2len !! j') as [v|] eqn:Hv; simpl; [eapply Hj; eauto|lia]. }
  apply IH.
  - intros j0 v. rewrite lookup_insert.
    destruct (decide (j = j0)); [intros [= <-]; lia|apply Hn].
  - destruct (Nat.ltb (m_size best) (S prev)); [|exact Hb].
    unfold in_rows; simpl. lia.
Qed.

Lemma scan_is_rows a b2j alo ahi blo bhi len :
  forall i0 j2len best,
    alo <= i0 -> i0 + len <= ahi -> bounded j2len (i0 - alo) ->
    in_rows alo ahi best ->
    in_rows alo ahi (scan_is a b2j blo bhi (List.seq i0 len) j2len best).
Proof.
  induction len as [|len IH]; intros i0 j2len best Hlo Hhi Hj Hb; simpl;
    [exact Hb|].
  pose proof (scan_js_rows alo ahi i0 blo bhi j2len
                (default [] (b2j !! line_at a i0)) Hlo ltac:(lia) Hj ∅ best) as Hs.
  destruct (scan_js _ _ _ _ _ _ _) as [newj2len best']. simpl in Hs.
  destruct Hs as [Hn Hb']; [intros j v; rewrite lookup_empty; discriminate|exact Hb|].
  apply IH; [lia|lia| |exact Hb'].
  replace (S i0 - alo) with (S (i0 - alo)) by lia. exact Hn.
Qed.

Lemma extend_left_rows a b alo ahi blo fuel :
  forall best, in_rows alo ahi best ->
               in_rows alo ahi (extend_left a b alo blo fuel best).
Proof.
  induction fuel as [|fuel IH]; intros best Hb; simpl; [exact Hb|].
  destruct (Nat.ltb_spec alo (m_a best)); simpl; [|exact Hb].
  destruct (_ && _); [|exact Hb].
  apply IH. unfold in_rows in *; simpl. lia.
Qed.

Lemma extend_right_rows a b alo ahi bhi fuel :
  forall best, in_rows alo ahi best ->
               in_rows alo ahi (extend_right a b ahi bhi fuel best).
Proof.
  induction fuel as [|fuel IH]; intros best Hb; simpl; [exact Hb|].
  destruct (Nat.ltb_spec (m_a best + m_size best) ahi); simpl; [|exact Hb].
  destruct (_ && _); [|exact Hb].
  apply IH. unfold in_rows in *; simpl. lia.
Qed.

Lemma find_longest_match_rows a b b2j alo ahi blo bhi :
  alo <= ahi -> in_rows alo ahi (find_longest_match a b b2j alo ahi blo bhi).
Proof.
  intros H. unfold find_longest_match.
  apply extend_right_rows, extend_left_rows, scan_is_rows; try lia.
  - intros j v. rewrite lookup_empty. discriminate.
  - unfold in_rows; simpl. lia.
Qed.

(** The matching blocks of a range are disjoint parts of its rows. *)
Lemma matches_in_bound a b b2j fuel :
  forall alo ahi blo bhi,
    alo <= ahi -> matches_in fuel a b b2j alo ahi blo bhi <= ahi - alo.
Proof.
  induction fuel as [|fuel IH]; intros alo ahi blo bhi H; simpl; [lia|].
  pose proof (find_longest_match_rows a b b2j alo ahi blo bhi H) as [Hlo Hhi].
  set (x := find_longest_match a b b2j alo ahi blo bhi) in *.
  destruct (Nat.eqb (m_size x) 0); [lia|].
  set (go_left := Nat.ltb alo (m_a x) && Nat.ltb blo (m_b x)).
  set (go_right := Nat.ltb (m_a x + m_size x) ahi && Nat.ltb (m_b x + m_size x) bhi).
  assert (Hl : (if go_left
                then matches_in fuel a b b2j alo (m_a x) blo (m_b x) else 0)
               <= m_a x - alo).
  { destruct go_left; [apply IH; lia|lia]. }
  assert (Hr : (if go_right
                then matches_in fuel a b b2j (m_a x + m_size x) ahi
                       (m_b x + m_size x) bhi else 0)
               <= ahi - (m_a x + m_size x)).
  { destruct go_right; [apply IH; lia|lia]. }
  lia.
Qed.

(** The recursion never runs out of fuel: any two amounts above the
    number of rows of the range give the same sum. *)
Lemma matches_in_fuel a b b2j f1 :
  forall f2 alo ahi blo bhi,
    alo <= ahi -> ahi - alo < f1 -> ahi - alo < f2 ->
    matches_in f1 a b b2j alo ahi blo bhi = matches_in f2 a b b2j alo ahi blo bhi.
Proof.
  induction f1 as [|f1 IH]; intros f2 alo ahi blo bhi H H1 H2; [lia|].
  destruct f2 as [|f2]; [lia|]. simpl.
  pose proof (find_longest_match_rows a b b2j alo ahi blo bhi H) as [Hlo Hhi].
  set (x := find_longest_match a b b2j alo ahi blo bhi) in *.
  destruct (Nat.eqb_spec (m_size x) 0) as [|Hk]; [reflexivity|].
  set (go_left := Nat.ltb alo (m_a x) && Nat.ltb blo (m_b x)).
  set (go_right := Nat.ltb (m_a x + m_size x) ahi && Nat.ltb (m_b x + m_size x) bhi).
  assert (Hl : (if go_left
                then matches_in f1 a b b2j alo (m_a x) blo (m_b x) else 0)
               = (if go_left
                  then matches_in f2 a b b2j alo (m_a x) blo (m_b x) else 0)).
  { destruct go_left; [apply IH; lia|reflexivity]. }
  assert (Hr : (if go_right
                then matches_in f1 a b b2j (m_a x + m_size x) ahi
                       (m_b x + m_size x) bhi else 0)
               = (if go_right
                  then matches_in f2 a b b2j (m_a x + m_size x) ahi
                         (m_b x + m_size x) bhi else 0)).
  { destruct go_right; [apply IH; lia|reflexivity]. }
  rewrite Hl, Hr. reflexivity.
Qed.

Lemma matches_le_length a b : matches a b <= List.length a.
Proof.
  unfold matches.
  pose proof (matches_in_bound a b (make_b2j b) (S (List.length a))
                0 (List.length a) 0 (List.length b) ltac:(lia)).
  lia.
Qed.

End DifflibProps.

Module PlanReviserProps.
Import PlanReviser ReviserRuns.
#[local] Set Warnings "-inexact-float".

Lemma all_from_spec f fuel :
  forall z, all_from f fuel z = true ->
            forall k, z <= k < z + Z.of_nat fuel -> f k = true.
Proof.
  induction fuel as [|fuel IH]; intros z H k Hk; [lia|].
  simpl in H. apply andb_true_iff in H as [Hz Hrest].
  destruct (Z.eq_dec k z) as [->|Hne]; [exact Hz|].
  apply (IH (z + 1) Hrest). lia.
Qed.

(** Binary64 arithmetic checked on every pair of counts up to
    [checked_lines]: a change percentage that passes the two tests of
    the validation comes from a ratio within the bounds. *)
Lemma check_pairs_checked : check_pairs checked_lines = true.
Proof. vm_compute. reflexivity. Qed.

Lemma check_pairs_spec (size m n : nat) :
  check_pairs size = true -> (m <= size)%nat -> (n <= size)%nat ->
  pair_ok (Z.of_nat m) (Z.of_nat n) = true.
Proof.
  unfold check_pairs. intros H Hm Hn.
  pose proof (all_from_spec _ _ _ H (Z.of_nat n) ltac:(lia)) as H1.
  cbv beta in H1.
  exact (all_from_spec _ _ _ H1 (Z.of_nat m) ltac:(lia)).
Qed.

Lemma pair_ok_checked (m n : nat) :
  (m <= checked_lines)%nat -> (n <= checked_lines)%nat ->
  pair_ok (Z.of_nat m) (Z.of_nat n) = true.
Proof. apply check_pairs_spec, check_pairs_checked. Qed.

Lemma calculate_ratio_of (m n : nat) :
  Difflib._calculate_ratio m n = ratio_of (Z.of_nat m) (Z.of_nat n).
Proof.
  unfold Difflib._calculate_ratio, ratio_of, Difflib.float_of_nat.
  destruct n as [|n]; reflexivity.
Qed.

Lemma validate_revision_formula original revised :
  fst (_validate_revision original revised)
  = negb (String.eqb revised "" || (PyStr.len revised <? 100))
    && negb (String.eqb revised original)
    && in_range (_calculate_change_percentage original revised).
Proof.
  unfold _validate_revision, in_range.
  destruct (String.eqb revised "" || (PyStr.len revised <? 100)); [reflexivity|].
  destruct (String.eqb revised original); [reflexivity|]. simpl.
  destruct (PrimFloat.ltb _ 1.0%float); [reflexivity|].
  destruct (PrimFloat.ltb 50.0%float _); reflexivity.
Qed.

Lemma accepted_within_bounds original revised :
  (List.length (splitlines original) + List.length (splitlines revised)
   <= checked_lines)%nat ->
  fst (_validate_revision original revised) = true ->
  100 <= PyStr.len revised /\ revised <> original /\
  bounds (Difflib.ratio (splitlines original) (splitlines revised)) = true.
Proof.
  intros Hsize H. rewrite validate_revision_formula in H.
  apply andb_true_iff in H as [H Hrange]. apply andb_true_iff in H as [Hlen Hne].
  apply negb_true_iff, orb_false_iff in Hlen as [_ Hlen].
  apply negb_true_iff in Hne.
  split; [apply Z.ltb_ge; exact Hlen|].
  split; [intros ->; rewrite String.eqb_refl in Hne; discriminate|].
  unfold _calculate_change_percentage in Hrange.
  unfold Difflib.ratio in *. rewrite calculate_ratio_of in *.
  pose proof (DifflibProps.matches_le_length (splitlines original)
                (splitlines revised)) as Hm.
  pose proof (pair_ok_checked
                (Difflib.matches (splitlines original) (splitlines revised))
                (List.length (splitlines original) + List.length (splitlines revised))
                ltac:(lia) Hsize) as Hok.
  unfold pair_ok in Hok. unfold change_of in Hok at 1.
  rewrite Hrange in Hok. exact Hok.
Qed.

Lemma rejected_returns_original original scored_issues codex_result :
  fst (_validate_revision original (PyStr.strip (codex_response codex_result)))
    = false ->
  let result := revise_plan (Some original) scored_issues codex_result in
  success result = false /\ revised_content result = original /\
  (codex_success codex_result = true ->
   _prioritize_issues scored_issues <> [] ->
   error result
   = Some ("Revision validation failed: ",
           snd (_validate_revision original
                  (PyStr.strip (codex_response codex_result))))).
Proof.
  intros H. unfold revise_plan.
  destruct (_prioritize_issues scored_issues) as [|i is_] eqn:Hp;
    [simpl; repeat split; congruence|].
  destruct (codex_success codex_result); simpl;
    [|repeat split; discriminate].
  destruct (_validate_revision _ _) as [is_valid reason]. simpl in H. subst.
  simpl. repeat split.
Qed.




End PlanReviserProps.

Module PyStrProps.
Import PyStr PyStrFacts.

Lemma all_chars_weaken (p q : ascii -> bool) s :
  (forall c, p c = true -> q c = true) ->
  all_chars p s = true -> all_chars q s = true.
Proof.
  intros Hpq. induction s as [|c r IH]; simpl; [reflexivity|].
  intros [Hc Hr]%andb_true_iff. rewrite (Hpq c Hc), (IH Hr). reflexivity.
Qed.

Lemma all_chars_app p s t :
  all_chars p (s ++ t) = all_chars p s && all_chars p t.
Proof.
  induction s as [|c r IH]; simpl; [reflexivity|].
  rewrite IH, andb_assoc. reflexivity.
Qed.

Lemma digit_not_space c : is_digit c = true -> not_space c = true.
Proof.
  unfold is_digit, not_space, is_space.
  intros [H1 H2]%andb_true_iff.
  apply Nat.leb_le in H1. apply Nat.leb_le in H2.
  apply negb_true_iff, orb_false_iff. split; apply andb_false_iff.
  - right. apply Nat.leb_gt. lia.
  - right. apply Nat.leb_gt. lia.
Qed.

Lemma int_char_not_space c : int_char c = true -> not_space c = true.
Proof.
  unfold int_char. intros [H|H]%orb_true_iff; [apply digit_not_space, H|].
  apply Ascii.eqb_eq in H. subst. reflexivity.
Qed.

Lemma rstrip_not_space s : all_chars not_space s = true -> rstrip s = s.
Proof.
  induction s as [|c r IH]; simpl; [reflexivity|].
  intros [Hc Hr]%andb_true_iff. rewrite (IH Hr).
  destruct r; [|reflexivity].
  unfold not_space in Hc. apply negb_true_iff in Hc. rewrite Hc. reflexivity.
Qed.

Lemma lstrip_not_space s : all_chars not_space s = true -> lstrip s = s.
Proof.
  destruct s as [|c r]; simpl; [reflexivity|].
  intros [Hc _]%andb_true_iff.
  unfold not_space in Hc. apply negb_true_iff in Hc. rewrite Hc. reflexivity.
Qed.

Lemma strip_not_space s : all_chars not_space s = true -> strip s = s.
Proof.
  intros H. unfold strip. rewrite (lstrip_not_space s H). apply rstrip_not_space, H.
Qed.

Lemma pretty_N_char_digit d : is_digit (pretty_N_char d) = true.
Proof. unfold pretty_N_char. repeat case_match; reflexivity. Qed.

Lemma pretty_N_char_val d : (d < 10)%N -> digit_val (pretty_N_char d) = Z.of_N d.
Proof.
  intros H.
  assert (d = 0 \/ d = 1 \/ d = 2 \/ d = 3 \/ d = 4 \/ d = 5 \/ d = 6 \/ d = 7
          \/ d = 8 \/ d = 9)%N as Hd by lia.
  repeat (destruct Hd as [->|Hd]; [reflexivity|]). subst. reflexivity.
Qed.

Lemma pretty_N_go_digits x :
  forall s, all_chars is_digit s = true ->
            all_chars is_digit (pretty_N_go x s) = true.
Proof.
  induction (N.lt_wf_0 x) as [x _ IH]. intros s Hs.
  destruct (N.eq_dec x 0%N) as [->|Hx]; [rewrite pretty_N_go_0; exact Hs|].
  rewrite pretty_N_go_step by lia.
  apply IH; [apply N.div_lt; lia|].
  simpl. rewrite pretty_N_char_digit. exact Hs.
Qed.

(** Reading the digits that [pretty_N_go] puts in front of [s]. *)
Lemma int_digits_pretty_N_go x :
  forall s acc b, (0 < x)%N ->
    exists v, int_digits (pretty_N_go x s) acc b = int_digits s v true /\
              (acc = 0 -> v = Z.of_N x).
Proof.
  induction (N.lt_wf_0 x) as [x _ IH]. intros s acc b Hx.
  rewrite pretty_N_go_step by exact Hx.
  pose proof (N.mod_lt x 10%N ltac:(lia)) as Hmod.
  pose proof (N.div_mod x 10%N ltac:(lia)) as Hdm.
  destruct (N.eq_dec (x `div` 10)%N 0%N) as [Hq|Hq].
  - rewrite Hq, pretty_N_go_0. simpl. rewrite pretty_N_char_digit.
    eexists. split; [reflexivity|]. intros ->.
    rewrite pretty_N_char_val by exact Hmod. lia.
  - destruct (IH (x `div` 10)%N ltac:(apply N.div_lt; lia)
                (String (pretty_N_char (x `mod` 10)) s) acc b ltac:(lia))
      as (v & Hv & Hacc).
    rewrite Hv. simpl. rewrite pretty_N_char_digit.
    eexists. split; [reflexivity|]. intros Ha.
    rewrite (Hacc Ha), pretty_N_char_val by exact Hmod. lia.
Qed.

Lemma parse_int_digits t :
  all_chars is_digit t = true -> parse_int t = int_digits t 0 false.
Proof.
  intros H. unfold parse_int.
  rewrite strip_not_space
    by (eapply all_chars_weaken; [apply digit_not_space|exact H]).
  destruct t as [|c r]; [reflexivity|].
  simpl in H. apply andb_true_iff in H as [Hc _].
  destruct c as [[] [] [] [] [] [] [] []]; try reflexivity; discriminate.
Qed.

Lemma pretty_pos_digits p : all_chars is_digit (pretty (N.pos p)) = true.
Proof.
  unfold pretty, pretty_N. destruct (decide (N.pos p = 0%N)); [discriminate|].
  apply pretty_N_go_digits. reflexivity.
Qed.

Lemma parse_pretty_pos p : int_digits (pretty (N.pos p)) 0 false = Some (Z.pos p).
Proof.
  unfold pretty, pretty_N. destruct (decide (N.pos p = 0%N)); [discriminate|].
  destruct (int_digits_pretty_N_go (N.pos p) "" 0 false ltac:(lia)) as (v & Hv & Hacc).
  rewrite Hv, (Hacc eq_refl). reflexivity.
Qed.

(** [int(str(n)) == n]. *)
Lemma parse_int_str_int n : parse_int (str_int n) = Some n.
Proof.
  unfold str_int. destruct n as [|p|p]; [reflexivity| |].
  - change (pretty (Z.pos p)) with (pretty (N.pos p)).
    rewrite parse_int_digits by apply pretty_pos_digits.
    apply parse_pretty_pos.
  - change (pretty (Z.neg p)) with (String "-" (pretty (N.pos p))).
    unfold parse_int. rewrite strip_not_space.
    + rewrite parse_pretty_pos. reflexivity.
    + simpl. eapply all_chars_weaken; [apply digit_not_space|apply pretty_pos_digits].
Qed.

Lemma str_int_chars n : all_chars int_char (str_int n) = true.
Proof.
  unfold str_int. destruct n as [|p|p]; [reflexivity| |].
  - change (pretty (Z.pos p)) with (pretty (N.pos p)).
    eapply all_chars_weaken; [|apply pretty_pos_digits].
    intros c Hc. unfold int_char. rewrite Hc. reflexivity.
  - change (pretty (Z.neg p)) with (String "-" (pretty (N.pos p))).
    simpl. eapply all_chars_weaken; [|apply pretty_pos_digits].
    intros c Hc. unfold int_char. rewrite Hc. reflexivity.
Qed.

End PyStrProps.

Module StringOrderProps.
Import PyStr PyStrFacts.

Lemma append_cons c (a b : string) : String c a ++ b = String c (a ++ b).
Proof. reflexivity. Qed.

Lemma append_nil_l (a : string) : "" ++ a = a.
Proof. reflexivity. Qed.

Lemma append_assoc (a b c : string) : (a ++ b) ++ c = a ++ (b ++ c).
Proof.
  induction a as [|x a IH]; [reflexivity|].
  rewrite !append_cons, IH. reflexivity.
Qed.

Lemma append_nil_r (a : string) : a ++ "" = a.
Proof.
  induction a as [|x a IH]; [reflexivity|].
  rewrite append_cons, IH. reflexivity.
Qed.

Lemma startswith_app p x : startswith p (p ++ x) = true.
Proof.
  induction p as [|c p IH]; [reflexivity|].
  rewrite append_cons. simpl. rewrite Ascii.eqb_refl. exact IH.
Qed.

Lemma startswith_cancel p a b : startswith (p ++ a) (p ++ b) = startswith a b.
Proof.
  induction p as [|c p IH]; [reflexivity|].
  rewrite !append_cons. simpl. rewrite Ascii.eqb_refl. exact IH.
Qed.

Lemma substring_drop p x :
  String.substring (String.length p) (String.length (p ++ x) - String.length p)
                   (p ++ x) = x.
Proof.
  induction p as [|c p IH].
  - rewrite append_nil_l. simpl String.length. rewrite Nat.sub_0_r.
    induction x as [|c x IHx]; simpl; [reflexivity|].
    rewrite IHx. reflexivity.
  - rewrite append_cons. simpl. exact IH.
Qed.

Lemma rev_app_spec s : forall acc, String.rev_app s acc = String.rev s ++ acc.
Proof.
  unfold String.rev. induction s as [|c s IH]; intros acc; simpl; [reflexivity|].
  rewrite (IH (String c acc)), (IH (String c "")), append_assoc. reflexivity.
Qed.

Lemma rev_append a b : String.rev (a ++ b) = String.rev b ++ String.rev a.
Proof.
  induction a as [|c a IH].
  - rewrite append_nil_l. change (String.rev "") with "". rewrite append_nil_r. reflexivity.
  - rewrite append_cons. unfold String.rev at 1 3. simpl.
    rewrite (rev_app_spec (a ++ b)), (rev_app_spec a), IH, append_assoc. reflexivity.
Qed.

Lemma endswith_app p x : endswith p (x ++ p) = true.
Proof. unfold endswith. rewrite rev_append. apply startswith_app. Qed.

Lemma compare_cancel p a b : String.compare (p ++ a) (p ++ b) = String.compare a b.
Proof.
  induction p as [|c p IH]; [reflexivity|].
  rewrite !append_cons. simpl. unfold Ascii.compare. rewrite N.compare_refl. exact IH.
Qed.

Lemma leb_cancel p a b : String.leb (p ++ a) (p ++ b) = String.leb a b.
Proof. unfold String.leb. rewrite compare_cancel. reflexivity. Qed.

Lemma startswith_cons a p b s :
  startswith (String a p) (String b s) = Ascii.eqb a b && startswith p s.
Proof. reflexivity. Qed.

Lemma all_chars_cons f c s : all_chars f (String c s) = f c && all_chars f s.
Proof. reflexivity. Qed.

(** Two runs of integer characters, each closed by an underscore, of
    which one starts the other, are the same run. *)
Lemma int_run_unique a :
  forall b x y,
    all_chars int_char a = true -> all_chars int_char b = true ->
    startswith (a ++ String "_" x) (b ++ String "_" y) = true -> a = b.
Proof.
  induction a as [|c a IH]; intros [|c' b] x y Ha Hb H;
    rewrite ?append_cons, ?append_nil_l, ?startswith_cons in H;
    rewrite ?all_chars_cons in Ha, Hb.
  - reflexivity.
  - apply andb_true_iff in H as [H _]. apply Ascii.eqb_eq in H. subst c'.
    apply andb_true_iff in Hb as [Hb _]. discriminate.
  - apply andb_true_iff in H as [H _]. apply Ascii.eqb_eq in H. subst c.
    apply andb_true_iff in Ha as [Ha _]. discriminate.
  - apply andb_true_iff in H as [Hc H]. apply Ascii.eqb_eq in Hc. subst c'.
    apply andb_true_iff in Ha as [_ Ha]. apply andb_true_iff in Hb as [_ Hb].
    f_equal. eapply IH; eauto.
Qed.

Lemma str_le_le a b : str_le a b <-> String.le a b.
Proof. unfold str_le, String.le. split; [apply Is_true_true_2|apply Is_true_true_1]. Qed.

Lemma str_le_trans : Transitive str_le.
Proof.
  intros a b c Hab Hbc. apply str_le_le. etrans; apply str_le_le; eassumption.
Qed.

Lemma str_le_total : Total str_le.
Proof.
  intros a b. destruct (total String.le a b); [left|right]; apply str_le_le; assumption.
Qed.

#[local] Existing Instance str_le_trans.
#[local] Existing Instance str_le_total.

Lemma str_le_antisym a b : str_le a b -> str_le b a -> a = b.
Proof. intros H1 H2. apply (anti_symm String.le); apply str_le_le; assumption. Qed.

(** The last name of the sorted list is the greatest of the list. *)
Lemma last_sorted_max (l : list string) (x : string) :
  x ∈ l -> (forall y, y ∈ l -> str_le y x) ->
  List.last (Some <$> sorted l) None = Some x.
Proof.
  intros Hx Hmax. unfold sorted.
  pose proof (StronglySorted_merge_sort str_le l) as Hs.
  pose proof (merge_sort_Permutation str_le l) as Hp.
  generalize dependent (merge_sort str_le l). intros m Hs Hp.
  destruct m as [|z l' _] using rev_ind.
  - rewrite <- Hp in Hx. inversion Hx.
  - rewrite fmap_app. change (Some <$> [z]) with [Some z].
    rewrite List.last_last. f_equal.
    apply str_le_antisym.
    + apply Hmax. rewrite <- Hp. apply elem_of_app. right. constructor.
    + rewrite <- Hp in Hx. apply elem_of_app in Hx as [Hx|Hx].
      * eapply StronglySorted_app_1_elem_of; [exact Hs|exact Hx|constructor].
      * apply list_elem_of_singleton in Hx. subst.
        apply str_le_le. reflexivity.
Qed.

(** Sorting does not depend on the order the names come in. *)
Lemma sorted_permutation (l1 l2 : list string) : l1 ≡ₚ l2 -> sorted l1 = sorted l2.
Proof.
  intros Hp. unfold sorted.
  apply (Sorted_unique_strong str_le).
  - intros x y _ _ H1 H2. apply str_le_antisym; assumption.
  - apply Sorted_merge_sort. apply _.
  - apply Sorted_merge_sort. apply _.
  - rewrite !merge_sort_Permutation. exact Hp.
Qed.

End StringOrderProps.

Module SessionProps.
Import Config PyStr PyStrFacts FileProtocol SessionInvariant SessionRuns.
Import PyStrProps StringOrderProps.

Lemma contains_cons sub c r :
  contains sub (String c r) = startswith sub (String c r) || contains sub r.
Proof. reflexivity. Qed.

Lemma contains_slash_cons c r :
  contains "/" (String c r) = Ascii.eqb "/" c || contains "/" r.
Proof.
  rewrite contains_cons.
  change (startswith "/" (String c r)) with (Ascii.eqb "/" c && true).
  rewrite andb_true_r. reflexivity.
Qed.

Lemma basename_cons c r :
  basename (String c r)
  = if contains "/" r then basename r
    else if Ascii.eqb c "/" then r else String c r.
Proof. reflexivity. Qed.

Lemma basename_no_slash p : contains "/" (basename p) = false.
Proof.
  induction p as [|c r IH]; [reflexivity|].
  rewrite basename_cons. destruct (contains "/" r) eqn:Hr; [exact IH|].
  destruct (Ascii.eqb_spec c "/") as [->|Hc]; [exact Hr|].
  rewrite contains_slash_cons, Hr.
  destruct (Ascii.eqb_spec "/" c) as [<-|_]; [contradiction|reflexivity].
Qed.

Lemma basename_id p : contains "/" p = false -> basename p = p.
Proof.
  destruct p as [|c r]; [reflexivity|].
  rewrite contains_slash_cons, basename_cons. intros H.
  apply orb_false_iff in H as [Hc Hr]. rewrite Hr.
  destruct (Ascii.eqb_spec c "/") as [->|_]; [discriminate|reflexivity].
Qed.


Lemma valid_ai_name_cases ai :
  valid_ai_name ai = true -> ai = "claude" \/ ai = "codex".
Proof.
  unfold valid_ai_name. intros H. apply orb_true_iff in H as [H|H];
    apply String.eqb_eq in H; auto.
Qed.

(** One step of the loop that makes the participant directories. *)
Lemma mkdir_lookup (ds : gmap string (gmap string string)) n k :
  match ds !! n with Some _ => ds | None => <[n := ∅]> ds end !! k
  = match ds !! k with
    | Some files => Some files
    | None => if decide (n = k) then Some ∅ else None
    end.
Proof.
  destruct (ds !! n) as [f|] eqn:Hn.
  - destruct (ds !! k) as [g|] eqn:Hk; [reflexivity|].
    destruct (decide (n = k)) as [->|]; [congruence|reflexivity].
  - rewrite lookup_insert. destruct (decide (n = k)) as [->|].
    + rewrite Hn. reflexivity.
    + destruct (ds !! k); reflexivity.
Qed.

Lemma participant_dirs_lookup (ds : gmap string (gmap string string)) k :
  List.fold_left
    (fun ds n => match ds !! n with Some _ => ds | None => <[n := ∅]> ds end)
    participant_dirs ds !! k
  = match ds !! k with
    | Some files => Some files
    | None => if bool_decide (k ∈ participant_dirs) then Some ∅ else None
    end.
Proof.
  unfold participant_dirs. cbn [List.fold_left].
  rewrite !mkdir_lookup. destruct (ds !! k) as [f|]; [reflexivity|].
  destruct (decide ("claude" = k)) as [<-|H1]; [reflexivity|].
  destruct (decide ("codex" = k)) as [<-|H2]; [reflexivity|].
  destruct (decide ("moderator" = k)) as [<-|H3]; [reflexivity|].
  rewrite bool_decide_eq_false_2; [reflexivity|].
  rewrite !elem_of_cons, elem_of_nil. intros [?|[?|[?|[]]]]; congruence.
Qed.

Lemma create_session_directory_lookup cfg now fs session_id :
  contains ".." session_id = false -> contains "/" session_id = false ->
  let dir := path_join (session_root cfg) session_id in
  let old := default {| seq_file := None; subdirs := ∅; metadata_file := None |}
                     (fs !! dir) in
  exists d',
    fst (create_session_directory cfg now fs session_id) = <[dir := d']> fs /\
    seq_file d' = Some (default "0" (seq_file old)) /\
    (forall k, subdirs d' !! k
               = match subdirs old !! k with
                 | Some files => Some files
                 | None => if bool_decide (k ∈ participant_dirs) then Some ∅ else None
                 end) /\
    metadata_file d'
    = Some (MetaObject (<["session_id" := JStr session_id]>
                        (<["created_at" := JStr now]>
                        (<["updated_at" := JStr now]>
                        (<["state" := JStr "IDLE"]>
                        (<["current_round" := JInt 0]> ∅)))))).
Proof.
  intros Hdots Hslash dir old. unfold create_session_directory.
  rewrite Hdots, (basename_id _ Hslash), String.eqb_refl. cbn [orb negb fst].
  fold dir. fold old. eexists. split; [reflexivity|].
  cbn [seq_file subdirs metadata_file].
  split; [destruct (seq_file old); reflexivity|].
  split; [intros k; apply participant_dirs_lookup|reflexivity].
Qed.

Lemma create_session_directory_fresh cfg now fs session_id :
  contains ".." session_id = false -> contains "/" session_id = false ->
  fs !! path_join (session_root cfg) session_id = None ->
  session_ok (fst (create_session_directory cfg now fs session_id))
             (path_join (session_root cfg) session_id) 0.
Proof.
  intros Hdots Hslash Hnone.
  destruct (create_session_directory_lookup cfg now fs session_id Hdots Hslash)
    as (d' & -> & Hseq & Hsub & _).
  rewrite Hnone in Hseq, Hsub. cbn [default from_option id seq_file subdirs] in Hseq, Hsub.
  exists d'. split; [apply lookup_insert_eq|].
  split; [exact Hseq|]. split; [lia|]. split.
  - intros ai Hai. rewrite Hsub, lookup_empty.
    apply valid_ai_name_cases in Hai as [->| ->]; vm_compute; eauto.
  - intros ai files name Hf [x Hx]. rewrite Hsub, lookup_empty in Hf.
    destruct (bool_decide _); [|discriminate].
    injection Hf as <-. rewrite lookup_empty in Hx. discriminate.
Qed.

Lemma create_session_directory_again cfg now fs session_id n :
  contains ".." session_id = false -> contains "/" session_id = false ->
  session_ok fs (path_join (session_root cfg) session_id) n ->
  session_ok (fst (create_session_directory cfg now fs session_id))
             (path_join (session_root cfg) session_id) n.
Proof.
  intros Hdots Hslash (d & Hd & Hseq & Hn & Hdirs & Hfiles).
  destruct (create_session_directory_lookup cfg now fs session_id Hdots Hslash)
    as (d' & -> & Hseq' & Hsub & _).
  rewrite Hd in Hseq', Hsub. cbn [default from_option id] in Hseq', Hsub.
  rewrite Hseq in Hseq'. cbn [default from_option id] in Hseq'.
  exists d'. split; [apply lookup_insert_eq|].
  split; [exact Hseq'|]. split; [exact Hn|]. split.
  - intros ai Hai. rewrite Hsub. destruct (Hdirs ai Hai) as [f ->]. eauto.
  - intros ai files name Hf Hx. rewrite Hsub in Hf.
    destruct (subdirs d !! ai) as [g|] eqn:Hg.
    + injection Hf as <-. eapply Hfiles; eauto.
    + destruct (bool_decide _); [|discriminate].
      injection Hf as <-. destruct Hx as [x Hx]. rewrite lookup_empty in Hx. discriminate.
Qed.



Lemma proposal_filename_split r s :
  proposal_filename r s
  = ("round_" ++ str_int r ++ "_seq_") ++ (format_03d s ++ ".md").
Proof. unfold proposal_filename. rewrite !append_assoc. reflexivity. Qed.

(** A proposal file matches the pattern of its own round ... *)
Lemma glob_match_own r s :
  glob_match ("round_" ++ str_int r ++ "_seq_") ".md" (proposal_filename r s) = true.
Proof.
  unfold glob_match. rewrite proposal_filename_split.
  rewrite startswith_app, substring_drop, endswith_app. reflexivity.
Qed.

(** ... and of no other round. *)
Lemma glob_match_round r r' s :
  glob_match ("round_" ++ str_int r ++ "_seq_") ".md" (proposal_filename r' s) = true ->
  r = r'.
Proof.
  unfold glob_match, proposal_filename. intros H.
  apply andb_true_iff in H as [H _].
  rewrite startswith_cancel in H.
  apply int_run_unique in H; [|apply str_int_chars..].
  exact (pretty_Z_inj _ _ H).
Qed.

Lemma names_ascend_checked : names_ascend 999 0 = true.
Proof. vm_compute. reflexivity. Qed.

Lemma format_03d_ascend s k :
  0 <= s -> s + Z.of_nat k <= 999 ->
  str_le (format_03d s ++ ".md") (format_03d (s + Z.of_nat k) ++ ".md").
Proof.
  intros Hs. induction k as [|k IH]; intros Hk.
  - rewrite Z.add_0_r. apply str_le_le. reflexivity.
  - apply (str_le_trans _ (format_03d (s + Z.of_nat k) ++ ".md")); [apply IH; lia|].
    replace (s + Z.of_nat (S k)) with (s + Z.of_nat k + 1) by lia.
    apply (PlanReviserProps.all_from_spec _ _ _ names_ascend_checked (s + Z.of_nat k)).
    lia.
Qed.

(** Up to sequence number 999 the names of one round sort by sequence
    number. *)
Lemma proposal_filename_ascend r s s' :
  0 <= s <= s' -> s' <= 999 ->
  str_le (proposal_filename r s) (proposal_filename r s').
Proof.
  intros Hs Hs'. rewrite !proposal_filename_split.
  unfold str_le. rewrite leb_cancel.
  replace s' with (s + Z.of_nat (Z.to_nat (s' - s))) by lia.
  apply format_03d_ascend; lia.
Qed.

Lemma elem_of_keys (files : gmap string string) x :
  x ∈ (fst <$> map_to_list files) <-> is_Some (files !! x).
Proof.
  rewrite list_elem_of_fmap. split.
  - intros [[k v] [-> H]]. apply elem_of_map_to_list in H. eauto.
  - intros [v H]. exists (x, v). split; [reflexivity|].
    apply elem_of_map_to_list. exact H.
Qed.

Lemma elem_of_filter (f : string -> bool) l x :
  x ∈ List.filter f l <-> x ∈ l /\ f x = true.
Proof. rewrite !list_elem_of_In. apply List.filter_In. Qed.

Lemma filter_Permutation' (f : string -> bool) l1 l2 :
  l1 ≡ₚ l2 -> List.filter f l1 ≡ₚ List.filter f l2.
Proof.
  induction 1 as [|x l1 l2 _ IH|x y l|l1 l2 l3 _ IH1 _ IH2]; simpl.
  - reflexivity.
  - destruct (f x); [constructor|]; exact IH.
  - destruct (f x), (f y); try reflexivity. constructor.
  - etrans; eassumption.
Qed.

(** A new or rewritten file that does not match the pattern does not
    change the listing. *)
Lemma filter_keys_insert_other (f : string -> bool) (files : gmap string string) k v :
  f k = false ->
  List.filter f (fst <$> map_to_list (<[k := v]> files))
  ≡ₚ List.filter f (fst <$> map_to_list files).
Proof.
  intros Hk.
  assert (Hdel : List.filter f (fst <$> map_to_list (<[k := v]> files))
                 ≡ₚ List.filter f (fst <$> map_to_list (delete k files))).
  { rewrite <- insert_delete_eq.
    rewrite (filter_Permutation' f _ _
               (fmap_Permutation fst _ _
                  (map_to_list_insert (delete k files) k v (lookup_delete_eq _ _)))).
    simpl. rewrite Hk. reflexivity. }
  rewrite Hdel. destruct (files !! k) as [x|] eqn:Hx.
  - rewrite <- (filter_Permutation' f _ _
                  (fmap_Permutation fst _ _ (map_to_list_delete files k x Hx))).
    simpl. rewrite Hk. reflexivity.
  - rewrite delete_id by exact Hx. reflexivity.
Qed.

Lemma last_Some_elem (l : list string) x :
  List.last (Some <$> l) None = Some x -> x ∈ l.
Proof.
  destruct l as [|z l' _] using rev_ind; [discriminate|].
  rewrite fmap_app. change (Some <$> [z]) with [Some z].
  rewrite List.last_last. intros [= ->].
  apply elem_of_app. right. constructor.
Qed.

Lemma current_sequence_str_int d n :
  seq_file d = Some (str_int n) -> current_sequence d = n.
Proof.
  unfold current_sequence. intros ->. rewrite parse_int_str_int. reflexivity.
Qed.


(** What a write for claude or codex does in a session that satisfies
    the invariant. *)
Lemma write_proposal_ok fs session_dir n ai_name round_num content :
  session_ok fs session_dir n -> valid_ai_name ai_name = true ->
  exists d files,
    fs !! session_dir = Some d /\ subdirs d !! ai_name = Some files /\
    (forall name, is_Some (files !! name) -> proposal_file n name) /\
    write_proposal fs session_dir ai_name round_num content
    = (<[session_dir :=
           set_subdir ai_name
             (<[proposal_filename round_num (n + 1) := content]> files)
             (set_seq_file (str_int (n + 1)) d)]>
         (<[session_dir := set_seq_file (str_int (n + 1)) d]> fs),
       {| w_success := true;
          w_file_path := path_join (path_join session_dir ai_name)
                                   (proposal_filename round_num (n + 1));
          w_sequence := n + 1; w_error := None |}).
Proof.
  intros (d & Hd & Hseq & Hn & Hdirs & Hfiles) Hai.
  destruct (Hdirs ai_name Hai) as [files Hf].
  exists d, files. split; [exact Hd|]. split; [exact Hf|].
  split; [intros name; apply (Hfiles ai_name files name Hf)|].
  unfold write_proposal, get_next_sequence. rewrite Hai, Hd. cbn [negb].
  rewrite Hseq, parse_int_str_int. cbn [default from_option id].
  rewrite lookup_insert_eq. cbn [subdirs set_seq_file]. rewrite Hf. reflexivity.
Qed.

Lemma proposal_file_weaken n m name :
  n <= m -> proposal_file n name -> proposal_file m name.
Proof. intros Hnm (r & s & -> & Hs). exists r, s. split; [reflexivity|lia]. Qed.

Lemma fresh_session_ok : session_ok fresh_session demo_dir 0.
Proof.
  apply (create_session_directory_fresh demo_config "2026-01-01T00:00:00" ∅ "S");
    reflexivity.
Qed.

Lemma write_proposal_preserves fs session_dir n ai_name round_num content :
  session_ok fs session_dir n -> valid_ai_name ai_name = true ->
  session_ok (fst (write_proposal fs session_dir ai_name round_num content))
             session_dir (n + 1).
Proof.
  intros Hok Hai.
  destruct (write_proposal_ok _ _ _ _ round_num content Hok Hai)
    as (d & files & Hd & Hf & Hold & ->).
  destruct Hok as (d0 & Hd0 & Hseq & Hn & Hdirs & Hfiles).
  assert (d0 = d) as -> by congruence.
  cbn [fst].
  eexists. split; [apply lookup_insert_eq|].
  cbn [seq_file subdirs set_subdir set_seq_file].
  split; [reflexivity|]. split; [lia|]. split.
  - intros ai Hai'. apply lookup_insert_is_Some.
    destruct (decide (ai_name = ai)); [left; assumption|right; auto].
  - intros ai files' name Hf' Hname.
    apply lookup_insert_Some in Hf' as [[<- <-]|[Hne Hf']].
    + apply lookup_insert_is_Some in Hname as [<-|[_ Hname]].
      * exists round_num, (n + 1). split; [reflexivity|lia].
      * apply (proposal_file_weaken n); [lia|]. apply Hold. exact Hname.
    + apply (proposal_file_weaken n); [lia|]. eapply Hfiles; eassumption.
Qed.



Lemma str_le_refl a : str_le a a.
Proof. apply str_le_le. reflexivity. Qed.

(** Below sequence number 999 the file just written is the last of its
    round in the sorted listing. *)
Lemma latest_after_insert (files : gmap string string) round_num n content :
  (forall name, is_Some (files !! name) -> proposal_file n name) ->
  0 <= n < 999 ->
  List.last
    (Some <$> sorted
       (List.filter (glob_match ("round_" ++ str_int round_num ++ "_seq_") ".md")
          (fst <$> map_to_list (<[proposal_filename round_num (n + 1) := content]> files))))
    None
  = Some (proposal_filename round_num (n + 1)).
Proof.
  intros Hold Hn. apply last_sorted_max.
  - apply elem_of_filter. split; [|apply glob_match_own].
    apply elem_of_keys. rewrite lookup_insert_eq. eauto.
  - intros y Hy. apply elem_of_filter in Hy as [Hin Hglob].
    apply elem_of_keys, lookup_insert_is_Some in Hin as [<-|[_ Hin]];
      [apply str_le_refl|].
    destruct (Hold y Hin) as (r & s & -> & Hs).
    apply glob_match_round in Hglob as <-.
    apply proposal_filename_ascend; lia.
Qed.

Lemma read_after_write fs session_dir n ai_name round_num content :
  session_ok fs session_dir n -> n < 999 -> valid_ai_name ai_name = true ->
  read_proposal (fst (write_proposal fs session_dir ai_name round_num content))
                session_dir ai_name round_num
  = {| r_success := true; r_content := content;
       r_file_path := path_join (path_join session_dir ai_name)
                                (proposal_filename round_num (n + 1));
       r_error := None |}.
Proof.
  intros Hok Hn Hai.
  destruct (write_proposal_ok _ _ _ _ round_num content Hok Hai)
    as (d & files & Hd & Hf & Hold & ->).
  destruct Hok as (_ & _ & _ & Hn0 & _).
  cbn [fst]. unfold read_proposal, read_proposal_fmt. rewrite Hai. cbn [negb].
  rewrite lookup_insert_eq. cbn [mbind option_bind subdirs set_subdir].
  rewrite lookup_insert_eq. cbn [default from_option id].
  rewrite (latest_after_insert files round_num n content Hold) by lia.
  rewrite lookup_insert_eq. reflexivity.
Qed.

Lemma write_all_cons fs session_dir ai_name round_num c r :
  fst (write_all fs session_dir ai_name round_num (c :: r))
  = fst (write_all (fst (write_proposal fs session_dir ai_name round_num c))
                   session_dir ai_name round_num r).
Proof.
  cbn [write_all].
  destruct (write_proposal fs session_dir ai_name round_num c) as [fs1 w].
  cbn [fst].
  destruct (write_all fs1 session_dir ai_name round_num r) as [fs2 ws].
  reflexivity.
Qed.



(** X6: What a listing in another directory, session or round sees is not
    changed by a write: [read_proposal] for a participant, session or
    round other than the one written returns what it returned before. *)
Theorem write_proposal_frame
    fs session_dir ai_name round_num content session_dir' ai_name' round_num' :
  session_dir' <> session_dir \/ ai_name' <> ai_name \/ round_num' <> round_num ->
  read_proposal (fst (write_proposal fs session_dir ai_name round_num content))
                session_dir' ai_name' round_num'
  = read_proposal fs session_dir' ai_name' round_num'.
Proof.
  intros Hother. unfold write_proposal.
  destruct (valid_ai_name ai_name); cbn [negb]; [|reflexivity].
  unfold get_next_sequence.
  destruct (fs !! session_dir) as [d|] eqn:Hd; [|reflexivity].
  set (sequence := _ + 1).
  set (d1 := set_seq_file (str_int sequence) d).
  rewrite lookup_insert_eq. cbn [subdirs set_seq_file d1].
  assert (Hseq : read_proposal (<[session_dir := d1]> fs) session_dir' ai_name' round_num'
                 = read_proposal fs session_dir' ai_name' round_num').
  { unfold read_proposal, read_proposal_fmt.
    destruct (decide (session_dir = session_dir')) as [<-|Hne].
    - rewrite lookup_insert_eq, Hd. reflexivity.
    - rewrite lookup_insert_ne by exact Hne. reflexivity. }
  destruct (subdirs d !! ai_name) as [files|] eqn:Hf; cbn [fst]; [|exact Hseq].
  rewrite <- Hseq. unfold read_proposal, read_proposal_fmt.
  destruct (valid_ai_name ai_name'); cbn [negb]; [|reflexivity].
  destruct (decide (session_dir = session_dir')) as [<-|Hne];
    [|rewrite !lookup_insert_ne by exact Hne; reflexivity].
  rewrite !lookup_insert_eq. cbn [mbind option_bind subdirs set_subdir d1 set_seq_file].
  destruct (decide (ai_name = ai_name')) as [<-|Hne];
    [|rewrite lookup_insert_ne by exact Hne; reflexivity].
  rewrite lookup_insert_eq, Hf. cbn [default from_option id].
  assert (Hround : round_num' <> round_num) by (destruct Hother as [?|[?|?]]; congruence).
  set (f := glob_match ("round_" ++ str_int round_num' ++ "_seq_") ".md").
  set (k := proposal_filename round_num sequence).
  assert (Hk : f k = false).
  { destruct (f k) eqn:Hfk; [|reflexivity].
    apply glob_match_round in Hfk. contradiction. }
  rewrite (sorted_permutation _ _ (filter_keys_insert_other f files k content Hk)).
  destruct (List.last _ None) as [latest_file|] eqn:Hlast; [|reflexivity].
  apply last_Some_elem in Hlast.
  unfold sorted in Hlast. rewrite merge_sort_Permutation in Hlast.
  apply elem_of_filter in Hlast as [_ Hlatest].
  rewrite lookup_insert_ne by congruence. reflexivity.
Qed.

(** [write_proposal_frame] for a write of round 2 and a read of round 1. *)
Lemma write_proposal_frame_witness :
  read_proposal (fst (write_proposal fresh_session demo_dir "claude" 2 "B"))
                demo_dir "claude" 1
  = read_proposal fresh_session demo_dir "claude" 1.
Proof.
  apply (write_proposal_frame fresh_session demo_dir "claude" 2 "B" demo_dir "claude" 1).
  right. right. discriminate.
Defined.

End SessionProps.

Module GateProps.
Import Config PyStr FileProtocol EnforcementGate SessionInvariant SessionRuns.
Import SessionProps.

(** Replacing the metadata file of a session changes neither what
    [read_proposal] returns nor what [get_next_sequence] returns. *)
Lemma set_metadata_file_frame fs dir d m :
  fs !! dir = Some d ->
  (forall dir' ai_name round_text,
     read_proposal_fmt (<[dir := set_metadata_file m d]> fs) dir' ai_name round_text
     = read_proposal_fmt fs dir' ai_name round_text) /\
  (forall dir',
     snd (get_next_sequence (<[dir := set_metadata_file m d]> fs) dir')
     = snd (get_next_sequence fs dir')).
Proof.
  intros Hd. split; intros dir'.
  - intros ai_name round_text. unfold read_proposal_fmt.
    destruct (decide (dir = dir')) as [<-|Hne].
    + rewrite lookup_insert_eq, Hd. reflexivity.
    + rewrite lookup_insert_ne by exact Hne. reflexivity.
  - unfold get_next_sequence.
    destruct (decide (dir = dir')) as [<-|Hne].
    + rewrite lookup_insert_eq, Hd. reflexivity.
    + rewrite lookup_insert_ne by exact Hne. destruct (fs !! dir'); reflexivity.
Qed.

(** X7: [write_metadata] followed by [read_metadata]: in a session directory
    that exists the write succeeds and the read returns the dictionary
    written, with [updated_at] set to the time of the write; the
    proposals, the counter and the metadata of other sessions are as
    before.  Without the directory the write fails and changes nothing. *)
Theorem read_metadata_after_write_metadata now fs session_dir metadata :
  let fs' := fst (write_metadata now fs session_dir metadata) in
  let r := snd (write_metadata now fs session_dir metadata) in
  match fs !! session_dir with
  | None => m_success r = false /\ is_Some (m_error r) /\ fs' = fs
  | Some _ =>
      m_success r = true /\
      read_metadata fs' session_dir
      = inr (MetaObject (<["updated_at" := JStr now]> metadata)) /\
      (forall dir', dir' <> session_dir ->
                    read_metadata fs' dir' = read_metadata fs dir') /\
      (forall dir' ai_name round_num,
         read_proposal fs' dir' ai_name round_num
         = read_proposal fs dir' ai_name round_num) /\
      (forall dir', snd (get_next_sequence fs' dir') = snd (get_next_sequence fs dir'))
  end.
Proof.
  unfold write_metadata.
  destruct (fs !! session_dir) as [d|] eqn:Hd; cbn [fst snd m_success m_error];
    [|eauto].
  destruct (set_metadata_file_frame fs session_dir d
              (MetaObject (<["updated_at" := JStr now]> metadata)) Hd) as [Hread Hseq].
  split; [reflexivity|]. split; [|split; [|split]].
  - unfold read_metadata. rewrite lookup_insert_eq. reflexivity.
  - intros dir' Hne. unfold read_metadata.
    rewrite lookup_insert_ne by congruence. reflexivity.
  - intros dir' ai_name round_num. apply Hread.
  - exact Hseq.
Qed.

(** X8: [mark_user_override] touches the metadata of its session and nothing
    else: a failed call leaves the file system as it was, and after any
    call the proposals, the sequence counters and the other sessions are
    as before. *)
Theorem mark_user_override_frame cfg now fs session_id session_dir :
  let fs' := fst (mark_user_override cfg now fs session_id session_dir) in
  let r := snd (mark_user_override cfg now fs session_id session_dir) in
  (m_success r = false -> fs' = fs /\ is_Some (m_error r)) /\
  (forall dir' ai_name round_num,
     read_proposal fs' dir' ai_name round_num
     = read_proposal fs dir' ai_name round_num) /\
  (forall dir', snd (get_next_sequence fs' dir') = snd (get_next_sequence fs dir')) /\
  (forall dir', dir' <> resolve_dir cfg session_id session_dir ->
                fs' !! dir' = fs !! dir').
Proof.
  unfold mark_user_override.
  set (dir := resolve_dir cfg session_id session_dir).
  destruct (read_metadata fs dir) as [err|[metadata|v|]] eqn:Hr; cbn [fst snd];
    try (repeat split; eauto; fail).
  apply EnforcementGateProps.read_metadata_object in Hr as (d & Hd & _).
  unfold write_metadata. rewrite Hd. cbn [fst snd m_success].
  destruct (set_metadata_file_frame fs dir d
              (MetaObject (<["updated_at" := JStr now]>
                           (<["outcome" := JStr "user_override"]>
                            (<["user_override" := JBool true]> metadata)))) Hd)
    as [Hread Hseq].
  split; [discriminate|]. split; [|split].
  - intros dir' ai_name round_num. apply Hread.
  - exact Hseq.
  - intros dir' Hne. apply lookup_insert_ne. congruence.
Qed.

(** X9: When the gate opens.  With the debate system disabled it always
    does.  With it enabled it opens exactly when the session's metadata
    is a JSON object whose state is CONSENSUS, or ESCALATION with a true
    [user_override]; a missing session, missing or unreadable metadata
    and every other state keep it closed.  The result reports an
    override only when the gate is open. *)
Theorem gate_opens_iff cfg fs session_id session_dir :
  let g := block_execution_until_consensus cfg fs session_id session_dir in
  let dir := resolve_dir cfg session_id session_dir in
  (can_execute g = true <->
   enabled cfg = false \/
   exists metadata,
     read_metadata fs dir = inr (MetaObject metadata) /\
     let state := dict_get metadata "state" (JStr "IDLE") in
     state = JStr "CONSENSUS" \/
     (state = JStr "ESCALATION" /\
      truthy (dict_get metadata "user_override" (JBool false)) = true)) /\
  (user_override g = true -> can_execute g = true) /\
  (can_execute g = true -> decision_pack g = NoPack /\ error g = None).
Proof.
  intros g dir. subst g. unfold block_execution_until_consensus. fold dir.
  destruct (enabled cfg); cbn [negb];
    [|split; [split; [intros _; left; reflexivity|reflexivity]
             |split; [discriminate|intros _; split; reflexivity]]].
  assert (Hblocked : forall err,
            (can_execute (blocked err) = true <-> False) /\
            (user_override (blocked err) = true -> can_execute (blocked err) = true) /\
            (can_execute (blocked err) = true ->
             decision_pack (blocked err) = NoPack /\ error (blocked err) = None)).
  { intros err. cbn. split; [split; [discriminate|tauto]|split; discriminate]. }
  destruct (fs !! dir) as [d|] eqn:Hd.
  2:{ destruct (Hblocked ("Session not found: " ++ session_id)) as (H1 & H2 & H3).
      split; [|split; assumption]. rewrite H1. split; [tauto|].
      intros [?|(metadata & Hm & _)]; [discriminate|].
      unfold read_metadata in Hm. rewrite Hd in Hm. discriminate. }
  destruct (read_metadata fs dir) as [err|[metadata|v|]] eqn:Hr.
  - destruct (Hblocked err) as (H1 & H2 & H3).
    split; [|split; assumption]. rewrite H1. split; [tauto|].
    intros [?|(metadata & Hm & _)]; discriminate.
  - set (state := dict_get metadata "state" (JStr "IDLE")).
    set (override := dict_get metadata "user_override" (JBool false)).
    destruct (decide (state = JStr "CONSENSUS")) as [Hc|Hc]; cbn.
    { split; [|split; [discriminate|split; reflexivity]].
      split; [intros _; right; exists metadata; split; [reflexivity|left; exact Hc]|reflexivity]. }
    destruct (bool_decide (state = JStr "ESCALATION")) eqn:He; cbn.
    + apply bool_decide_eq_true in He.
      destruct (truthy override) eqn:Ho; cbn.
      * split; [|split; [reflexivity|split; reflexivity]].
        split; [intros _; right; exists metadata; split; [reflexivity|right; split; assumption]
               |reflexivity].
      * destruct (decide (state = JStr "ESCALATION")); [|contradiction]. cbn.
        split; [|split; discriminate].
        split; [discriminate|].
        intros [?|(metadata0 & [= <-] & [Hs|[_ Hs]])]; [discriminate|contradiction|].
        fold override in Hs. congruence.
    + apply bool_decide_eq_false in He.
      destruct (decide (state = JStr "ESCALATION")); [contradiction|]. cbn.
      split; [|split; discriminate].
      split; [discriminate|].
      intros [?|(metadata0 & [= <-] & [Hs|[Hs _]])]; [discriminate|contradiction..].
  - destruct (Hblocked "Failed to check consensus: object has no attribute 'get'")
      as (H1 & H2 & H3).
    split; [|split; assumption]. rewrite H1. split; [tauto|].
    intros [?|(metadata & Hm & _)]; discriminate.
  - destruct (Hblocked "Failed to read metadata: Expecting value") as (H1 & H2 & H3).
    split; [|split; assumption]. rewrite H1. split; [tauto|].
    intros [?|(metadata & Hm & _)]; discriminate.
Qed.



End GateProps.

Module ScoredIssuesProps.
Import PyStr PriorityScorer FileProtocol ScoredIssues.

Section Sorting.
Context {T : Type} (key : T -> Z).

Lemma insert_desc_perm x l : insert_desc key x l ≡ₚ x :: l.
Proof.
  induction l as [|y r IH]; cbn [insert_desc]; [reflexivity|].
  destruct (key y <? key x); [reflexivity|].
  rewrite IH. apply Permutation_swap.
Qed.

Lemma insert_desc_sorted x l :
  StronglySorted (desc key) l -> StronglySorted (desc key) (insert_desc key x l).
Proof.
  induction l as [|y r IH]; cbn [insert_desc]; intros Hs.
  - repeat constructor.
  - apply StronglySorted_inv in Hs as [Hr Hy].
    destruct (key y <? key x) eqn:Hlt.
    + apply Z.ltb_lt in Hlt. constructor; [constructor; assumption|].
      constructor; [unfold desc; lia|].
      eapply Forall_impl; [exact Hy|]. unfold desc. intros z Hz. lia.
    + apply Z.ltb_ge in Hlt. constructor; [apply IH; exact Hr|].
      rewrite insert_desc_perm. constructor; [exact Hlt|exact Hy].
Qed.

Lemma filter_key_nil z l :
  Forall (fun y => key y <> z) l -> List.filter (fun y => key y =? z) l = [].
Proof.
  induction 1 as [|y r Hy _ IH]; cbn [List.filter]; [reflexivity|].
  destruct (Z.eqb_spec (key y) z); [contradiction|exact IH].
Qed.

Lemma insert_desc_filter z x l :
  StronglySorted (desc key) l ->
  List.filter (fun y => key y =? z) (insert_desc key x l)
  = (List.filter (fun y => key y =? z) l ++ List.filter (fun y => key y =? z) [x])%list.
Proof.
  induction l as [|y r IH]; cbn [insert_desc]; intros Hs; [reflexivity|].
  apply StronglySorted_inv in Hs as [Hr Hy].
  destruct (key y <? key x) eqn:Hlt.
  - apply Z.ltb_lt in Hlt.
    cbn [List.filter]. destruct (Z.eqb_spec (key x) z) as [Hx|Hx].
    + destruct (Z.eqb_spec (key y) z); [lia|].
      rewrite filter_key_nil; [reflexivity|].
      eapply Forall_impl; [exact Hy|]. unfold desc. intros w Hw. lia.
    + rewrite app_nil_r. reflexivity.
  - cbn [List.filter] in *. rewrite (IH Hr).
    destruct (key y =? z); reflexivity.
Qed.

Lemma sort_desc_fold l :
  forall acc, StronglySorted (desc key) acc ->
    let out := List.fold_left (fun sorted x => insert_desc key x sorted) l acc in
    out ≡ₚ (acc ++ l)%list /\ StronglySorted (desc key) out /\
    forall z, List.filter (fun y => key y =? z) out
              = (List.filter (fun y => key y =? z) acc
                 ++ List.filter (fun y => key y =? z) l)%list.
Proof.
  induction l as [|x l IH]; intros acc Hacc; cbn [List.fold_left].
  - rewrite app_nil_r. split; [reflexivity|]. split; [exact Hacc|].
    intros z. rewrite app_nil_r. reflexivity.
  - destruct (IH (insert_desc key x acc) (insert_desc_sorted x acc Hacc))
      as (Hp & Hs & Hf).
    split; [|split; [exact Hs|]].
    + rewrite Hp, insert_desc_perm. apply Permutation_middle.
    + intros z. rewrite Hf, insert_desc_filter by exact Hacc.
      rewrite <- List.app_assoc. cbn [List.filter].
      destruct (key x =? z); reflexivity.
Qed.

(** The sort is a stable descending sort: the result has the elements of
    the list, in descending order of the key, and elements with the
    same key are in the order they had. *)
Lemma sort_desc_spec l :
  sort_desc key l ≡ₚ l /\ StronglySorted (desc key) (sort_desc key l) /\
  forall z, List.filter (fun y => key y =? z) (sort_desc key l)
            = List.filter (fun y => key y =? z) l.
Proof. apply (sort_desc_fold l []). constructor. Qed.

Lemma get_issues_by_severity_fold (issues : list T) :
  forall g,
    let f (p : Z -> bool) := List.filter (fun x => p (key x)) issues in
    let out :=
      List.fold_left
        (fun grouped issue =>
           if key issue >=? threshold "stop_ship" then
             {| stop_ship := stop_ship grouped ++ [issue]; high := high grouped;
                medium := medium grouped; low := low grouped |}
           else if key issue >=? threshold "high" then
             {| stop_ship := stop_ship grouped; high := high grouped ++ [issue];
                medium := medium grouped; low := low grouped |}
           else if key issue >=? threshold "medium" then
             {| stop_ship := stop_ship grouped; high := high grouped;
                medium := medium grouped ++ [issue]; low := low grouped |}
           else
             {| stop_ship := stop_ship grouped; high := high grouped;
                medium := medium grouped; low := low grouped ++ [issue] |})
        issues g in
    stop_ship out = (stop_ship g ++ f (fun s => 85 <=? s))%list /\
    high out = (high g ++ f (fun s => (65 <=? s) && (s <? 85)))%list /\
    medium out = (medium g ++ f (fun s => (50 <=? s) && (s <? 65)))%list /\
    low out = (low g ++ f (fun s => s <? 50))%list.
Proof.
  induction issues as [|x r IH]; intros g; cbn [List.fold_left List.filter].
  - rewrite !app_nil_r. repeat split.
  - match goal with |- context [List.fold_left ?f r ?g'] =>
      specialize (IH g') end.
    cbn zeta in IH. destruct IH as (H1 & H2 & H3 & H4).
    rewrite H1, H2, H3, H4. clear H1 H2 H3 H4.
    change (threshold "stop_ship") with 85. change (threshold "high") with 65.
    change (threshold "medium") with 50.
    destruct (Z.geb_spec (key x) 85) as [Ha|Ha];
      [|destruct (Z.geb_spec (key x) 65) as [Hb|Hb];
          [|destruct (Z.geb_spec (key x) 50) as [Hc|Hc]]];
      cbn [stop_ship high medium low];
      repeat match goal with
        | |- context [?a <=? ?b] => destruct (Z.leb_spec a b); try lia
        | |- context [?a <? ?b] => destruct (Z.ltb_spec a b); try lia
        end;
      cbn [andb]; rewrite <- ?List.app_assoc; repeat split.
Qed.

End Sorting.

Lemma score_issue_bounds severity impact effort score label :
  score_issue severity impact effort = Ok (score, label) ->
  0 <= score <= 80 /\ label <> LABEL_STOP_SHIP.
Proof.
  unfold score_issue.
  destruct (table_get SEVERITY_SCORES _) as [sev|] eqn:Hs; [|discriminate].
  destruct (table_get IMPACT_SCORES _) as [imp|] eqn:Hi; [|discriminate].
  destruct (table_get EFFORT_PENALTY _) as [pen|] eqn:He; [|discriminate].
  apply PriorityScorerProps.table_get_severity in Hs.
  apply PriorityScorerProps.table_get_impact in Hi.
  apply PriorityScorerProps.table_get_effort in He.
  intros [= <- <-].
  destruct Hs as [->|[->|[->| ->]]]; destruct Hi as [->|[->| ->]];
    destruct He as [->|[->| ->]]; (split; [lia|vm_compute; discriminate]).
Qed.

Lemma score_issue_raises severity impact effort e :
  score_issue severity impact effort = Raise e -> exists msg, e = ValueError msg.
Proof.
  unfold score_issue.
  destruct (table_get SEVERITY_SCORES _); [|intros [= <-]; eauto].
  destruct (table_get IMPACT_SCORES _); [|intros [= <-]; eauto].
  destruct (table_get EFFORT_PENALTY _); [discriminate|intros [= <-]; eauto].
Qed.

(** X11: The scorer never gives out the STOP-SHIP label: the greatest score
    it can compute is 80 (critical, high impact, low effort), below the
    threshold of 85.  Every score is between 0 and 80, the only
    exception raised is ValueError, and levels that differ only in case
    get the same result. *)
Theorem score_issue_never_stop_ship severity impact effort :
  match score_issue severity impact effort with
  | Ok (score, label) => 0 <= score <= 80 /\ label <> LABEL_STOP_SHIP
  | Raise e => exists msg, e = ValueError msg
  end /\
  forall severity' impact' effort',
    lower severity' = lower severity -> lower impact' = lower impact ->
    lower effort' = lower effort ->
    score_issue severity' impact' effort' = score_issue severity impact effort.
Proof.
  split.
  - destruct (score_issue severity impact effort) as [[score label]|e] eqn:H.
    + eapply score_issue_bounds; eassumption.
    + eapply score_issue_raises; eassumption.
  - intros severity' impact' effort' Hs Hi He. unfold score_issue.
    rewrite Hs, Hi, He. reflexivity.
Qed.

Lemma score_one_inr issue scored :
  score_one issue = inr scored ->
  exists score label,
    scored = <["priority_label" := JStr label]> (<["priority_score" := JInt score]> issue) /\
    0 <= score <= 80 /\ label <> LABEL_STOP_SHIP /\ priority_of scored = score.
Proof.
  unfold score_one.
  destruct (issue !! "severity") as [[| | |severity|]|]; try discriminate.
  all: destruct (issue !! "impact") as [[| | |impact|]|]; try discriminate.
  all: destruct (issue !! "effort") as [[| | |effort|]|]; try discriminate.
  destruct (score_issue severity impact effort) as [[score label]|e] eqn:H;
    [|discriminate].
  intros [= <-]. exists score, label.
  destruct (score_issue_bounds _ _ _ _ _ H) as [Hb Hl].
  split; [reflexivity|]. split; [exact Hb|]. split; [exact Hl|].
  unfold priority_of. rewrite lookup_insert_ne by discriminate.
  rewrite lookup_insert_eq. reflexivity.
Qed.

Lemma score_all_inr issues scored :
  score_all issues = inr scored ->
  Forall2 (fun issue scored_issue => score_one issue = inr scored_issue) issues scored.
Proof.
  revert scored. induction issues as [|issue r IH]; intros scored; cbn [score_all].
  - intros [= <-]. constructor.
  - destruct (score_one issue) as [e|s] eqn:Hone; [discriminate|].
    destruct (score_all r) as [e|ss]; [discriminate|].
    intros [= <-]. constructor; [exact Hone|apply IH; reflexivity].
Qed.

Lemma score_all_inl issues e :
  score_all issues = inl e ->
  exists i issue, issues !! i = Some issue /\ score_one issue = inl e /\
    forall j earlier, (j < i)%nat -> issues !! j = Some earlier ->
                      exists scored_issue, score_one earlier = inr scored_issue.
Proof.
  induction issues as [|issue r IH]; cbn [score_all]; [discriminate|].
  destruct (score_one issue) as [e'|s] eqn:Hone.
  - intros [= <-]. exists 0%nat, issue. split; [reflexivity|]. split; [exact Hone|].
    intros j earlier Hj. lia.
  - destruct (score_all r) as [e'|ss]; [|discriminate].
    intros [= <-]. destruct (IH eq_refl) as (i & bad & Hi & Hbad & Hearlier).
    exists (S i), bad. split; [exact Hi|]. split; [exact Hbad|].
    intros [|j] earlier Hj Hlook.
    + injection Hlook as <-. eauto.
    + apply (Hearlier j); [lia|exact Hlook].
Qed.

(** X12: [score_issues] returns the issues, each with its score and label
    added, sorted by descending score; issues with the same score keep
    the order they came in.  When an issue cannot be scored, the call
    raises what the first such issue raises and returns nothing. *)
Theorem score_issues_sorted issues :
  match score_issues issues with
  | inr out =>
      exists scored,
        Forall2 (fun issue scored_issue => score_one issue = inr scored_issue)
                issues scored /\
        out ≡ₚ scored /\
        StronglySorted (desc priority_of) out /\
        forall z, List.filter (fun x => priority_of x =? z) out
                  = List.filter (fun x => priority_of x =? z) scored
  | inl e =>
      exists i issue, issues !! i = Some issue /\ score_one issue = inl e /\
        forall j earlier, (j < i)%nat -> issues !! j = Some earlier ->
                          exists scored_issue, score_one earlier = inr scored_issue
  end.
Proof.
  unfold score_issues.
  destruct (score_all issues) as [e|scored] eqn:Hall.
  - apply score_all_inl. exact Hall.
  - exists scored. split; [apply score_all_inr; exact Hall|].
    apply sort_desc_spec.
Qed.

Lemma get_issues_by_severity_filters {T} (score : T -> Z) (issues : list T) :
  let g := get_issues_by_severity score issues in
  stop_ship g = List.filter (fun x => 85 <=? score x) issues /\
  high g = List.filter (fun x => (65 <=? score x) && (score x <? 85)) issues /\
  medium g = List.filter (fun x => (50 <=? score x) && (score x <? 65)) issues /\
  low g = List.filter (fun x => score x <? 50) issues.
Proof.
  intros g.
  destruct (get_issues_by_severity_fold score issues
              {| stop_ship := []; high := []; medium := []; low := [] |})
    as (H1 & H2 & H3 & H4).
  cbn [stop_ship high medium low app] in H1, H2, H3, H4.
  repeat split; assumption.
Qed.

(** X13: [get_issues_by_severity] splits the issues by score into the four
    bands: 85 and more, 65 to 84, 50 to 64, below 50.  Each list holds
    the issues of its band in the order they came in, so every issue is
    in exactly one list. *)
Theorem get_issues_by_severity_bands {T} (score : T -> Z) (issues : list T) :
  let g := get_issues_by_severity score issues in
  stop_ship g = List.filter (fun x => 85 <=? score x) issues /\
  high g = List.filter (fun x => (65 <=? score x) && (score x <? 85)) issues /\
  medium g = List.filter (fun x => (50 <=? score x) && (score x <? 65)) issues /\
  low g = List.filter (fun x => score x <? 50) issues /\
  (stop_ship g ++ high g ++ medium g ++ low g)%list ≡ₚ issues.
Proof.
  intros g.
  destruct (get_issues_by_severity_filters score issues) as (H1 & H2 & H3 & H4).
  fold g in H1, H2, H3, H4.
  do 4 (split; [assumption|]).
  rewrite H1, H2, H3, H4. clear.
  induction issues as [|x r IH]; cbn [List.filter]; [reflexivity|].
  destruct (Z.leb_spec 85 (score x)); destruct (Z.leb_spec 65 (score x));
    destruct (Z.leb_spec 50 (score x)); destruct (Z.ltb_spec (score x) 85);
    destruct (Z.ltb_spec (score x) 65); destruct (Z.ltb_spec (score x) 50);
    try lia; cbn [andb app].
  - constructor. exact IH.
  - symmetry. apply Permutation_cons_app. symmetry. exact IH.
  - rewrite List.app_assoc. symmetry. apply Permutation_cons_app.
    rewrite <- List.app_assoc. symmetry. exact IH.
  - rewrite !List.app_assoc. symmetry. apply Permutation_cons_app.
    rewrite <- !List.app_assoc. symmetry. exact IH.
Qed.

(** X14: Issues scored by [score_issues] never stop the ship: none of them
    lands in the [stop_ship] list of [get_issues_by_severity], and handed
    to the moderator as pattern issues they never turn its
    recommendation into STOP-SHIP. *)
Theorem scored_issues_never_stop_ship issues out :
  score_issues issues = inr out ->
  stop_ship (get_issues_by_severity priority_of out) = [] /\
  forall consensus_score score_difference,
    FastModerator._generate_recommendation consensus_score score_difference
      (Some (pattern_issue <$> out))
    = FastModerator._generate_recommendation consensus_score score_difference None.
Proof.
  unfold score_issues.
  destruct (score_all issues) as [e|scored] eqn:Hall; [discriminate|].
  intros [= <-].
  assert (Hscored : Forall (fun x => exists z, x !! "priority_score" = Some (JInt z)
                                             /\ z <= 80) scored).
  { apply score_all_inr in Hall. clear -Hall.
    induction Hall as [|issue s r rs Hone _ IH]; constructor; [|exact IH].
    apply score_one_inr in Hone as (score & label & -> & Hb & _ & _).
    exists score. rewrite lookup_insert_ne by discriminate.
    rewrite lookup_insert_eq. split; [reflexivity|lia]. }
  destruct (sort_desc_spec priority_of scored) as (Hp & _ & _).
  rewrite <- Hp in Hscored. clear Hp Hall.
  set (out := sort_desc priority_of scored) in *.
  split.
  - destruct (get_issues_by_severity_filters priority_of out) as (-> & _).
    induction Hscored as [|x r (z & Hz & Hle) _ IH]; cbn [List.filter]; [reflexivity|].
    unfold priority_of at 1. rewrite Hz.
    destruct (Z.leb_spec 85 z); [lia|exact IH].
  - intros c d. unfold FastModerator._generate_recommendation.
    cbn [default from_option id].
    replace (List.filter _ (pattern_issue <$> out)) with (@nil FastModerator.PatternIssue);
      [reflexivity|].
    induction Hscored as [|x r (z & Hz & Hle) _ IH]; [reflexivity|].
    cbn [fmap list_fmap List.filter]. unfold pattern_issue at 1.
    rewrite Hz. cbn [FastModerator.priority_score default from_option id].
    destruct (Z.geb_spec z 85); [lia|exact IH].
Qed.

(** [scored_issues_never_stop_ship] for the most urgent issue there is. *)
Lemma scored_issues_never_stop_ship_witness :
  let issue : Issue :=
    <["severity" := JStr "critical"]>
    (<["impact" := JStr "high"]> (<["effort" := JStr "low"]> ∅)) in
  let out := [<["priority_label" := JStr LABEL_HIGH]>
              (<["priority_score" := JInt 80]> issue)] in
  stop_ship (get_issues_by_severity priority_of out) = [] /\
  forall consensus_score score_difference,
    FastModerator._generate_recommendation consensus_score score_difference
      (Some (pattern_issue <$> out))
    = FastModerator._generate_recommendation consensus_score score_difference None.
Proof.
  apply (scored_issues_never_stop_ship
           [<["severity" := JStr "critical"]>
            (<["impact" := JStr "high"]> (<["effort" := JStr "low"]> ∅))]).
  vm_compute. reflexivity.
Defined.

End ScoredIssuesProps.

Module ModeratorProps.
Import PyStr PyStrFacts FastModerator SmartRecommender.
Import PyStrProps StringOrderProps.

Lemma level_of_recommendation consensus_score score_difference pattern_issues :
  current_level
    (_generate_recommendation consensus_score score_difference pattern_issues)
  = if negb (Nat.eqb (List.length
                        (List.filter (fun i => default 0 (priority_score i) >=? 85)
                                     (default [] pattern_issues))) 0)
    then 5%nat
    else if consensus_score >=? 85
         then (if score_difference <=? 10 then 0%nat else 1%nat)
         else if consensus_score >=? 70 then 2%nat
              else if consensus_score >=? 50 then 3%nat else 4%nat.
Proof.
  unfold _generate_recommendation, PROCEED_CONFIDENTLY, PROCEED_WITH_CAUTION,
    DISCUSS_FIRST, STRONG_AGREEMENT_THRESHOLD.
  destruct (negb _); [vm_compute; reflexivity|].
  destruct (consensus_score >=? 85);
    [destruct (score_difference <=? 10); vm_compute; reflexivity|].
  destruct (consensus_score >=? 70); [vm_compute; reflexivity|].
  destruct (consensus_score >=? 50); vm_compute; reflexivity.
Qed.

(** X15: On the severity ladder of the smart recommender, the moderator's
    recommendation never gets milder when the consensus score drops or
    the score difference grows, whatever the pattern issues are. *)
Theorem recommendation_level_monotone c c' d d' pattern_issues :
  c <= c' -> d' <= d ->
  (current_level (_generate_recommendation c' d' pattern_issues)
   <= current_level (_generate_recommendation c d pattern_issues))%nat.
Proof.
  intros Hc Hd. rewrite !level_of_recommendation.
  destruct (negb _); [lia|].
  repeat match goal with
    | |- context [?a >=? ?b] => destruct (Z.geb_spec a b)
    | |- context [?a <=? ?b] => destruct (Z.leb_spec a b)
    end; lia.
Qed.

(** [recommendation_level_monotone] for the consensus scores 60 and 90. *)
Lemma recommendation_level_monotone_witness :
  (current_level (_generate_recommendation 90 5 None)
   <= current_level (_generate_recommendation 60 30 None))%nat.
Proof. apply (recommendation_level_monotone 60 90 30 5 None); lia. Defined.

Import Sentences.

Lemma lstrip_head s :
  lstrip s = "" \/ exists c r, lstrip s = String c r /\ is_space c = false.
Proof.
  induction s as [|c r IH]; cbn [lstrip]; [left; reflexivity|].
  destruct (is_space c) eqn:Hc; [exact IH|]. right. eauto.
Qed.

Lemma rstrip_rstrip s : rstrip (rstrip s) = rstrip s.
Proof.
  induction s as [|c r IH]; cbn [rstrip]; [reflexivity|].
  destruct (rstrip r) as [|d r'] eqn:Hr.
  - destruct (is_space c) eqn:Hc; [reflexivity|].
    cbn [rstrip]. rewrite Hc. reflexivity.
  - cbn [rstrip]. cbn [rstrip] in IH. rewrite IH. reflexivity.
Qed.

Lemma rstrip_head c r :
  is_space c = false -> exists r', rstrip (String c r) = String c r'.
Proof.
  intros Hc. cbn [rstrip]. destruct (rstrip r); [rewrite Hc|]; eauto.
Qed.

Lemma strip_strip s : strip (strip s) = strip s.
Proof.
  unfold strip. destruct (lstrip_head s) as [->|(c & r & -> & Hc)]; [reflexivity|].
  destruct (rstrip_head c r Hc) as [r' Hr]. rewrite Hr.
  cbn [lstrip]. rewrite Hc, <- Hr. apply rstrip_rstrip.
Qed.

Lemma all_chars_lstrip p s : all_chars p s = true -> all_chars p (lstrip s) = true.
Proof.
  induction s as [|c r IH]; cbn [lstrip]; [reflexivity|].
  destruct (is_space c); [|tauto].
  rewrite all_chars_cons. intros [_ Hr]%andb_true_iff. exact (IH Hr).
Qed.

Lemma all_chars_rstrip p s : all_chars p s = true -> all_chars p (rstrip s) = true.
Proof.
  induction s as [|c r IH]; cbn [rstrip]; [reflexivity|].
  rewrite all_chars_cons. intros [Hc Hr]%andb_true_iff. specialize (IH Hr).
  destruct (rstrip r) as [|d r'].
  - destruct (is_space c); [reflexivity|].
    rewrite all_chars_cons, Hc. reflexivity.
  - rewrite all_chars_cons, Hc. exact IH.
Qed.

Lemma all_chars_strip p s : all_chars p s = true -> all_chars p (strip s) = true.
Proof. intros H. apply all_chars_rstrip, all_chars_lstrip, H. Qed.

Lemma re_split_inner s :
  forall cur in_run,
    all_chars inner_char cur = true ->
    Forall (fun piece => all_chars inner_char piece = true) (re_split s cur in_run).
Proof.
  induction s as [|c r IH]; intros cur in_run Hcur; cbn [re_split].
  - repeat constructor. exact Hcur.
  - destruct (is_sentence_end c) eqn:Hc.
    + destruct in_run; [apply IH; reflexivity|].
      constructor; [exact Hcur|apply IH; reflexivity].
    + apply IH. rewrite all_chars_app, Hcur, all_chars_cons.
      unfold inner_char at 1. rewrite Hc. reflexivity.
Qed.

Lemma split_sentences_sentence text : Forall sentence (_split_sentences text).
Proof.
  unfold _split_sentences.
  pose proof (re_split_inner text "" false eq_refl) as H.
  induction H as [|piece r Hp _ IH]; cbn [List.filter fmap list_fmap]; [constructor|].
  destruct (String.eqb_spec (strip piece) "") as [He|Hne]; cbn [negb]; [exact IH|].
  cbn [fmap list_fmap]. constructor; [|exact IH].
  split; [exact Hne|]. split; [apply strip_strip|apply all_chars_strip, Hp].
Qed.

Lemma firstn_le_5 {A} (l : list A) : (List.length (List.firstn 5 l) <= 5)%nat.
Proof. apply List.firstn_le_length. Qed.

Lemma Forall_firstn {A} (P : A -> Prop) n l : Forall P l -> Forall P (List.firstn n l).
Proof.
  intros H. revert n. induction H as [|x r Hx _ IH]; intros [|n]; cbn [List.firstn];
    constructor; auto.
Qed.

Lemma add_new_Forall (P : string -> Prop) sentences :
  forall agreements,
    Forall P agreements ->
    Forall (fun s => any_in agreement_keywords (lower s) = true -> P (strip s)) sentences ->
    Forall P (add_new agreements sentences).
Proof.
  induction sentences as [|s r IH]; intros agreements Ha Hs; cbn [add_new]; [exact Ha|].
  apply Forall_cons_1 in Hs as [Hhead Hrest].
  destruct (any_in agreement_keywords (lower s)) eqn:Hkw; [|apply IH; assumption].
  destruct (bool_decide _); [apply IH; assumption|].
  apply IH; [|exact Hrest].
  apply Forall_app. split; [exact Ha|]. repeat constructor. apply Hhead. reflexivity.
Qed.


End ModeratorProps.

Module RecommendationSeverityProps.
Import PyStr FastModerator SmartRecommender RecommendationSeverity.

(** The recommendations the moderator gives out. *)
Lemma recommendation_cases consensus_score score_difference pattern_issues :
  List.In (_generate_recommendation consensus_score score_difference pattern_issues)
    [ "[STOP-SHIP] Critical issues found";
      "[PROCEED CONFIDENTLY] Strong consensus";
      "[PROCEED] Good consensus with minor concerns";
      "[CAUTION] Address key concerns first";
      "[DISCUSS FIRST] Resolve disagreements before proceeding";
      "[RECONSIDER] Fundamental disagreements require rethinking" ].
Proof.
  unfold _generate_recommendation.
  repeat match goal with |- context [if ?b then _ else _] => destruct b end;
    cbn; tauto.
Qed.

Lemma new_level_range r k : 0 <= new_level r k <= 5.
Proof. unfold new_level. change (Z.of_nat (List.length severity_levels) - 1) with 5. lia. Qed.

(** X17: Adjusting a recommendation of the moderator moves it on the severity
    ladder by the change asked for, as far as the ladder goes, and keeps
    its message: the result is the tag of the new level in front of the
    message of the old one.  A change of 0 gives the recommendation
    back. *)
Theorem adjust_moderator_recommendation
    consensus_score score_difference pattern_issues severity_change :
  let r := _generate_recommendation consensus_score score_difference pattern_issues in
  let adjusted := _adjust_recommendation_severity r severity_change in
  Z.of_nat (current_level adjusted)
  = Z.max 0 (Z.min (Z.of_nat (current_level r) + severity_change) 5) /\
  adjusted = level_tag adjusted ++ " " ++ message_of r /\
  message_of adjusted = message_of r /\
  _adjust_recommendation_severity r 0 = r.
Proof.
  intros r adjusted. subst adjusted.
  pose proof (recommendation_cases consensus_score score_difference pattern_issues) as Hr.
  fold r in Hr.
  pose proof (new_level_range r severity_change) as Hn.
  unfold _adjust_recommendation_severity.
  assert (Hlevel : Z.max 0 (Z.min (Z.of_nat (current_level r) + severity_change) 5)
                   = new_level r severity_change) by reflexivity.
  rewrite Hlevel.
  assert (Hzero : new_level r 0 = Z.of_nat (current_level r)).
  { unfold new_level. change (Z.of_nat (List.length severity_levels) - 1) with 5.
    cbn in Hr.
    destruct Hr as [<-|[<-|[<-|[<-|[<-|[<-|[]]]]]]]; vm_compute; reflexivity. }
  rewrite Hzero, Nat2Z.id.
  assert (Hcases : new_level r severity_change = 0 \/ new_level r severity_change = 1 \/
                   new_level r severity_change = 2 \/ new_level r severity_change = 3 \/
                   new_level r severity_change = 4 \/ new_level r severity_change = 5)
    by lia.
  clear Hn Hlevel Hzero. generalize dependent (new_level r severity_change).
  intros n Hcases. cbn in Hr.
  destruct Hr as [<-|[<-|[<-|[<-|[<-|[<-|[]]]]]]];
    destruct Hcases as [->|[->|[->|[->|[->| ->]]]]];
    vm_compute; repeat split; reflexivity.
Qed.

(** X18: Learning never makes a recommendation of the moderator milder:
    [enhance_debate_result] replaces it only for a positive severity
    change, and then by one that is as many levels more severe, STOP-SHIP
    at most. *)
Theorem enhanced_recommendation_level
    consensus_score score_difference pattern_issues severity_change :
  let r := _generate_recommendation consensus_score score_difference pattern_issues in
  Z.of_nat (current_level (enhanced_recommendation r severity_change))
  = Z.min (Z.of_nat (current_level r) + Z.max 0 severity_change) 5.
Proof.
  intros r. unfold enhanced_recommendation.
  assert (Hr : (current_level r <= 5)%nat).
  { pose proof (recommendation_cases consensus_score score_difference pattern_issues) as Hr.
    fold r in Hr. cbn in Hr.
    destruct Hr as [<-|[<-|[<-|[<-|[<-|[<-|[]]]]]]]; vm_compute; lia. }
  destruct (Z.gtb_spec severity_change 0) as [Hpos|Hneg]; [|lia].
  pose proof (new_level_range r severity_change) as Hn.
  assert (Hcases : new_level r severity_change = 0 \/ new_level r severity_change = 1 \/
                   new_level r severity_change = 2 \/ new_level r severity_change = 3 \/
                   new_level r severity_change = 4 \/ new_level r severity_change = 5)
    by lia.
  assert (Hgoal : Z.min (Z.of_nat (current_level r) + Z.max 0 severity_change) 5
                  = new_level r severity_change).
  { unfold new_level. change (Z.of_nat (List.length severity_levels) - 1) with 5. lia. }
  rewrite Hgoal. unfold _adjust_recommendation_severity.
  clear Hn Hgoal Hr. generalize dependent (new_level r severity_change).
  intros n Hcases.
  pose proof (recommendation_cases consensus_score score_difference pattern_issues) as Hr.
  fold r in Hr. cbn in Hr.
  destruct Hr as [<-|[<-|[<-|[<-|[<-|[<-|[]]]]]]];
    destruct Hcases as [->|[->|[->|[->|[->| ->]]]]];
    vm_compute; reflexivity.
Qed.

End RecommendationSeverityProps.

Module CacheMaintenanceProps.
Import PyStr PyStrFacts DebateCache CacheMaintenance.
Import StringOrderProps.

Section Directory.
Context {R : Type}.
Implicit Types (dir : gmap string (CacheFile R)) (f : CacheFile R).

Lemma glob_json_elem dir k f :
  (k, f) ∈ glob_json dir <-> dir !! k = Some f /\ endswith ".json" k = true.
Proof.
  unfold glob_json. rewrite list_elem_of_In, List.filter_In, <- list_elem_of_In.
  rewrite elem_of_map_to_list. reflexivity.
Qed.

Lemma NoDup_fst_filter (p : string * CacheFile R -> bool) (l : list (string * CacheFile R)) :
  NoDup (l.*1) -> NoDup ((List.filter p l).*1).
Proof.
  induction l as [|[k f] l IH]; cbn [List.filter fmap list_fmap]; [constructor|].
  intros [Hk Hl]%NoDup_cons. destruct (p (k, f)); [|exact (IH Hl)].
  cbn [fmap list_fmap]. apply NoDup_cons. split; [|exact (IH Hl)].
  intros Hin. apply Hk. apply list_elem_of_fmap in Hin as ([k' f'] & -> & Hin).
  apply list_elem_of_In, List.filter_In in Hin as [Hin _].
  apply list_elem_of_fmap. exists (k', f'). split; [reflexivity|].
  apply list_elem_of_In. exact Hin.
Qed.

Lemma glob_json_NoDup dir : NoDup ((glob_json dir).*1).
Proof. apply NoDup_fst_filter, NoDup_fst_map_to_list. Qed.

(** What the unlinking loop leaves, for a listing without repeated
    names of files that are in the directory. *)
Lemma unlink_each_fold (doomed : CacheFile R -> bool) (files : list (string * CacheFile R)) :
  NoDup (files.*1) ->
  forall dir n,
    (forall k f, (k, f) ∈ files -> dir !! k = Some f) ->
    let out :=
      List.fold_left
        (fun '(dir, cleared) '(name, f) =>
           if doomed f then (delete name dir, cleared + 1) else (dir, cleared))
        files (dir, n) in
    (forall k, fst out !! k
               = match dir !! k with
                 | Some f => if bool_decide (k ∈ files.*1) && doomed f
                             then None else Some f
                 | None => None
                 end) /\
    snd out = n + Z.of_nat (List.length (List.filter (fun e => doomed (snd e)) files)).
Proof.
  induction files as [|[name f] files IH]; intros Hnd dir n Hin; cbn [List.fold_left].
  - split; [|cbn; lia]. intros k. cbn [fst]. destruct (dir !! k); [|reflexivity].
    rewrite bool_decide_eq_false_2; [reflexivity|]. apply not_elem_of_nil.
  - cbn [fmap list_fmap] in Hnd. apply NoDup_cons in Hnd as [Hname Hnd].
    assert (Hf : dir !! name = Some f) by (apply Hin; constructor).
    assert (Hrest : forall k g, (k, g) ∈ files -> k <> name).
    { intros k g Hk ->. apply Hname. apply list_elem_of_fmap. exists (name, g). auto. }
    assert (Hother : forall k, k <> name ->
              bool_decide (k ∈ ((name, f) :: files).*1) = bool_decide (k ∈ files.*1)).
    { intros k Hne. apply bool_decide_ext. cbn [fmap list_fmap].
      rewrite elem_of_cons. cbn [fst]. tauto. }
    cbn [List.filter snd List.length]. destruct (doomed f) eqn:Hd.
    + destruct (IH Hnd (delete name dir) (n + 1)) as [Hlook Hcount].
      { intros k g Hk. rewrite lookup_delete_ne by (apply not_eq_sym, (Hrest k g Hk)).
        apply Hin. right. exact Hk. }
      split; [|rewrite Hcount; cbn [List.length]; lia].
      intros k. rewrite Hlook. destruct (decide (k = name)) as [->|Hne].
      * rewrite lookup_delete_eq, Hf, Hd.
        rewrite bool_decide_eq_true_2 by (cbn [fmap list_fmap]; constructor).
        reflexivity.
      * rewrite lookup_delete_ne by congruence. rewrite (Hother k Hne). reflexivity.
    + destruct (IH Hnd dir n) as [Hlook Hcount].
      { intros k g Hk. apply Hin. right. exact Hk. }
      split; [|exact Hcount].
      intros k. rewrite Hlook. destruct (dir !! k) as [g|] eqn:Hg; [|reflexivity].
      destruct (decide (k = name)) as [->|Hne].
      * assert (g = f) as -> by congruence. rewrite Hd, !andb_false_r. reflexivity.
      * rewrite (Hother k Hne). reflexivity.
Qed.

Lemma unlink_each_spec (doomed : CacheFile R -> bool) dir :
  let out := unlink_each doomed (glob_json dir) dir in
  (forall k, fst out !! k
             = match dir !! k with
               | Some f => if endswith ".json" k && doomed f then None else Some f
               | None => None
               end) /\
  snd out = Z.of_nat (List.length (List.filter (fun e => doomed (snd e)) (glob_json dir))).
Proof.
  destruct (unlink_each_fold doomed (glob_json dir) (glob_json_NoDup dir) dir 0)
    as [Hlook Hcount].
  { intros k f Hk. apply glob_json_elem in Hk as [Hk _]. exact Hk. }
  split; [|exact Hcount].
  intros k. unfold unlink_each. rewrite Hlook.
  destruct (dir !! k) as [f|] eqn:Hf; [|reflexivity].
  rewrite (bool_decide_ext _ (endswith ".json" k = true)).
  - destruct (endswith ".json" k); [rewrite bool_decide_eq_true_2 by reflexivity
                                   |rewrite bool_decide_eq_false_2 by discriminate];
      reflexivity.
  - rewrite list_elem_of_fmap. split.
    + intros ([k' f'] & -> & Hin). apply glob_json_elem in Hin as [_ Hin]. exact Hin.
    + intros Hjson. exists (k, f). split; [reflexivity|].
      apply glob_json_elem. auto.
Qed.

Lemma get_stats_fold now (c : Cache R) (files : list (string * CacheFile R)) :
  forall s,
    let out :=
      List.fold_left
        (fun stats '(_, f) =>
           if expired now c f then
             {| total_entries := total_entries stats + 1;
                valid_entries := valid_entries stats;
                expired_entries := expired_entries stats + 1 |}
           else
             {| total_entries := total_entries stats + 1;
                valid_entries := valid_entries stats + 1;
                expired_entries := expired_entries stats |})
        files s in
    total_entries out = total_entries s + Z.of_nat (List.length files) /\
    valid_entries out
    = valid_entries s
      + Z.of_nat (List.length (List.filter (fun e => negb (expired now c (snd e))) files)) /\
    expired_entries out
    = expired_entries s
      + Z.of_nat (List.length (List.filter (fun e => expired now c (snd e)) files)).
Proof.
  induction files as [|[name f] files IH]; intros s; cbn [List.fold_left].
  - cbn. lia.
  - cbn zeta in IH. cbn [List.filter List.length snd].
    destruct (expired now c f); cbn [negb];
      match goal with |- context [List.fold_left _ files ?s'] =>
        destruct (IH s') as (H1 & H2 & H3) end;
      rewrite H1, H2, H3; cbn [total_entries valid_entries expired_entries List.length];
      lia.
Qed.

Lemma cache_file_name_json prompt file_hash :
  endswith ".json" (cache_file_name prompt file_hash) = true.
Proof. unfold cache_file_name. apply endswith_app. Qed.

Lemma clear_expired_lookup now (c : Cache R) :
  ttl (fst (clear_expired now c)) = ttl c /\
  (forall k, cache_dir (fst (clear_expired now c)) !! k
             = match cache_dir c !! k with
               | Some f => if endswith ".json" k && expired now c f then None else Some f
               | None => None
               end) /\
  snd (clear_expired now c)
  = Z.of_nat (List.length (List.filter (fun e => expired now c (snd e))
                                       (glob_json (cache_dir c)))).
Proof.
  unfold clear_expired.
  destruct (unlink_each_spec (expired now c) (cache_dir c)) as [Hlook Hcount].
  destruct (unlink_each _ _ _) as [dir cleared]. cbn [fst snd cache_dir ttl with_dir] in *.
  auto.
Qed.

Lemma clear_all_lookup (c : Cache R) :
  ttl (fst (clear_all c)) = ttl c /\
  (forall k, cache_dir (fst (clear_all c)) !! k
             = if endswith ".json" k then None else cache_dir c !! k) /\
  snd (clear_all c) = Z.of_nat (List.length (glob_json (cache_dir c))).
Proof.
  unfold clear_all.
  destruct (unlink_each_spec (fun _ => true) (cache_dir c)) as [Hlook Hcount].
  destruct (unlink_each _ _ _) as [dir cleared]. cbn [fst snd cache_dir ttl with_dir] in *.
  split; [reflexivity|]. split.
  - intros k. rewrite Hlook. destruct (cache_dir c !! k); [|destruct (endswith _ _); reflexivity].
    rewrite andb_true_r. reflexivity.
  - rewrite Hcount. f_equal. f_equal. clear.
    induction (glob_json (cache_dir c)) as [|e l IH]; cbn [List.filter]; congruence.
Qed.

Lemma get_stats_counts now (c : Cache R) :
  total_entries (get_stats now c) = Z.of_nat (List.length (glob_json (cache_dir c))) /\
  valid_entries (get_stats now c)
  = Z.of_nat (List.length (List.filter (fun e => negb (expired now c (snd e)))
                                       (glob_json (cache_dir c)))) /\
  expired_entries (get_stats now c)
  = Z.of_nat (List.length (List.filter (fun e => expired now c (snd e))
                                       (glob_json (cache_dir c)))).
Proof.
  destruct (get_stats_fold now c (glob_json (cache_dir c))
              {| total_entries := 0; valid_entries := 0; expired_entries := 0 |})
    as (H1 & H2 & H3).
  cbn [total_entries valid_entries expired_entries] in H1, H2, H3.
  unfold get_stats. rewrite H1, H2, H3. repeat split; lia.
Qed.

Lemma filter_Permutation_length {A} (p : A -> bool) (l1 l2 : list A) :
  l1 ≡ₚ l2 -> List.length (List.filter p l1) = List.length (List.filter p l2).
Proof.
  induction 1 as [|x l1 l2 _ IH|x y l|l1 l2 l3 _ IH1 _ IH2]; cbn [List.filter].
  - reflexivity.
  - destruct (p x); cbn [List.length]; congruence.
  - destruct (p x), (p y); reflexivity.
  - congruence.
Qed.

Lemma filter_length_split {A} (p : A -> bool) (l : list A) :
  List.length l
  = (List.length (List.filter (fun e => negb (p e)) l)
     + List.length (List.filter p l))%nat.
Proof.
  induction l as [|x l IH]; cbn [List.filter List.length]; [reflexivity|].
  destruct (p x); cbn [negb List.length]; lia.
Qed.

Lemma NoDup_list_filter {A} (p : A -> bool) (l : list A) :
  NoDup l -> NoDup (List.filter p l).
Proof.
  induction 1 as [|x l Hx _ IH]; cbn [List.filter]; [constructor|].
  destruct (p x); [|exact IH]. constructor; [|exact IH].
  intros Hin. apply Hx. apply list_elem_of_In, List.filter_In in Hin as [Hin _].
  apply list_elem_of_In. exact Hin.
Qed.

(** The listing of a directory from which files have been removed. *)
Lemma glob_json_removed dir dir' (gone : string -> CacheFile R -> bool) :
  (forall k, dir' !! k = match dir !! k with
                         | Some f => if gone k f then None else Some f
                         | None => None
                         end) ->
  glob_json dir' ≡ₚ List.filter (fun e => negb (gone (fst e) (snd e))) (glob_json dir).
Proof.
  intros Hlook. apply NoDup_Permutation.
  - eapply NoDup_fmap_1. apply glob_json_NoDup.
  - apply NoDup_list_filter. eapply NoDup_fmap_1. apply glob_json_NoDup.
  - intros [k f]. rewrite glob_json_elem.
    rewrite (list_elem_of_In (List.filter _ _)), List.filter_In, <- list_elem_of_In.
    rewrite glob_json_elem, Hlook. cbn [fst snd].
    destruct (dir !! k) as [g|]; [|split; [intros [? _]|intros [[? _] _]]; discriminate].
    destruct (gone k g) eqn:Hg.
    + split; [intros [? _]; discriminate|].
      intros [[[= ->] _] Hn]. rewrite Hg in Hn. discriminate.
    + split.
      * intros [[= ->] Hj]. rewrite Hg. auto.
      * intros [[[= ->] Hj] _]. auto.
Qed.

End Directory.

(** X19: Clearing the expired entries changes no lookup.  Whatever [get]
    returns for a prompt and file hash at some time, it returns the same
    after a [clear_expired] at that time; the call only removes files,
    and only expired ones whose name ends in [.json]. *)
Theorem get_after_clear_expired {R} now (c : Cache R) prompt file_hash :
  let c' := fst (clear_expired now c) in
  snd (get now c' prompt file_hash) = snd (get now c prompt file_hash) /\
  forall k,
    cache_dir c' !! k = cache_dir c !! k \/
    (cache_dir c' !! k = None /\ endswith ".json" k = true /\
     exists f, cache_dir c !! k = Some f /\ now - st_mtime f > ttl c).
Proof.
  intros c'. destruct (clear_expired_lookup now c) as (Httl & Hlook & _).
  fold c' in Httl, Hlook. split.
  - unfold get. rewrite Httl, Hlook, cache_file_name_json. cbn [andb].
    destruct (cache_dir c !! cache_file_name prompt file_hash) as [f|]; [|reflexivity].
    unfold expired. destruct (now - st_mtime f >? ttl c) eqn:He; cbv beta iota;
      [reflexivity|]. rewrite He.
    destruct (data f) as [cached_at stored response|]; [|reflexivity].
    destruct (hash_given file_hash && negb (bool_decide (stored = file_hash))); reflexivity.
  - intros k. rewrite Hlook. destruct (cache_dir c !! k) as [f|]; [|left; reflexivity].
    destruct (endswith ".json" k) eqn:Hj; [|left; reflexivity]. cbn [andb].
    unfold expired. destruct (Z.gtb_spec (now - st_mtime f) (ttl c)); [|left; reflexivity].
    right. split; [reflexivity|]. split; [reflexivity|]. exists f. split; [reflexivity|lia].
Qed.

(** X20: [clear_expired] and [get_stats] agree: the number the first returns
    is the number of expired entries the second counts at that time,
    the total is the sum of the valid and the expired entries, and
    after the clearing the statistics show the valid entries of before
    and no expired one. *)
Theorem clear_expired_stats {R} now (c : Cache R) :
  let before := get_stats now c in
  let after := get_stats now (fst (clear_expired now c)) in
  snd (clear_expired now c) = expired_entries before /\
  total_entries before = valid_entries before + expired_entries before /\
  total_entries after = valid_entries before /\
  valid_entries after = valid_entries before /\
  expired_entries after = 0.
Proof.
  intros before after.
  destruct (clear_expired_lookup now c) as (Httl & Hlook & Hcount).
  destruct (get_stats_counts now c) as (H1 & H2 & H3). fold before in H1, H2, H3.
  destruct (get_stats_counts now (fst (clear_expired now c))) as (H1' & H2' & H3').
  fold after in H1', H2', H3'.
  pose proof (glob_json_removed (cache_dir c) (cache_dir (fst (clear_expired now c)))
                (fun k f => endswith ".json" k && expired now c f) Hlook) as Hperm.
  assert (Hkept : List.filter
                    (fun e => negb (endswith ".json" (fst e) && expired now c (snd e)))
                    (glob_json (cache_dir c))
                  = List.filter (fun e => negb (expired now c (snd e)))
                                (glob_json (cache_dir c))).
  { apply List.filter_ext_in. intros [k f] Hin.
    apply list_elem_of_In, glob_json_elem in Hin as [_ Hj]. cbn [fst snd].
    rewrite Hj. reflexivity. }
  cbv beta in Hperm. rewrite Hkept in Hperm. clear Hkept.
  assert (Hexp : forall f, expired now (fst (clear_expired now c)) f = expired now c f).
  { intros f. unfold expired. rewrite Httl. reflexivity. }
  set (kept := List.filter (fun e => negb (expired now c (snd e)))
                           (glob_json (cache_dir c))) in *.
  assert (Hk1 : List.filter (fun e => negb (expired now c (snd e))) kept = kept).
  { subst kept. clear. induction (glob_json (cache_dir c)) as [|e l IH];
      cbn [List.filter]; [reflexivity|].
    destruct (expired now c (snd e)) eqn:He; cbn [negb List.filter]; [exact IH|].
    rewrite He. cbn [negb]. rewrite IH. reflexivity. }
  assert (Hk2 : List.filter (fun e => expired now c (snd e)) kept = []).
  { subst kept. clear. induction (glob_json (cache_dir c)) as [|e l IH];
      cbn [List.filter]; [reflexivity|].
    destruct (expired now c (snd e)) eqn:He; cbn [negb List.filter]; [exact IH|].
    rewrite He. exact IH. }
  split; [rewrite Hcount, H3; reflexivity|].
  split.
  { pose proof (filter_length_split (fun e => expired now c (snd e))
                  (glob_json (cache_dir c))) as Hsplit.
    cbv beta in Hsplit. fold kept in Hsplit. rewrite H1, H2, H3. fold kept. lia. }
  split; [rewrite H1', H2, Hperm; reflexivity|].
  split.
  - rewrite H2', H2.
    rewrite (List.filter_ext _ (fun e => negb (expired now c (snd e))))
      by (intros e; rewrite Hexp; reflexivity).
    rewrite (filter_Permutation_length _ _ _ Hperm), Hk1. reflexivity.
  - rewrite H3'.
    rewrite (List.filter_ext _ (fun e => expired now c (snd e)))
      by (intros e; rewrite Hexp; reflexivity).
    rewrite (filter_Permutation_length _ _ _ Hperm), Hk2. reflexivity.
Qed.

(** X21: After [clear_all] every lookup misses, whatever the prompt, the file
    hash and the time, and the statistics are all zero.  The call
    returns the number of entries there were and leaves files whose
    name does not end in [.json] alone. *)
Theorem get_after_clear_all {R} (c : Cache R) :
  let c' := fst (clear_all c) in
  (forall now prompt file_hash, get now c' prompt file_hash = (c', None)) /\
  (forall now, get_stats now c'
               = {| total_entries := 0; valid_entries := 0; expired_entries := 0 |}) /\
  (forall now, snd (clear_all c) = total_entries (get_stats now c)) /\
  (forall k, endswith ".json" k = false -> cache_dir c' !! k = cache_dir c !! k).
Proof.
  intros c'. destruct (clear_all_lookup c) as (Httl & Hlook & Hcount).
  fold c' in Httl, Hlook.
  assert (Hempty : glob_json (cache_dir c') = []).
  { destruct (glob_json (cache_dir c')) as [|[k f] l] eqn:Hl; [reflexivity|].
    assert (Hin : (k, f) ∈ glob_json (cache_dir c')) by (rewrite Hl; constructor).
    apply glob_json_elem in Hin as [Hk Hj]. rewrite Hlook, Hj in Hk. discriminate. }
  split; [|split; [|split]].
  - intros now prompt file_hash. unfold get.
    rewrite Hlook, cache_file_name_json. reflexivity.
  - intros now. unfold get_stats. rewrite Hempty. reflexivity.
  - intros now. destruct (get_stats_counts now c) as (-> & _). exact Hcount.
  - intros k Hk. rewrite Hlook, Hk. reflexivity.
Qed.

(** X22: A hit is sound: when [get] returns a response, the looked-up file is
    there, is not older than the TTL, holds that response, was stored
    under the given file hash if one is given, and the cache is left as
    it was.  Hit or miss, no other file is touched. *)
Theorem get_hit_sound {R} now (c : Cache R) prompt file_hash :
  let name := cache_file_name prompt file_hash in
  let c' := fst (get now c prompt file_hash) in
  match snd (get now c prompt file_hash) with
  | Some response =>
      c' = c /\
      exists f cached_at stored,
        cache_dir c !! name = Some f /\ now - st_mtime f <= ttl c /\
        data f = CacheObject cached_at stored (Some response) /\
        (hash_given file_hash = true -> stored = file_hash)
  | None => cache_dir c' !! name = None \/ c' = c
  end /\
  ttl c' = ttl c /\
  forall k, k <> name -> cache_dir c' !! k = cache_dir c !! k.
Proof.
  intros name c'. subst c'. unfold get. fold name.
  destruct (cache_dir c !! name) as [f|] eqn:Hf; cbn [fst snd].
  2:{ split; [left; exact Hf|]. split; reflexivity. }
  assert (Hdel : forall k, k <> name ->
            cache_dir (with_dir c (delete name (cache_dir c))) !! k = cache_dir c !! k).
  { intros k Hk. cbn [cache_dir with_dir]. apply lookup_delete_ne. congruence. }
  assert (Hgone : cache_dir (with_dir c (delete name (cache_dir c))) !! name = None).
  { cbn [cache_dir with_dir]. apply lookup_delete_eq. }
  destruct (Z.gtb_spec (now - st_mtime f) (ttl c)) as [Hold|Hfresh]; cbn [fst snd].
  { split; [left; exact Hgone|]. split; [reflexivity|exact Hdel]. }
  destruct (data f) as [cached_at stored response|] eqn:Hdata; cbn [fst snd].
  2:{ split; [left; exact Hgone|]. split; [reflexivity|exact Hdel]. }
  destruct (hash_given file_hash) eqn:Hh; cbn [andb].
  - destruct (bool_decide (stored = file_hash)) eqn:Hs; cbn [negb fst snd].
    + apply bool_decide_eq_true in Hs.
      split; [|split; reflexivity].
      destruct response as [response|]; [|right; reflexivity].
      split; [reflexivity|]. exists f, cached_at, stored. auto.
    + split; [left; exact Hgone|]. split; [reflexivity|exact Hdel].
  - cbn [fst snd]. split; [|split; reflexivity].
    destruct response as [response|]; [|right; reflexivity].
    split; [reflexivity|]. exists f, cached_at, stored.
    repeat split; auto. discriminate.
Qed.

Lemma le_bytes_bytes k : forall n,
  List.length (MD5.le_bytes k n) = k /\
  Forall (fun b => 0 <= b < 256) (MD5.le_bytes k n).
Proof.
  induction k as [|k IH]; intros n; cbn [MD5.le_bytes List.length].
  - split; [reflexivity|constructor].
  - destruct (IH (Z.shiftr n 8)) as [Hl Hb]. split; [congruence|].
    constructor; [|exact Hb].
    change 255 with (Z.ones 8). rewrite Z.land_ones by lia.
    apply Z.mod_pos_bound. lia.
Qed.

Lemma digest_bytes msg :
  List.length (MD5.digest msg) = 16%nat /\
  Forall (fun b => 0 <= b < 256) (MD5.digest msg).
Proof.
  unfold MD5.digest. destruct (MD5.process _ _ _) as [[[a b] c] d].
  destruct (le_bytes_bytes 4 a) as [La Ha]. destruct (le_bytes_bytes 4 b) as [Lb Hb].
  destruct (le_bytes_bytes 4 c) as [Lc Hc]. destruct (le_bytes_bytes 4 d) as [Ld Hd].
  split.
  - rewrite !List.length_app, La, Lb, Lc, Ld. reflexivity.
  - repeat (apply Forall_app; split); assumption.
Qed.

Lemma hex_digit_hex n : 0 <= n < 16 -> is_hex (MD5.hex_digit n) = true.
Proof.
  intros Hn. rewrite <- (Z2Nat.id n) by lia.
  assert (Hk : (Z.to_nat n < 16)%nat) by lia.
  generalize dependent (Z.to_nat n). intros k Hk.
  do 16 (destruct k as [|k]; [reflexivity|]). lia.
Qed.

Lemma hex_chars bs :
  Forall (fun b => 0 <= b < 256) bs ->
  String.length (MD5.hex bs) = (2 * List.length bs)%nat /\
  all_chars is_hex (MD5.hex bs) = true.
Proof.
  induction 1 as [|b bs Hb _ [IHl IHc]]; cbn [MD5.hex String.length List.length all_chars].
  - split; reflexivity.
  - split; [lia|].
    rewrite !hex_digit_hex, IHc; [reflexivity| |].
    + apply Z.mod_pos_bound. lia.
    + split; [apply Z.div_pos; lia|apply Z.div_lt_upper_bound; lia].
Qed.

Lemma substring_prefix p n : forall s,
  (n <= String.length s)%nat -> all_chars p s = true ->
  String.length (String.substring 0 n s) = n /\
  all_chars p (String.substring 0 n s) = true.
Proof.
  induction n as [|n IH]; intros [|c s] Hn Hs; cbn [String.substring String.length] in *;
    try (split; reflexivity); try lia.
  cbn [all_chars] in Hs. apply andb_true_iff in Hs as [Hc Hs].
  destruct (IH s ltac:(lia) Hs) as [Hl Hp].
  cbn [String.length all_chars]. rewrite Hl, Hc, Hp. split; reflexivity.
Qed.

(** X23: A cache key is 16 characters long and made of digits and the letters
    a to f; the cache file is named after it with the ending [.json], so
    that the maintenance calls find it.  An empty file hash counts as
    none. *)
Theorem cache_key_format prompt file_hash :
  String.length (_generate_cache_key prompt file_hash) = 16%nat /\
  all_chars is_hex (_generate_cache_key prompt file_hash) = true /\
  endswith ".json" (cache_file_name prompt file_hash) = true /\
  _generate_cache_key prompt (Some "") = _generate_cache_key prompt None.
Proof.
  unfold _generate_cache_key at 1 2. unfold MD5.hexdigest.
  set (msg := MD5.bytes_of _).
  destruct (digest_bytes msg) as [Hl Hb].
  destruct (hex_chars _ Hb) as [Hhl Hhc]. rewrite Hl in Hhl.
  destruct (substring_prefix is_hex 16 (MD5.hex (MD5.digest msg))) as [H1 H2];
    [rewrite Hhl; cbn; lia|exact Hhc|].
  split; [exact H1|]. split; [exact H2|].
  split; [apply cache_file_name_json|reflexivity].
Qed.

End CacheMaintenanceProps.

Module EngineInvariantProps.
Import IterativeDebateEngine EngineRuns EngineInvariant.

Lemma set_is_best_fmap {A} (f : IterData -> A) b (h : list IterData) :
  (forall d, f (set_is_best b d) = f d) -> f <$> (set_is_best b <$> h) = f <$> h.
Proof.
  intros Hf. induction h as [|d h IH]; cbn [fmap list_fmap]; [reflexivity|].
  cbn [fmap list_fmap] in IH. rewrite Hf, IH. reflexivity.
Qed.

Lemma mark_last_best_app h d : mark_last_best (h ++ [d]) = (h ++ [set_is_best true d])%list.
Proof.
  unfold mark_last_best. rewrite List.rev_app_distr. cbn [List.rev app].
  rewrite List.rev_involutive. reflexivity.
Qed.

Lemma mark_last_best_fmap {A} (f : IterData -> A) (h : list IterData) :
  (forall d, f (set_is_best true d) = f d) -> f <$> mark_last_best h = f <$> h.
Proof.
  intros Hf. destruct h as [|d h' _] using rev_ind; [reflexivity|].
  rewrite mark_last_best_app, !fmap_app. cbn [fmap list_fmap]. rewrite Hf. reflexivity.
Qed.

(** Updating the best result changes the flags of the history only. *)
Lemma update_best_history {A} (f : IterData -> A) e result c it :
  (forall b d, f (set_is_best b d) = f d) ->
  f <$> iteration_history (fst (_update_best_result e result c it))
  = f <$> iteration_history e.
Proof.
  intros Hf. unfold _update_best_result. destruct (c >? best_consensus e); [|reflexivity].
  cbn [fst iteration_history].
  rewrite mark_last_best_fmap by (intros d; apply Hf).
  apply set_is_best_fmap. intros d. apply Hf.
Qed.

Lemma removelast_snoc {A} (l : list A) x : List.removelast (l ++ [x]) = l.
Proof. apply List.removelast_last. Qed.

Lemma last_removelast {A} (P : A -> Prop) (l : list A) x :
  last l = Some x -> Forall P (List.removelast l) -> P x -> Forall P l.
Proof.
  destruct l as [|y l' _] using rev_ind; [discriminate|].
  rewrite last_snoc, removelast_snoc. intros [= ->] Hl Hx.
  apply Forall_app. split; [exact Hl|repeat constructor; exact Hx].
Qed.

Lemma first_iteration_ok target first : run_ok target (first_iteration first).
Proof.
  unfold run_ok, first_iteration. cbn.
  split; [repeat constructor; lia|]. split; [constructor|].
  split; [eauto|]. repeat split. constructor.
Qed.

(** A pass of the loop keeps the invariant. *)
Lemma loop_body_ok cfg target max_it it ev s :
  run_ok target s -> run_ok target (fst (loop_body cfg target max_it it ev s)).
Proof.
  intros Hok. unfold loop_body, _check_stopping_criteria.
  destruct (Z.geb_spec (consensus s) target) as [Hreached|Hbelow]; [exact Hok|].
  destruct (it >? max_it); [exact Hok|].
  destruct ev as [err|err|use_delta result]; [exact Hok..|].
  destruct Hok as (Hmax & Hbest & (b & Hb & Hbc) & Hlast & Hbefore & Hrev).
  pose proof (update_best_history it_consensus_score (engine s) result
                (dr_consensus result) it ltac:(reflexivity)) as Hscores.
  pose proof (update_best_history entry (engine s) result
                (dr_consensus result) it ltac:(reflexivity)) as Hentries.
  assert (Hupd :
    let e := fst (_update_best_result (engine s) result (dr_consensus result) it) in
    (dr_consensus result > best_consensus (engine s) /\
     best_consensus e = dr_consensus result /\ best_iteration e = it /\
     best_result e = Some result) \/
    (dr_consensus result <= best_consensus (engine s) /\
     best_consensus e = best_consensus (engine s) /\
     best_iteration e = best_iteration (engine s) /\
     best_result e = best_result (engine s))).
  { unfold _update_best_result.
    destruct (Z.gtb_spec (dr_consensus result) (best_consensus (engine s)));
      cbn [fst best_consensus best_iteration best_result]; [left|right]; auto with lia. }
  destruct (_update_best_result (engine s) result (dr_consensus result) it)
    as [e is_best].
  cbn [fst] in Hscores, Hentries, Hupd.
  set (d := {| it_iteration := it;
               it_type := if use_delta then delta_debate else full_debate;
               it_consensus_score := dr_consensus result; it_is_best := is_best |}).
  assert (Hgoal : forall s',
            engine s' = _track_iteration e d -> consensus s' = dr_consensus result ->
            total_revisions s' = total_revisions s + 1 -> run_ok target s').
  { intros s' He Hc Ht. unfold run_ok. rewrite He, Hc, Ht.
    cbn [_track_iteration iteration_history best_consensus best_iteration best_result].
    rewrite !fmap_app, Hscores, Hentries. cbn [fmap list_fmap].
    rewrite removelast_snoc, last_snoc, List.length_app. cbn [List.length].
    split; [|split; [|split; [|split; [reflexivity|split; [|lia]]]]].
    - apply Forall_app. split.
      + eapply Forall_impl; [exact Hmax|]. intros c Hc'. cbn beta in *.
        destruct Hupd as [(? & -> & _)|(? & -> & _)]; lia.
      + repeat constructor. cbn [d it_consensus_score].
        destruct Hupd as [(? & -> & _)|(? & -> & _)]; lia.
    - apply elem_of_app.
      destruct Hupd as [(_ & -> & -> & _)|(_ & -> & -> & _)];
        [right; unfold entry; cbn [d it_iteration it_consensus_score]; constructor
        |left; exact Hbest].
    - destruct Hupd as [(_ & -> & _ & ->)|(_ & -> & _ & ->)]; eauto.
    - apply (last_removelast _ _ (consensus s) Hlast Hbefore). lia. }
  destruct (dr_consensus result >=? target); cbn [fst]; [apply Hgoal; reflexivity|].
  destruct (_ <? min_improvement_threshold cfg); cbn [fst]; apply Hgoal; reflexivity.
Qed.

Lemma loop_trace_ok cfg target max_it env iterations :
  forall s, run_ok target s ->
    Forall (run_ok target) (loop_trace cfg target max_it env iterations s).
Proof.
  induction iterations as [|i rest IH]; intros s Hok; cbn [loop_trace]; [constructor|].
  pose proof (loop_body_ok cfg target max_it i (env i) s Hok) as Hok'.
  destruct (loop_body _ _ _ _ _ _) as [s' go_on]. cbn [fst] in Hok'.
  constructor; [exact Hok'|]. destruct go_on; [apply IH; exact Hok'|constructor].
Qed.

Lemma last_Forall {A} (P : A -> Prop) (l : list A) d :
  Forall P l -> P d -> P (List.last l d).
Proof.
  intros Hl Hd. induction Hl as [|x l Hx Hl IH]; [exact Hd|].
  destruct l; [exact Hx|exact IH].
Qed.

Lemma loop_body_length cfg target max_it it ev s :
  (List.length (iteration_history (engine (fst (loop_body cfg target max_it it ev s))))
   <= List.length (iteration_history (engine s)) + 1)%nat.
Proof.
  unfold loop_body.
  destruct (_check_stopping_criteria _ _ _ _) as [[] reason].
  { destruct (String.eqb reason ""); cbn; lia. }
  destruct ev as [err|err|use_delta result]; cbn [fst add_warning engine]; try lia.
  pose proof (update_best_history it_consensus_score (engine s) result
                (dr_consensus result) it ltac:(reflexivity)) as Hscores.
  apply (f_equal (@List.length Z)) in Hscores. rewrite !length_fmap in Hscores.
  destruct (_update_best_result _ _ _ _) as [e is_best]. cbn [fst] in Hscores.
  destruct (_ >=? target); cbn [fst engine _track_iteration iteration_history].
  - rewrite List.length_app. cbn. lia.
  - destruct (_ <? min_improvement_threshold cfg);
      cbn [fst engine _track_iteration iteration_history];
      rewrite List.length_app; cbn; lia.
Qed.

Lemma loop_trace_length cfg target max_it env iterations :
  forall s,
    Forall (fun s' => (List.length (iteration_history (engine s'))
                       <= List.length (iteration_history (engine s))
                          + List.length iterations)%nat)
           (loop_trace cfg target max_it env iterations s).
Proof.
  induction iterations as [|i rest IH]; intros s; cbn [loop_trace]; [constructor|].
  pose proof (loop_body_length cfg target max_it i (env i) s) as Hl.
  destruct (loop_body _ _ _ _ _ _) as [s' go_on]. cbn [fst] in Hl.
  constructor; [cbn [List.length]; lia|]. destruct go_on; [|constructor].
  eapply Forall_impl; [apply IH|]. cbn beta. intros s'' Hs''. cbn [List.length]. lia.
Qed.

Lemma py_range_length lo hi : List.length (py_range lo hi) = Z.to_nat (hi - lo).
Proof. unfold py_range. rewrite length_fmap, List.length_seq. reflexivity. Qed.

Lemma final_consensus_last e :
  final_consensus_of e = default 0 (last (it_consensus_score <$> iteration_history e)).
Proof.
  unfold final_consensus_of.
  destruct (iteration_history e) as [|d h _] using rev_ind; [reflexivity|].
  rewrite List.rev_app_distr, fmap_app. cbn [List.rev app fmap list_fmap].
  rewrite last_snoc. reflexivity.
Qed.

(** The state a run ends in, and the result made from it. *)
Lemma run_result_state cfg target_arg max_arg first env :
  let target := or_default target_arg (target_consensus cfg) in
  let max_iterations := or_default max_arg (max_rounds cfg) in
  exists s ws,
    run_ok target s /\
    (List.length (iteration_history (engine s))
     <= 1 + Z.to_nat (max_iterations - 1))%nat /\
    run_iterative_debate cfg target_arg max_arg first env
    = _format_result (engine s) target (total_revisions s) ws /\
    (final_consensus_of (engine s) < target -> ws <> []).
Proof.
  intros target max_iterations. unfold run_iterative_debate. fold target.
  pose proof (first_iteration_ok target first) as H1.
  destruct (Z.geb_spec (consensus (first_iteration first)) target) as [Hfirst|Hfirst].
  - exists (first_iteration first), []. split; [exact H1|].
    split; [change (List.length (iteration_history (engine (first_iteration first))))
              with 1%nat; lia|].
    split; [reflexivity|].
    rewrite final_consensus_last. cbn in Hfirst |- *. intros ?. lia.
  - unfold run_trace. fold target. fold max_iterations.
    destruct (Z.geb_spec (consensus (first_iteration first)) target) as [?|_]; [lia|].
    set (trace := loop_trace cfg target max_iterations env
                    (py_range 2 (max_iterations + 1)) (first_iteration first)).
    set (s := List.last (first_iteration first :: trace) (first_iteration first)).
    assert (Hs : run_ok target s).
    { apply last_Forall; [|exact H1]. constructor; [exact H1|].
      apply loop_trace_ok. exact H1. }
    assert (Hlen : (List.length (iteration_history (engine s))
                    <= 1 + Z.to_nat (max_iterations - 1))%nat).
    { apply (last_Forall (fun s' => (List.length (iteration_history (engine s'))
                                     <= 1 + Z.to_nat (max_iterations - 1))%nat));
        [|change (List.length (iteration_history (engine (first_iteration first))))
            with 1%nat; lia].
      constructor;
        [change (List.length (iteration_history (engine (first_iteration first))))
           with 1%nat; lia|].
      eapply Forall_impl; [apply loop_trace_length|]. cbn beta. intros s' Hs'.
      rewrite py_range_length in Hs'. cbn [first_iteration engine iteration_history
        _track_iteration app List.length] in Hs'.
      replace (max_iterations + 1 - 2) with (max_iterations - 1) in Hs' by lia. lia. }
    eexists s, _. split; [exact Hs|]. split; [exact Hlen|].
    split; [reflexivity|].
    intros Hlow. destruct (Z.ltb_spec (final_consensus_of (engine s)) target); [|lia].
    destruct (warnings s); discriminate.
Qed.

(** X24: The result of a run is consistent with its history: the best
    consensus is the greatest score of the history and was reached in
    the iteration reported as the best, the best result stored has that
    score, and the final consensus is the last score of the history, so
    it is never above the best. *)
Theorem run_best_is_maximum cfg target_arg max_arg first env :
  let r := run_iterative_debate cfg target_arg max_arg first env in
  let scores := it_consensus_score <$> res_iterations r in
  Forall (fun c => c <= res_best_consensus r) scores /\
  (res_best_iteration r, res_best_consensus r) ∈ (entry <$> res_iterations r) /\
  (exists b, res_best_result r = Some b /\ dr_consensus b = res_best_consensus r) /\
  last scores = Some (res_final_consensus r) /\
  res_final_consensus r <= res_best_consensus r.
Proof.
  intros r scores. subst r scores.
  destruct (run_result_state cfg target_arg max_arg first env)
    as (s & ws & (Hmax & Hbest & Hres & Hlast & _ & _) & _ & -> & _).
  cbn [_format_result res_iterations res_best_consensus res_best_iteration
       res_best_result res_final_consensus].
  rewrite final_consensus_last, Hlast. cbn [default from_option id].
  do 4 (split; [assumption || reflexivity|]).
  apply last_Some_elem_of in Hlast.
  rewrite Forall_forall in Hmax. apply Hmax. exact Hlast.
Qed.

(** X25: A run stops at the target and within its budget: every score before
    the last is below the target, the history has at least one and at
    most [max_iterations] entries (one, if that is less), one revision
    was made per entry after the first, the target counts as reached
    exactly when the last score is at least the target, and a run that
    does not reach it ends with a warning. *)
Theorem run_stops_at_target cfg target_arg max_arg first env :
  let r := run_iterative_debate cfg target_arg max_arg first env in
  let target := or_default target_arg (target_consensus cfg) in
  let max_iterations := or_default max_arg (max_rounds cfg) in
  Forall (fun c => c < target)
         (List.removelast (it_consensus_score <$> res_iterations r)) /\
  1 <= res_total_iterations r <= Z.max 1 max_iterations /\
  res_total_revisions r = res_total_iterations r - 1 /\
  res_target_consensus r = target /\
  (res_target_reached r = true <-> target <= res_final_consensus r) /\
  (res_target_reached r = true -> target <= res_best_consensus r) /\
  (res_target_reached r = false -> res_warnings r <> []).
Proof.
  intros r target max_iterations. subst r.
  destruct (run_result_state cfg target_arg max_arg first env)
    as (s & ws & (Hmax & _ & _ & Hlast & Hbefore & Hrev) & Hlen & -> & Hws).
  fold target in Hbefore, Hws |- *. fold max_iterations in Hlen.
  cbn [_format_result res_iterations res_total_iterations res_total_revisions
       res_target_consensus res_target_reached res_final_consensus
       res_best_consensus res_warnings].
  rewrite length_fmap in Hrev.
  assert (Hne : (1 <= List.length (iteration_history (engine s)))%nat).
  { destruct (iteration_history (engine s)); [discriminate|cbn; lia]. }
  assert (Hfinal : final_consensus_of (engine s) <= best_consensus (engine s)).
  { rewrite final_consensus_last, Hlast. cbn [default from_option id].
    apply last_Some_elem_of in Hlast. rewrite Forall_forall in Hmax. auto. }
  split; [exact Hbefore|]. split; [lia|]. split; [exact Hrev|]. split; [reflexivity|].
  destruct (Z.geb_spec (final_consensus_of (engine s)) target) as [Hge|Hlt].
  - split; [split; [lia|reflexivity]|]. split; [lia|discriminate].
  - split; [split; [discriminate|lia]|]. split; [discriminate|]. intros _. auto.
Qed.

Lemma set_is_best_flags (h : list IterData) :
  it_is_best <$> (set_is_best false <$> h) = List.repeat false (List.length h).
Proof.
  induction h as [|d h IH]; cbn [fmap list_fmap List.length List.repeat]; [reflexivity|].
  cbn [fmap list_fmap] in IH. rewrite IH. reflexivity.
Qed.

(** X26: The [is_best] flags after an improvement.  When a debate of the loop
    beats the best consensus, [_update_best_result] runs before the new
    iteration is in the history: it clears the flags and then sets the
    flag of the last entry, which is the iteration before.  The history
    then flags two iterations as best: the new one and the one before
    it, which the new one has just beaten. *)
Theorem is_best_flags_after_improvement
    cfg target max_it it use_delta result s previous :
  consensus s < target -> it <= max_it ->
  best_consensus (engine s) < dr_consensus result ->
  last (iteration_history (engine s)) = Some previous ->
  let h' := iteration_history
              (engine (fst (loop_body cfg target max_it it
                              (Debated use_delta result) s))) in
  it_is_best <$> h'
  = (List.repeat false (List.length (iteration_history (engine s)) - 1)
     ++ [true; true])%list /\
  entry <$> h' = ((entry <$> iteration_history (engine s))
                  ++ [(it, dr_consensus result)])%list.
Proof.
  intros Hbelow Hit Hbetter Hprev. unfold loop_body, _check_stopping_criteria.
  destruct (Z.geb_spec (consensus s) target); [lia|].
  destruct (Z.gtb_spec it max_it); [lia|].
  unfold _update_best_result.
  destruct (Z.gtb_spec (dr_consensus result) (best_consensus (engine s))); [|lia].
  destruct (iteration_history (engine s)) as [|x h _] eqn:Hh using rev_ind;
    [discriminate|].
  rewrite fmap_app. cbn [fmap list_fmap]. rewrite mark_last_best_app.
  assert (Hflags : forall s',
            iteration_history (engine s')
            = (((set_is_best false <$> h) ++ [set_is_best true (set_is_best false x)])
               ++ [{| it_iteration := it;
                      it_type := if use_delta then delta_debate else full_debate;
                      it_consensus_score := dr_consensus result;
                      it_is_best := true |}])%list ->
            it_is_best <$> iteration_history (engine s')
            = (List.repeat false (List.length (h ++ [x]) - 1) ++ [true; true])%list /\
            entry <$> iteration_history (engine s')
            = ((entry <$> (h ++ [x])%list) ++ [(it, dr_consensus result)])%list).
  { intros s' ->. rewrite !fmap_app, set_is_best_flags. cbn [fmap list_fmap].
    rewrite List.length_app. cbn [List.length].
    replace (List.length h + 1 - 1)%nat with (List.length h) by lia.
    rewrite <- List.app_assoc. split; [reflexivity|].
    rewrite (set_is_best_fmap entry false h) by reflexivity. reflexivity. }
  cbn zeta.
  destruct (dr_consensus result >=? target); cbn [fst]; [apply Hflags; reflexivity|].
  destruct (_ <? min_improvement_threshold cfg); cbn [fst]; apply Hflags; reflexivity.
Qed.

(** [is_best_flags_after_improvement] for a run that scores 70 and then
    88: both iterations end up flagged as best. *)
Lemma is_best_flags_after_improvement_witness :
  let s := first_iteration demo_first in
  let result := {| dr_consensus := 88; dr_tag := 2 |} in
  let h' := iteration_history
              (engine (fst (loop_body demo_engine_config 90 3 2
                              (Debated false result) s))) in
  it_is_best <$> h' = ([] ++ [true; true])%list /\
  entry <$> h' = ([(1, 70)] ++ [(2, 88)])%list.
Proof.
  apply (is_best_flags_after_improvement demo_engine_config 90 3 2 false
           {| dr_consensus := 88; dr_tag := 2 |} (first_iteration demo_first)
           {| it_iteration := 1; it_type := full_debate;
              it_consensus_score := 70; it_is_best := true |}).
  - vm_compute. reflexivity.
  - lia.
  - vm_compute. reflexivity.
  - reflexivity.
Defined.

End EngineInvariantProps.

Module RevisionProps.
Import PyStr PlanReviser.

Lemma score_ge_trans : Transitive score_ge.
Proof. unfold score_ge. intros x y z Hxy Hyz. lia. Qed.

Lemma score_ge_total : Total score_ge.
Proof. unfold score_ge. intros x y. lia. Qed.

#[local] Existing Instance score_ge_trans.
#[local] Existing Instance score_ge_total.

Lemma StronglySorted_firstn {A} (R : A -> A -> Prop) n l :
  StronglySorted R l -> StronglySorted R (List.firstn n l).
Proof.
  intros H. revert n. induction H as [|x r Hr IH Hx]; intros [|n]; cbn [List.firstn];
    constructor; auto using ModeratorProps.Forall_firstn.
Qed.

(** The issues a revision addresses: at most five, each one of the
    scored issues with a score of 65 or more, in descending order of
    score, and no scored issue left out has a higher score than one
    that was taken. *)
Lemma prioritize_issues_spec scored_issues :
  let top := _prioritize_issues scored_issues in
  (List.length top <= 5)%nat /\
  Forall (fun i => i ∈ scored_issues /\ 65 <= issue_score i) top /\
  StronglySorted score_ge top /\
  forall i j, i ∈ top -> j ∈ scored_issues -> 65 <= issue_score j ->
              issue_score i < issue_score j -> j ∈ top.
Proof.
  intros top. subst top. unfold _prioritize_issues.
  set (high := List.filter (fun i => issue_score i >=? 65) scored_issues).
  pose proof (merge_sort_Permutation score_ge high) as Hperm.
  pose proof (StronglySorted_merge_sort score_ge high) as Hsorted.
  set (sorted := merge_sort score_ge high) in *.
  assert (Hhigh : forall i, i ∈ sorted <-> i ∈ scored_issues /\ 65 <= issue_score i).
  { intros i. rewrite Hperm. subst high.
    rewrite list_elem_of_In, List.filter_In, <- list_elem_of_In.
    destruct (Z.geb_spec (issue_score i) 65); intuition (discriminate || lia). }
  split; [apply List.firstn_le_length|]. split; [|split].
  - apply ModeratorProps.Forall_firstn, Forall_forall. intros i Hi. apply Hhigh, Hi.
  - apply StronglySorted_firstn, Hsorted.
  - intros i j Hi Hj Hj65 Hlt.
    assert (Hjs : j ∈ sorted) by (apply Hhigh; auto).
    rewrite <- (List.firstn_skipn 5 sorted) in Hjs, Hsorted.
    apply elem_of_app in Hjs as [Hjs|Hjs]; [exact Hjs|].
    pose proof (StronglySorted_app_1_elem_of _ _ _ _ _ Hsorted Hi Hjs) as Hge.
    unfold score_ge in Hge. lia.
Qed.


End RevisionProps.

Module LearnedThresholdsProps.
Import DecisionLearner LearnedThresholds.

(** X28: The learned consensus rules.  The evaluator reads the condition of
    a rule as the test that grouped the debates the rule was learned
    from.  A consensus score from 0 to 99 falls in exactly one of the
    four ranges; a score of 100, the highest there is, falls in none, as
    does a negative one: no consensus rule is learned from a debate that
    scored 100, and none applies to one. *)
Theorem consensus_ranges consensus :
  (forall min_score max_score,
     safe_evaluate_condition (Ok (range_condition min_score max_score)) consensus
     = Ok (in_range min_score max_score consensus)) /\
  List.length (ranges_of consensus)
  = (if (0 <=? consensus) && (consensus <? 100) then 1%nat else 0%nat) /\
  ranges_of 100 = [] /\
  Forall (fun '(min_score, max_score, _) =>
            safe_evaluate_condition (Ok (range_condition min_score max_score)) 100
            = Ok false) ranges.
Proof.
  split; [|split; [|split]].
  - intros min_score max_score. unfold safe_evaluate_condition, range_condition, in_range.
    cbn. destruct (min_score <=? consensus); cbn; [|reflexivity].
    destruct (consensus <? max_score); reflexivity.
  - unfold ranges_of, ranges, in_range. cbn [List.filter].
    repeat match goal with
      | |- context [?a <=? ?b] => destruct (Z.leb_spec a b)
      | |- context [?a <? ?b] => destruct (Z.ltb_spec a b)
      end; cbn; try reflexivity; lia.
  - reflexivity.
  - repeat constructor.
Qed.

End LearnedThresholdsProps.

Module DeltaDebateProps.
Import DeltaDebate.

Lemma covered_close collected k j :
  covered (close_section collected k) j
  <-> match collected with
      | Some (start, _) => start <= j <= k
      | None => False
      end.
Proof.
  unfold covered, close_section. destruct collected as [[start ls]|].
  - rewrite Exists_cons, Exists_nil. cbn [start_line end_line]. tauto.
  - apply Exists_nil.
Qed.

Lemma skipn_tl {A} n (l : list A) : List.skipn n (List.tl l) = List.skipn (S n) l.
Proof. destruct l; [destruct n|]; reflexivity. Qed.

(** Which lines the sections of a scan span: those of the section being
    collected, and the changed ones among the lines still to come. *)
Lemma scan_covered curr_lines :
  forall prev_lines k collected j,
    0 <= k ->
    match collected with Some (start, _) => 1 <= start <= k | None => True end ->
    covered (scan prev_lines curr_lines k collected) j
    <-> match collected with
        | Some (start, _) => start <= j <= k
        | None => False
        end \/
        (k < j /\
         match curr_lines !! Z.to_nat (j - k - 1) with
         | Some line =>
             line_changed (List.skipn (Z.to_nat (j - k - 1)) prev_lines) line = true
         | None => False
         end).
Proof.
  induction curr_lines as [|line rest IH]; intros prev_lines k collected j Hk Hwf;
    cbn [scan].
  - rewrite covered_close, lookup_nil. tauto.
  - assert (Hshift : k + 1 < j ->
              Z.to_nat (j - k - 1) = S (Z.to_nat (j - (k + 1) - 1))) by lia.
    destruct (line_changed prev_lines line) eqn:Hline.
    + rewrite IH by (destruct collected as [[start ls]|]; lia).
      destruct (Z.lt_trichotomy j (k + 1)) as [Hlt|[->|Hgt]].
      * destruct collected as [[start ls]|]; intuition lia.
      * replace (k + 1 - k - 1) with 0 by lia.
        change (Z.to_nat 0) with 0%nat.
        change ((line :: rest) !! 0%nat) with (Some line).
        rewrite List.skipn_O, Hline.
        destruct collected as [[start ls]|]; intuition lia.
      * rewrite (Hshift Hgt).
        change ((line :: rest) !! S (Z.to_nat (j - (k + 1) - 1)))
          with (rest !! Z.to_nat (j - (k + 1) - 1)).
        rewrite skipn_tl.
        destruct collected as [[start ls]|]; intuition lia.
    + unfold covered. rewrite Exists_app. fold (covered (close_section collected k) j).
      fold (covered (scan (List.tl prev_lines) rest (k + 1) None) j).
      rewrite covered_close, IH by (exact I || lia).
      destruct (Z.lt_trichotomy j (k + 1)) as [Hlt|[->|Hgt]].
      * destruct collected as [[start ls]|]; intuition lia.
      * replace (k + 1 - k - 1) with 0 by lia.
        change (Z.to_nat 0) with 0%nat.
        change ((line :: rest) !! 0%nat) with (Some line).
        rewrite List.skipn_O, Hline.
        destruct collected as [[start ls]|]; intuition (lia || discriminate).
      * rewrite (Hshift Hgt).
        change ((line :: rest) !! S (Z.to_nat (j - (k + 1) - 1)))
          with (rest !! Z.to_nat (j - (k + 1) - 1)).
        rewrite skipn_tl.
        destruct collected as [[start ls]|]; intuition lia.
Qed.

(** The bounds and the content of the sections of a scan that has
    passed the lines [done]. *)
Lemma scan_sections curr_lines :
  forall prev_lines done collected,
    let k := Z.of_nat (List.length done) in
    match collected with
    | Some (start, changed_lines) =>
        1 <= start <= k /\ changed_lines = List.skipn (Z.to_nat (start - 1)) done
    | None => True
    end ->
    Forall (fun s =>
              1 <= start_line s <= end_line s /\
              end_line s <= k + Z.of_nat (List.length curr_lines) /\
              content s
              = String.concat (String "010" "")
                  (List.firstn (Z.to_nat (end_line s - start_line s + 1))
                     (List.skipn (Z.to_nat (start_line s - 1)) (done ++ curr_lines))))
           (scan prev_lines curr_lines k collected).
Proof.
  induction curr_lines as [|line rest IH]; intros prev_lines done collected k Hwf;
    cbn [scan].
  - destruct collected as [[start ls]|]; [|constructor].
    destruct Hwf as [Hstart ->]. repeat constructor; cbn [start_line end_line content];
      try lia.
    rewrite app_nil_r, List.firstn_all2; [reflexivity|].
    rewrite List.length_skipn. lia.
  - assert (Hk : Z.of_nat (List.length (done ++ [line])) = k + 1)
      by (rewrite List.length_app; cbn [List.length]; lia).
    assert (Hall : ((done ++ [line]) ++ rest = done ++ line :: rest)%list)
      by (rewrite <- List.app_assoc; reflexivity).
    assert (Hlen : k + 1 + Z.of_nat (List.length rest)
                   = k + Z.of_nat (List.length (line :: rest)))
      by (cbn [List.length]; lia).
    destruct (line_changed prev_lines line).
    + specialize (IH (List.tl prev_lines) (done ++ [line])%list
                    (Some match collected with
                          | None => (k + 1, [line])
                          | Some (start, changed_lines) =>
                              (start, (changed_lines ++ [line])%list)
                          end)).
      cbn zeta in IH. rewrite Hk, Hall, Hlen in IH. apply IH.
      destruct collected as [[start ls]|].
      * destruct Hwf as [Hstart ->]. split; [lia|].
        rewrite List.skipn_app.
        replace (Z.to_nat (start - 1) - List.length done)%nat with 0%nat by lia.
        reflexivity.
      * split; [lia|]. replace (Z.to_nat (k + 1 - 1)) with (List.length done) by lia.
        rewrite List.skipn_app, List.skipn_all, Nat.sub_diag. reflexivity.
    + apply Forall_app. split.
      * destruct collected as [[start ls]|]; [|constructor].
        destruct Hwf as [Hstart ->]. repeat constructor;
          cbn [start_line end_line content]; try lia.
        rewrite List.skipn_app, List.firstn_app, List.length_skipn.
        replace (Z.to_nat (k - start + 1) - (List.length done - Z.to_nat (start - 1)))%nat
          with 0%nat by lia.
        rewrite List.firstn_O, app_nil_r, List.firstn_all2; [reflexivity|].
        rewrite List.length_skipn. lia.
      * specialize (IH (List.tl prev_lines) (done ++ [line])%list None I).
        cbn zeta in IH. rewrite Hk, Hall, Hlen in IH. exact IH.
Qed.

Lemma scan_collecting prev_lines curr_lines k c :
  scan prev_lines curr_lines k (Some c) <> [].
Proof.
  revert prev_lines k c.
  induction curr_lines as [|line rest IH]; intros prev_lines k [start ls]; cbn [scan].
  - discriminate.
  - destruct (line_changed prev_lines line); [apply IH|discriminate].
Qed.

Lemma scan_nil_iff curr_lines :
  forall prev_lines k,
    scan prev_lines curr_lines k None = []
    <-> exists deleted, prev_lines = (curr_lines ++ deleted)%list.
Proof.
  induction curr_lines as [|line rest IH]; intros prev_lines k; cbn [scan].
  - split; [intros _; exists prev_lines; reflexivity|reflexivity].
  - destruct prev_lines as [|previous prev_rest]; cbn [line_changed List.tl].
    + split; [intros H; exfalso; exact (scan_collecting _ _ _ _ H)|].
      intros [deleted H]. discriminate.
    + destruct (String.eqb_spec line previous) as [->|Hne]; cbn [negb close_section app].
      * rewrite IH. split; intros [deleted H]; exists deleted; congruence.
      * split; [intros H; exfalso; exact (scan_collecting _ _ _ _ H)|].
        intros [deleted H]. congruence.
Qed.

(** X29: The sections [_detect_changed_sections] returns span exactly the
    lines of the current content that are new or differ from the
    previous line in their place.  Each section lies within the current
    content, is at least one line long, and its content is the lines it
    spans, joined by line feeds. *)
Theorem detect_changed_sections_cover previous_text current_text :
  let prev_lines := split_newline previous_text in
  let curr_lines := split_newline current_text in
  let sections := _detect_changed_sections previous_text current_text in
  (forall j, covered sections j <-> changed_at prev_lines curr_lines j = true) /\
  Forall (fun s =>
            1 <= start_line s <= end_line s /\
            end_line s <= Z.of_nat (List.length curr_lines) /\
            content s
            = String.concat (String "010" "")
                (List.firstn (Z.to_nat (end_line s - start_line s + 1))
                   (List.skipn (Z.to_nat (start_line s - 1)) curr_lines)))
         sections.
Proof.
  intros prev_lines curr_lines sections. subst sections.
  unfold _detect_changed_sections. fold prev_lines. fold curr_lines. split.
  - intros j. rewrite (scan_covered curr_lines prev_lines 0 None j) by (lia || exact I).
    unfold changed_at. replace (j - 0 - 1) with (j - 1) by lia.
    destruct (curr_lines !! Z.to_nat (j - 1)) as [line|].
    + destruct (Z.leb_spec 1 j); cbn [andb]; intuition (lia || discriminate).
    + intuition (lia || discriminate).
  - exact (scan_sections curr_lines prev_lines [] None I).
Qed.

(** X30: Lines deleted at the end are not seen.  No section is found exactly
    when the current lines are the first lines of the previous content;
    so when the content has changed only by losing lines at its end,
    [detect_changes] reports a change with no changed section, and
    [should_use_delta_mode] chooses the delta mode. *)
Theorem trailing_deletion_not_detected previous_text current_text stored_hash :
  (_detect_changed_sections previous_text current_text = []
   <-> exists deleted,
         split_newline previous_text = (split_newline current_text ++ deleted)%list) /\
  let info := detect_changes current_text
                (Some {| content_hash := stored_hash;
                         previous_content := Some previous_text |}) in
  (stored_hash <> Some (_hash_content current_text) ->
   _detect_changed_sections previous_text current_text = [] ->
   has_changes info = true /\ changed_sections info = [] /\
   should_use_delta_mode info = true).
Proof.
  split; [apply scan_nil_iff|].
  intros info Hhash Hnone. subst info. unfold detect_changes.
  cbn [default from_option id previous_content content_hash].
  rewrite bool_decide_eq_false_2 by (intros E; apply Hhash; symmetry; exact E).
  unfold should_use_delta_mode.
  cbn [has_changes changed_sections previous_debate negb].
  rewrite Hnone. repeat split.
Qed.

(** [trailing_deletion_not_detected] for a plan of two lines that loses
    its second line. *)
Lemma trailing_deletion_not_detected_witness :
  let previous_text := String "a" (String "010" "b") in
  let info := detect_changes "a"
                (Some {| content_hash := Some (_hash_content previous_text);
                         previous_content := Some previous_text |}) in
  has_changes info = true /\ changed_sections info = [] /\
  should_use_delta_mode info = true.
Proof.
  apply (proj2 (trailing_deletion_not_detected
                  (String "a" (String "010" "b")) "a"
                  (Some (_hash_content (String "a" (String "010" "b")))))).
  - vm_compute. discriminate.
  - reflexivity.
Defined.

End DeltaDebateProps.
